(** * RetroNexus emulator core: Game Boy CPU, bus, PPU and the PlayStation SPU

    A shallow embedding of [GameBoyEmulator.cpp] and of the SPU
    implementation, followed by the properties the specification states
    about them.

    Conventions of the embedding
    - a [uintN_t] value is a [Z] in [0, 2^N); every store that can leave the
      range is wrapped explicitly ([u8], [u16], [u32]);
    - [std::array] and [std::vector] are [list Z]; an access outside the
      container is undefined behaviour in C++ and is the outcome [Undefined]
      here; an exception is the outcome [Throw];
    - member functions that mutate the object are computations in the monad
      [M], which threads the object and these outcomes. *)

From Stdlib Require Import ZArith Lia Bool String Ascii.
From stdpp Require Import base list.

Local Open Scope Z_scope.

(** ** Fixed-width integers *)

Module Int.

Definition u8 (x : Z) : Z := x mod 0x100.
Definition u16 (x : Z) : Z := x mod 0x10000.
Definition u32 (x : Z) : Z := x mod 0x100000000.

(** [static_cast<int8_t>] and [static_cast<int16_t>] of an integer. *)
Definition i8 (x : Z) : Z :=
  let y := u8 x in if y <? 0x80 then y else y - 0x100.
Definition i16 (x : Z) : Z :=
  let y := u16 x in if y <? 0x8000 then y else y - 0x10000.

(** Conversion of an integer to [bool]: non-zero is [true]. *)
Definition truthy (x : Z) : bool := negb (x =? 0).

Definition is_u8 (x : Z) : Prop := 0 <= x < 0x100.
Definition is_u16 (x : Z) : Prop := 0 <= x < 0x10000.

End Int.

(** ** Outcomes of a C++ call *)

Inductive res (A : Type) : Type :=
| Ok (x : A)
| Throw (what : string)
| Undefined.

Arguments Ok {A} x.
Arguments Throw {A} what.
Arguments Undefined {A}.

Definition res_bind {A B : Type} (r : res A) (k : A -> res B) : res B :=
  match r with
  | Ok x => k x
  | Throw w => Throw w
  | Undefined => Undefined
  end.

(** Element access [c[i]] and element store [c[i] = v] on a container. *)
Definition at_ {A : Type} (c : list A) (i : Z) : res A :=
  if i <? 0 then Undefined
  else match c !! Z.to_nat i with
       | Some v => Ok v
       | None => Undefined
       end.

Definition store {A : Type} (c : list A) (i : Z) (v : A) : res (list A) :=
  if i <? 0 then Undefined
  else match c !! Z.to_nat i with
       | Some _ => Ok (<[Z.to_nat i := v]> c)
       | None => Undefined
       end.

(** [std::hex] rendering of a non-negative [int]: lower case, no padding. *)
Definition hex_digit (d : Z) : ascii :=
  ascii_of_nat (Z.to_nat (if d <? 10 then 48 + d else 87 + d)).

Fixpoint hex_digits (fuel : nat) (x : Z) (acc : string) : string :=
  match fuel with
  | O => acc
  | S fuel' =>
      let acc' := String (hex_digit (x mod 16)) acc in
      if x / 16 =? 0 then acc' else hex_digits fuel' (x / 16) acc'
  end.

Definition hex (x : Z) : string := hex_digits 8 x EmptyString.

Definition endl : string := String (ascii_of_nat 10) EmptyString.

(** Functional update of one field of a record: [eta] is the constructor
    applied to every projection of the record, [proj] the field replaced. *)
Ltac record_set eta proj v :=
  match eval pattern proj in eta with
  | ?g _ => let u := eval cbv beta in (g (fun _ => v)) in exact u
  end.

(** ** The Game Boy emulator object *)

Module GameBoyEmulator.

Import Int.

(** *** Member structures *)

(** [struct { uint8_t a, f; b, c; d, e; h, l; uint16_t sp; uint16_t pc; }
    registers]. *)
Module Registers.
Record t : Type := mk
  { a : Z; f : Z; b : Z; c : Z; d : Z; e : Z; h : Z; l : Z;
    sp : Z; pc : Z }.
Local Abbreviation eta r :=
  (mk (a r) (f r) (b r) (c r) (d r) (e r) (h r) (l r) (sp r) (pc r)).
Definition set_a (v : Z) (r : t) : t := ltac:(record_set (eta r) a v).
Definition set_f (v : Z) (r : t) : t := ltac:(record_set (eta r) f v).
Definition set_b (v : Z) (r : t) : t := ltac:(record_set (eta r) b v).
Definition set_c (v : Z) (r : t) : t := ltac:(record_set (eta r) c v).
Definition set_d (v : Z) (r : t) : t := ltac:(record_set (eta r) d v).
Definition set_e (v : Z) (r : t) : t := ltac:(record_set (eta r) e v).
Definition set_h (v : Z) (r : t) : t := ltac:(record_set (eta r) h v).
Definition set_l (v : Z) (r : t) : t := ltac:(record_set (eta r) l v).
Definition set_sp (v : Z) (r : t) : t := ltac:(record_set (eta r) sp v).
Definition set_pc (v : Z) (r : t) : t := ltac:(record_set (eta r) pc v).

(** Modelled from the spec: the declaration of the 16-bit views
    [registers.bc], [registers.de] and [registers.hl] is not in the
    sources; the spec pairs the byte registers into 16-bit views, the
    first register of a pair being the high byte. *)
Definition bc (r : t) : Z := Z.lor (Z.shiftl (b r) 8) (c r).
Definition de (r : t) : Z := Z.lor (Z.shiftl (d r) 8) (e r).
Definition hl (r : t) : Z := Z.lor (Z.shiftl (h r) 8) (l r).
Definition set_bc (v : Z) (r : t) : t :=
  set_c (Z.land v 0xFF) (set_b (Z.shiftr (u16 v) 8) r).
Definition set_de (v : Z) (r : t) : t :=
  set_e (Z.land v 0xFF) (set_d (Z.shiftr (u16 v) 8) r).
Definition set_hl (v : Z) (r : t) : t :=
  set_l (Z.land v 0xFF) (set_h (Z.shiftr (u16 v) 8) r).

(** [registers = {}] *)
Definition zero : t := mk 0 0 0 0 0 0 0 0 0 0.

(** The image of the structure in memory, as [file.write] and
    [file.read] see it: twelve bytes, the two 16-bit members in
    little-endian order, no padding. *)
Definition to_bytes (r : t) : list Z :=
  [a r; f r; b r; c r; d r; e r; h r; l r;
   Z.land (sp r) 0xFF; Z.shiftr (sp r) 8;
   Z.land (pc r) 0xFF; Z.shiftr (pc r) 8].
Definition of_bytes (bs : list Z) : t :=
  let n i := nth i bs 0 in
  mk (n 0%nat) (n 1%nat) (n 2%nat) (n 3%nat) (n 4%nat) (n 5%nat)
     (n 6%nat) (n 7%nat)
     (Z.lor (n 8%nat) (Z.shiftl (n 9%nat) 8))
     (Z.lor (n 10%nat) (Z.shiftl (n 11%nat) 8)).
Definition size : Z := 12.
End Registers.

(** [struct { uint8_t lcdc; uint8_t stat; uint8_t ly; } gpu] *)
Module Gpu.
Record t : Type := mk { lcdc : Z; stat : Z; ly : Z }.
Definition zero : t := mk 0 0 0.
Definition to_bytes (g : t) : list Z := [lcdc g; stat g; ly g].
Definition of_bytes (bs : list Z) : t :=
  mk (nth 0%nat bs 0) (nth 1%nat bs 0) (nth 2%nat bs 0).
Definition size : Z := 3.
End Gpu.

(** Modelled from the spec: the declarations of the members [graphics],
    [interrupts], [dma], [input] and [sprites] are not in the sources.
    Their fields are the ones the member functions use; the LCD and
    interrupt registers are bytes, as the hardware registers and the
    sibling [gpu] structure are. *)
Module Graphics.
Record t : Type := mk
  { ly : Z; lyc : Z; stat : Z; scx : Z; scy : Z; wx : Z; wy : Z;
    bgp : Z; obp0 : Z; obp1 : Z }.
Local Abbreviation eta r :=
  (mk (ly r) (lyc r) (stat r) (scx r) (scy r) (wx r) (wy r)
      (bgp r) (obp0 r) (obp1 r)).
Definition set_ly (v : Z) (r : t) : t := ltac:(record_set (eta r) ly v).
Definition set_lyc (v : Z) (r : t) : t := ltac:(record_set (eta r) lyc v).
Definition set_stat (v : Z) (r : t) : t := ltac:(record_set (eta r) stat v).
Definition set_scx (v : Z) (r : t) : t := ltac:(record_set (eta r) scx v).
Definition set_scy (v : Z) (r : t) : t := ltac:(record_set (eta r) scy v).
Definition set_wx (v : Z) (r : t) : t := ltac:(record_set (eta r) wx v).
Definition set_wy (v : Z) (r : t) : t := ltac:(record_set (eta r) wy v).
Definition set_bgp (v : Z) (r : t) : t := ltac:(record_set (eta r) bgp v).
Definition set_obp0 (v : Z) (r : t) : t := ltac:(record_set (eta r) obp0 v).
Definition set_obp1 (v : Z) (r : t) : t := ltac:(record_set (eta r) obp1 v).
End Graphics.

Module Interrupts.
Record t : Type := mk { enable : Z; flags : Z }.
Definition set_enable (v : Z) (r : t) : t := mk v (flags r).
Definition set_flags (v : Z) (r : t) : t := mk (enable r) v.
End Interrupts.

Module Dma.
Record t : Type := mk
  { active : bool; source : Z; destination : Z; length : Z;
    remaining : Z }.
End Dma.

Module Input.
Record t : Type := mk { buttons : Z; directions : Z }.
End Input.

(** The sprite fields hold [int] values: [findSpritesForScanline] stores
    coordinates that can be negative and [renderSprites] tests them against
    zero. *)
Module Sprite.
Record t : Type := mk { y : Z; x : Z; tile : Z; attributes : Z }.
Definition zero : t := mk 0 0 0 0.
End Sprite.

(** [enum class PPUMode { HBLANK, VBLANK, OAM_SCAN, PIXEL_TRANSFER }] *)
Inductive PPUMode : Type := HBLANK | VBLANK | OAM_SCAN | PIXEL_TRANSFER.

Definition PPUMode_eqb (m1 m2 : PPUMode) : bool :=
  match m1, m2 with
  | HBLANK, HBLANK | VBLANK, VBLANK | OAM_SCAN, OAM_SCAN
  | PIXEL_TRANSFER, PIXEL_TRANSFER => true
  | _, _ => false
  end.

(** *** The object

    The data members the member functions of [GameBoyEmulator.cpp] use,
    and [cerr], the text written to [std::cerr]. *)
Record state : Type := mkState
  { memory : list Z;             (* std::array<uint8_t, 0x10000> *)
    cartridgeROM : list Z;       (* std::vector<uint8_t> *)
    registers : Registers.t;
    gpu : Gpu.t;
    romBank0 : list Z;           (* std::array<uint8_t, ROM_BANK_SIZE> *)
    romBankN : list Z;           (* std::vector<uint8_t> *)
    vram : list Z;               (* std::array<uint8_t, VRAM_SIZE> *)
    externalRam : list Z;        (* std::vector<uint8_t> *)
    wramBank0 : list Z;          (* std::array<uint8_t, RAM_BANK_SIZE> *)
    wramBankN : list Z;          (* std::vector<uint8_t> *)
    oam : list Z;                (* std::array<uint8_t, OAM_SIZE> *)
    io : list Z;                 (* std::array<uint8_t, IO_SIZE> *)
    hram : list Z;               (* std::array<uint8_t, HRAM_SIZE> *)
    ramEnabled : bool;
    interrupts : Interrupts.t;
    graphics : Graphics.t;
    ppuMode : PPUMode;
    ppuCycles : Z;
    ppuEnabled : bool;
    ppuWindowEnabled : bool;
    ppuSpritesEnabled : bool;
    ppuBackgroundEnabled : bool;
    dma : Dma.t;
    timerEnabled : bool;
    timerClock : Z;
    input : Input.t;
    sprites : list Sprite.t;
    spriteCount : Z;
    frameBuffer : list Z;
    cerr : string }.

Local Abbreviation eta s :=
  (mkState (memory s) (cartridgeROM s) (registers s) (gpu s) (romBank0 s)
     (romBankN s) (vram s) (externalRam s) (wramBank0 s) (wramBankN s)
     (oam s) (io s) (hram s) (ramEnabled s) (interrupts s) (graphics s)
     (ppuMode s) (ppuCycles s) (ppuEnabled s) (ppuWindowEnabled s)
     (ppuSpritesEnabled s) (ppuBackgroundEnabled s) (dma s)
     (timerEnabled s) (timerClock s) (input s) (sprites s) (spriteCount s)
     (frameBuffer s) (cerr s)).

Definition set_memory (v : list Z) (s : state) : state :=
  ltac:(record_set (eta s) memory v).
Definition set_cartridgeROM (v : list Z) (s : state) : state :=
  ltac:(record_set (eta s) cartridgeROM v).
Definition set_registers (v : Registers.t) (s : state) : state :=
  ltac:(record_set (eta s) registers v).
Definition set_gpu (v : Gpu.t) (s : state) : state :=
  ltac:(record_set (eta s) gpu v).
Definition set_vram (v : list Z) (s : state) : state :=
  ltac:(record_set (eta s) vram v).
Definition set_externalRam (v : list Z) (s : state) : state :=
  ltac:(record_set (eta s) externalRam v).
Definition set_wramBank0 (v : list Z) (s : state) : state :=
  ltac:(record_set (eta s) wramBank0 v).
Definition set_wramBankN (v : list Z) (s : state) : state :=
  ltac:(record_set (eta s) wramBankN v).
Definition set_oam (v : list Z) (s : state) : state :=
  ltac:(record_set (eta s) oam v).
Definition set_io (v : list Z) (s : state) : state :=
  ltac:(record_set (eta s) io v).
Definition set_hram (v : list Z) (s : state) : state :=
  ltac:(record_set (eta s) hram v).
Definition set_interrupts (v : Interrupts.t) (s : state) : state :=
  ltac:(record_set (eta s) interrupts v).
Definition set_graphics (v : Graphics.t) (s : state) : state :=
  ltac:(record_set (eta s) graphics v).
Definition set_ppuMode (v : PPUMode) (s : state) : state :=
  ltac:(record_set (eta s) ppuMode v).
Definition set_ppuCycles (v : Z) (s : state) : state :=
  ltac:(record_set (eta s) ppuCycles v).
Definition set_ppuEnabled (v : bool) (s : state) : state :=
  ltac:(record_set (eta s) ppuEnabled v).
Definition set_ppuWindowEnabled (v : bool) (s : state) : state :=
  ltac:(record_set (eta s) ppuWindowEnabled v).
Definition set_ppuSpritesEnabled (v : bool) (s : state) : state :=
  ltac:(record_set (eta s) ppuSpritesEnabled v).
Definition set_ppuBackgroundEnabled (v : bool) (s : state) : state :=
  ltac:(record_set (eta s) ppuBackgroundEnabled v).
Definition set_dma (v : Dma.t) (s : state) : state :=
  ltac:(record_set (eta s) dma v).
Definition set_timerEnabled (v : bool) (s : state) : state :=
  ltac:(record_set (eta s) timerEnabled v).
Definition set_timerClock (v : Z) (s : state) : state :=
  ltac:(record_set (eta s) timerClock v).
Definition set_sprites (v : list Sprite.t) (s : state) : state :=
  ltac:(record_set (eta s) sprites v).
Definition set_spriteCount (v : Z) (s : state) : state :=
  ltac:(record_set (eta s) spriteCount v).
Definition set_frameBuffer (v : list Z) (s : state) : state :=
  ltac:(record_set (eta s) frameBuffer v).
Definition set_cerr (v : string) (s : state) : state :=
  ltac:(record_set (eta s) cerr v).

(** *** The monad of member functions *)

Definition M (A : Type) : Type := state -> res (A * state).

Definition ret {A : Type} (x : A) : M A := fun s => Ok (x, s).
Definition bind {A B : Type} (m : M A) (k : A -> M B) : M B :=
  fun s => res_bind (m s) (fun xs => k (fst xs) (snd xs)).
Definition get {A : Type} (proj : state -> A) : M A :=
  fun s => Ok (proj s, s).
Definition modify (upd : state -> state) : M unit :=
  fun s => Ok (tt, upd s).
Definition lift {A : Type} (r : res A) : M A :=
  fun s => res_bind r (fun x => Ok (x, s)).
Definition when (cond : bool) (m : M unit) : M unit :=
  if cond then m else ret tt.

(** The value a call returns, and the object it leaves. *)
Definition eval {A : Type} (m : M A) (s : state) : res A :=
  res_bind (m s) (fun xs => Ok (fst xs)).
Definition exec {A : Type} (m : M A) (s : state) : res state :=
  res_bind (m s) (fun xs => Ok (snd xs)).

Declare Scope gb_scope.
Delimit Scope gb_scope with gb.
Notation "x <- m ;; k" := (bind m (fun x => k))
  (at level 20, m at level 99, k at level 200, only parsing) : gb_scope.
Notation "m ;; k" := (bind m (fun _ => k))
  (at level 100, k at level 200, only parsing, right associativity)
  : gb_scope.
Local Open Scope gb_scope.

(** Reading and writing one CPU register. *)
Definition reg (proj : Registers.t -> Z) : M Z :=
  get (fun s => proj (registers s)).
Definition set_reg (upd : Z -> Registers.t -> Registers.t) (v : Z)
  : M unit :=
  modify (fun s => set_registers (upd v (registers s)) s).

(** *** Flat memory image, ROM loading and reset *)

(** [registers = {}], the ten assignments, then [gpu = {}]. *)
Definition initializeRegisters : M unit :=
  modify (set_registers Registers.zero) ;;
  set_reg Registers.set_a 0x01 ;;
  set_reg Registers.set_f 0xB0 ;;
  set_reg Registers.set_b 0x00 ;;
  set_reg Registers.set_c 0x13 ;;
  set_reg Registers.set_d 0x00 ;;
  set_reg Registers.set_e 0xD8 ;;
  set_reg Registers.set_h 0x01 ;;
  set_reg Registers.set_l 0x4D ;;
  set_reg Registers.set_sp 0xFFFE ;;
  set_reg Registers.set_pc 0x0100 ;;
  modify (set_gpu Gpu.zero).

(** [std::fill(memory.begin(), memory.end(), 0); initializeRegisters();] *)
Definition reset : M unit :=
  modify (fun s => set_memory (replicate (length (memory s)) 0) s) ;;
  initializeRegisters.

Definition NINTENDO_LOGO : list Z :=
  [0xCE; 0xED; 0x66; 0x66; 0xCC; 0x0D; 0x00; 0x0B;
   0x03; 0x73; 0x00; 0x83; 0x00; 0x0C; 0x00; 0x0D].

Definition validateROM (data : list Z) : bool :=
  if Z.of_nat (length data) <? 0x150 then false
  else bool_decide (take (length NINTENDO_LOGO) (drop 0x104%nat data)
                    = NINTENDO_LOGO).

Definition detectConsoleType (data : list Z) : bool := validateROM data.

(** [std::copy(first, first + n, dest.begin())] *)
Definition copy_into (src : list Z) (n : nat) (dest : list Z) : list Z :=
  take n src ++ drop n dest.

Definition loadROM (data : list Z) : M bool :=
  if negb (validateROM data) then ret false
  else
    modify (set_cartridgeROM data) ;;
    let romSize := Nat.min (length data) (Z.to_nat 0x8000) in
    modify (fun s => set_memory (copy_into data romSize (memory s)) s) ;;
    ret true.

Definition out_of_range : string := "Memory address out of bounds".

(** [readMemory(uint32_t)] and [writeMemory(uint32_t, uint8_t)] *)
Definition readMemory_u32 (address : Z) : M Z :=
  mem <- get memory ;;
  if Z.of_nat (length mem) <=? address then fun _ => Throw out_of_range
  else lift (at_ mem address).

Definition writeMemory_u32 (address value : Z) : M unit :=
  mem <- get memory ;;
  if Z.of_nat (length mem) <=? address then fun _ => Throw out_of_range
  else if address <? 0x8000 then ret tt
  else
    mem' <- lift (store mem address value) ;;
    modify (set_memory mem').

(** *** Saved states

    A binary input stream: the bytes not yet consumed and the fail bit.
    [istream::read(buf, n)] on a good stream extracts up to [n] bytes into
    the front of [buf] and sets the fail bit when fewer than [n] were
    available; on a failed stream it extracts nothing. *)
Record ifstream : Type := mkIfstream { pending : list Z; failbit : bool }.

Definition stream_read (n : nat) (f : ifstream) : list Z * ifstream :=
  if failbit f then ([], f)
  else
    let got := take n (pending f) in
    (got, mkIfstream (drop n (pending f)) (length got <? n)%nat).

(** The buffer after the extracted bytes were stored at its front. *)
Definition patch (buf got : list Z) : list Z :=
  got ++ drop (length got) buf.

(** The same for a structure read through [reinterpret_cast<char*>]; the
    object is not written when no byte was extracted. *)
Definition patch_registers (r : Registers.t) (got : list Z) : Registers.t :=
  match got with
  | [] => r
  | _ => Registers.of_bytes (patch (Registers.to_bytes r) got)
  end.

Definition patch_gpu (g : Gpu.t) (got : list Z) : Gpu.t :=
  match got with
  | [] => g
  | _ => Gpu.of_bytes (patch (Gpu.to_bytes g) got)
  end.

(** [saveState]: [can_open] tells whether the output file could be
    created; the result carries the bytes written to it. *)
Definition saveState (can_open : bool) : M (bool * list Z) :=
  if negb can_open then ret (false, [])
  else
    mem <- get memory ;;
    r <- get registers ;;
    g <- get gpu ;;
    ret (true, mem ++ Registers.to_bytes r ++ Gpu.to_bytes g).

(** [loadState]: [file] is the content of the file at [filepath], or
    [None] when it cannot be opened. *)
Definition loadState (file : option (list Z)) : M bool :=
  match file with
  | None => ret false
  | Some content =>
      let f0 := mkIfstream content false in
      mem <- get memory ;;
      let '(got, f1) := stream_read (length mem) f0 in
      modify (set_memory (patch mem got)) ;;
      r <- get registers ;;
      let '(got, f2) := stream_read (Z.to_nat Registers.size) f1 in
      modify (set_registers (patch_registers r got)) ;;
      g <- get gpu ;;
      let '(got, _) := stream_read (Z.to_nat Gpu.size) f2 in
      modify (set_gpu (patch_gpu g got)) ;;
      ret true
  end.

(** *** CPU flags *)

(** Modelled from the spec: the flag accessors ([setZeroFlag],
    [getZeroFlag], ...) are declared but not defined in the sources.  The
    spec keeps a 4-bit flag set (zero, subtract, half-carry, carry) in the
    flags register F with its low nibble unused; the bits are the upper
    nibble of F, zero first, as the reset value [0xB0] of F has them. *)
Definition ZERO_FLAG : Z := 0x80.
Definition SUBTRACT_FLAG : Z := 0x40.
Definition HALF_CARRY_FLAG : Z := 0x20.
Definition CARRY_FLAG : Z := 0x10.

Definition flag_set (mask : Z) (value : bool) (f : Z) : Z :=
  if value then Z.lor f mask else Z.land f (Z.lnot mask).
Definition flag_get (mask : Z) (f : Z) : bool := truthy (Z.land f mask).

Definition setFlag (mask : Z) (value : bool) : M unit :=
  modify (fun s =>
    set_registers
      (Registers.set_f (flag_set mask value (Registers.f (registers s)))
         (registers s)) s).
Definition getFlag (mask : Z) : M bool :=
  get (fun s => flag_get mask (Registers.f (registers s))).

Definition setZeroFlag : bool -> M unit := setFlag ZERO_FLAG.
Definition setSubtractFlag : bool -> M unit := setFlag SUBTRACT_FLAG.
Definition setHalfCarryFlag : bool -> M unit := setFlag HALF_CARRY_FLAG.
Definition setCarryFlag : bool -> M unit := setFlag CARRY_FLAG.
Definition getZeroFlag : M bool := getFlag ZERO_FLAG.
Definition getSubtractFlag : M bool := getFlag SUBTRACT_FLAG.
Definition getHalfCarryFlag : M bool := getFlag HALF_CARRY_FLAG.
Definition getCarryFlag : M bool := getFlag CARRY_FLAG.

(** *** CPU operations *)

Definition inc (value : Z) : M Z :=
  let result := u8 (value + 1) in
  setZeroFlag (result =? 0) ;;
  setSubtractFlag false ;;
  setHalfCarryFlag (Z.land value 0x0F =? 0x0F) ;;
  ret result.

Definition dec (value : Z) : M Z :=
  let result := u8 (value - 1) in
  setZeroFlag (result =? 0) ;;
  setSubtractFlag true ;;
  setHalfCarryFlag (Z.land value 0x0F =? 0) ;;
  ret result.

Definition rlc (value : Z) : M Z :=
  let result := u8 (Z.lor (Z.shiftl value 1) (Z.shiftr value 7)) in
  setZeroFlag (result =? 0) ;;
  setSubtractFlag false ;;
  setHalfCarryFlag false ;;
  setCarryFlag (truthy (Z.land value 0x80)) ;;
  ret result.

Definition rrc (value : Z) : M Z :=
  let result := u8 (Z.lor (Z.shiftr value 1) (Z.shiftl value 7)) in
  setZeroFlag (result =? 0) ;;
  setSubtractFlag false ;;
  setHalfCarryFlag false ;;
  setCarryFlag (truthy (Z.land value 0x01)) ;;
  ret result.

Definition add16 (a b : Z) : M Z :=
  let result := u32 (a + b) in
  setSubtractFlag false ;;
  setHalfCarryFlag (0x0FFF <? Z.land a 0x0FFF + Z.land b 0x0FFF) ;;
  setCarryFlag (0xFFFF <? result) ;;
  ret (u16 result).

Definition rl (value : Z) : M Z :=
  cy <- getCarryFlag ;;
  let result := u8 (Z.lor (Z.shiftl value 1) (if cy then 1 else 0)) in
  setZeroFlag (result =? 0) ;;
  setSubtractFlag false ;;
  setHalfCarryFlag false ;;
  setCarryFlag (truthy (Z.land value 0x80)) ;;
  ret result.

Definition rr (value : Z) : M Z :=
  cy <- getCarryFlag ;;
  let result := u8 (Z.lor (Z.shiftr value 1) (if cy then 0x80 else 0)) in
  setZeroFlag (result =? 0) ;;
  setSubtractFlag false ;;
  setHalfCarryFlag false ;;
  setCarryFlag (truthy (Z.land value 0x01)) ;;
  ret result.

Definition daa : M unit :=
  a0 <- reg Registers.a ;;
  n <- getSubtractFlag ;;
  a3 <- (if negb n then
           cy <- getCarryFlag ;;
           a1 <- (if cy || (0x99 <? a0)
                  then setCarryFlag true ;; ret (u8 (a0 + 0x60))
                  else ret a0) ;;
           hc <- getHalfCarryFlag ;;
           ret (if hc || (0x09 <? Z.land a1 0x0F) then u8 (a1 + 0x06)
                else a1)
         else
           cy <- getCarryFlag ;;
           let a1 := if cy then u8 (a0 - 0x60) else a0 in
           hc <- getHalfCarryFlag ;;
           ret (if hc then u8 (a1 - 0x06) else a1)) ;;
  setZeroFlag (a3 =? 0) ;;
  setHalfCarryFlag false ;;
  set_reg Registers.set_a a3.

(** *** Memory bus: [readMemory(uint16_t)]

    The echo range calls [readMemory] again on [address - 0x2000];
    [depth] bounds the nesting of these calls.  One nested call is all a
    16-bit address can cause, see [readMemory_at_depth]. *)
Fixpoint readMemory_at (depth : nat) (s : state) (address : Z) : res Z :=
  if address <? 0x4000 then at_ (romBank0 s) address
  else if address <? 0x8000 then at_ (romBankN s) (address - 0x4000)
  else if address <? 0xA000 then at_ (vram s) (address - 0x8000)
  else if address <? 0xC000 then at_ (externalRam s) (address - 0xA000)
  else if address <? 0xD000 then at_ (wramBank0 s) (address - 0xC000)
  else if address <? 0xE000 then at_ (wramBankN s) (address - 0xD000)
  else if address <? 0xFE00 then
    match depth with
    | O => Undefined
    | S depth' => readMemory_at depth' s (u16 (address - 0x2000))
    end
  else if address <? 0xFEA0 then at_ (oam s) (address - 0xFE00)
  else if address <? 0xFF00 then Ok 0
  else if address <? 0xFF80 then at_ (io s) (address - 0xFF00)
  else if address <? 0xFFFF then at_ (hram s) (address - 0xFF80)
  else Ok (Interrupts.enable (interrupts s)).

Definition readMemory_u16 (address : Z) : M Z :=
  fun s => res_bind (readMemory_at 1 s address) (fun v => Ok (v, s)).

(** *** I/O register side effects *)

Definition io_at (i : Z) : M Z := io0 <- get io ;; lift (at_ io0 i).
Definition io_store (i v : Z) : M unit :=
  io0 <- get io ;; io1 <- lift (store io0 i v) ;; modify (set_io io1).
Definition upd_graphics (f : Graphics.t -> Graphics.t) : M unit :=
  modify (fun s => set_graphics (f (graphics s)) s).
Definition upd_interrupts (f : Interrupts.t -> Interrupts.t) : M unit :=
  modify (fun s => set_interrupts (f (interrupts s)) s).

Definition updateLCDControl : M unit :=
  v <- io_at 0x40 ;;
  modify (set_ppuEnabled (truthy (Z.land v 0x80))) ;;
  modify (set_ppuWindowEnabled (truthy (Z.land v 0x20))) ;;
  modify (set_ppuSpritesEnabled (truthy (Z.land v 0x02))) ;;
  modify (set_ppuBackgroundEnabled (truthy (Z.land v 0x01))).

Definition updateLCDStatus : M unit :=
  en <- get ppuEnabled ;;
  when en (
    g <- get graphics ;;
    if Graphics.ly g =? Graphics.lyc g then
      upd_graphics (fun g =>
        Graphics.set_stat (Z.lor (Graphics.stat g) 0x04) g) ;;
      g' <- get graphics ;;
      when (truthy (Z.land (Graphics.stat g') 0x40))
        (upd_interrupts (fun i =>
           Interrupts.set_flags (Z.lor (Interrupts.flags i) 0x02) i))
    else
      upd_graphics (fun g =>
        Graphics.set_stat (Z.land (Graphics.stat g) (Z.lnot 0x04)) g)).

Definition updateScroll : M unit :=
  x <- io_at 0x43 ;; upd_graphics (Graphics.set_scx x) ;;
  y <- io_at 0x42 ;; upd_graphics (Graphics.set_scy y).

Definition updateWindowPosition : M unit :=
  x <- io_at 0x4B ;; upd_graphics (Graphics.set_wx x) ;;
  y <- io_at 0x4A ;; upd_graphics (Graphics.set_wy y).

Definition updatePalettes : M unit :=
  p <- io_at 0x47 ;; upd_graphics (Graphics.set_bgp p) ;;
  p0 <- io_at 0x48 ;; upd_graphics (Graphics.set_obp0 p0) ;;
  p1 <- io_at 0x49 ;; upd_graphics (Graphics.set_obp1 p1).

(** [// TODO] bodies in the source. *)
Definition updateTileData : M unit := ret tt.
Definition updateOAM : M unit := ret tt.
Definition updateSerial : M unit := ret tt.

Definition processDMA : M unit :=
  v <- io_at 0x46 ;;
  let source := u16 (Z.shiftl v 8) in
  modify (set_dma (Dma.mk true source 0xFE00 0xA0 0xA0)).

Definition updateTimerControl : M unit :=
  v <- io_at 0x07 ;;
  modify (set_timerEnabled (truthy (Z.land v 0x04))) ;;
  v' <- io_at 0x07 ;;
  modify (set_timerClock (Z.land v' 0x03)).

Definition updateInterruptFlags : M unit :=
  v <- io_at 0x0F ;;
  upd_interrupts (Interrupts.set_flags (Z.land v 0x1F)).

Definition updateJoypad : M unit :=
  joypad <- io_at 0x00 ;;
  inp <- get input ;;
  let joypad' :=
    if negb (truthy (Z.land joypad 0x10)) then
      Z.lor (Z.land joypad 0xF0) (Z.land (Input.buttons inp) 0x0F)
    else if negb (truthy (Z.land joypad 0x20)) then
      Z.lor (Z.land joypad 0xF0) (Z.land (Input.directions inp) 0x0F)
    else joypad in
  io_store 0x00 joypad'.

Definition writeIO (address value : Z) : M unit :=
  match address with
  | 0x00 => io_store address value ;; updateJoypad
  | 0x01 => io_store address value ;; updateSerial
  | 0x02 => io_store address value ;; updateSerial
  | 0x04 => io_store address 0
  | 0x05 => io_store address value
  | 0x06 => io_store address value
  | 0x07 => io_store address value ;; updateTimerControl
  | 0x0F => io_store address value ;; updateInterruptFlags
  | 0x40 => io_store address value ;; updateLCDControl
  | 0x41 =>
      old <- io_at address ;;
      io_store address (Z.lor (Z.land old 0x07) (Z.land value 0xF8)) ;;
      updateLCDStatus
  | 0x42 => io_store address value ;; updateScroll
  | 0x43 => io_store address value ;; updateScroll
  | 0x44 => io_store address 0
  | 0x45 => io_store address value ;; updateLCDStatus
  | 0x46 => io_store address value ;; processDMA
  | 0x47 => io_store address value ;; updatePalettes
  | 0x48 => io_store address value ;; updatePalettes
  | 0x49 => io_store address value ;; updatePalettes
  | 0x4A => io_store address value ;; updateWindowPosition
  | 0x4B => io_store address value ;; updateWindowPosition
  | _ => io_store address value
  end.

(** *** Memory bus: [writeMemory(uint16_t, uint8_t)] *)
Definition store_in (proj : state -> list Z)
    (upd : list Z -> state -> state) (i v : Z) : M unit :=
  c <- get proj ;; c' <- lift (store c i v) ;; modify (upd c').

Fixpoint writeMemory_at (depth : nat) (address value : Z) : M unit :=
  if address <? 0x8000 then ret tt
  else if address <? 0xA000 then
    store_in vram set_vram (address - 0x8000) value ;; updateTileData
  else if address <? 0xC000 then
    en <- get ramEnabled ;;
    when en (store_in externalRam set_externalRam (address - 0xA000) value)
  else if address <? 0xD000 then
    store_in wramBank0 set_wramBank0 (address - 0xC000) value
  else if address <? 0xE000 then
    store_in wramBankN set_wramBankN (address - 0xD000) value
  else if address <? 0xFE00 then
    match depth with
    | O => fun _ => Undefined
    | S depth' => writeMemory_at depth' (u16 (address - 0x2000)) value
    end
  else if address <? 0xFEA0 then
    store_in oam set_oam (address - 0xFE00) value ;; updateOAM
  else if address <? 0xFF00 then ret tt
  else if address <? 0xFF80 then writeIO (u8 (address - 0xFF00)) value
  else if address <? 0xFFFF then
    store_in hram set_hram (address - 0xFF80) value
  else upd_interrupts (Interrupts.set_enable value).

Definition writeMemory_u16 (address value : Z) : M unit :=
  writeMemory_at 1 address value.

(** Modelled from the spec: [readWord] and [writeWord] are declared but
    not defined in the sources; a 16-bit bus access is two byte accesses,
    low byte at the lower address. *)
Definition readWord (address : Z) : M Z :=
  lo <- readMemory_u16 address ;;
  hi <- readMemory_u16 (u16 (address + 1)) ;;
  ret (Z.lor lo (Z.shiftl hi 8)).

Definition writeWord (address value : Z) : M unit :=
  writeMemory_u16 address (Z.land value 0xFF) ;;
  writeMemory_u16 (u16 (address + 1)) (Z.shiftr value 8).

(** *** Pixel pipeline *)

(** [for (int x = first; x < first + count; x++) body(x)] *)
Fixpoint for_each (xs : list Z) (body : Z -> M unit) : M unit :=
  match xs with
  | [] => ret tt
  | x :: xs' => body x ;; for_each xs' body
  end.

Definition setPixel (x y color : Z) : M unit :=
  when ((0 <=? x) && (x <? 160) && (0 <=? y) && (y <? 144))
    (store_in frameBuffer set_frameBuffer (y * 160 + x) color).

Definition getPixel (x y : Z) : M Z :=
  if (0 <=? x) && (x <? 160) && (0 <=? y) && (y <? 144)
  then fb <- get frameBuffer ;; lift (at_ fb (y * 160 + x))
  else ret 0.

Definition getPaletteColor (palette color : Z) : Z :=
  Z.land (Z.shiftr palette (color * 2)) 0x03.

Definition getTilePixel (tileAddr x y : Z) : M Z :=
  byte1 <- readMemory_u16 (u16 (tileAddr + y * 2)) ;;
  byte2 <- readMemory_u16 (u16 (tileAddr + y * 2 + 1)) ;;
  let bit1 := Z.land (Z.shiftr byte1 (7 - x)) 1 in
  let bit2 := Z.land (Z.shiftr byte2 (7 - x)) 1 in
  ret (u8 (Z.lor (Z.shiftl bit2 1) bit1)).

Definition sprite_upd (i : Z) (f : Sprite.t -> Sprite.t) : M unit :=
  sps <- get sprites ;;
  sp <- lift (at_ sps i) ;;
  sps' <- lift (store sps i (f sp)) ;;
  modify (set_sprites sps').

(** The loop runs while [i < 40 && spriteCount < 10]; once ten sprites
    are found no later iteration has an effect. *)
Definition findSpritesForScanline : M unit :=
  modify (set_spriteCount 0) ;;
  for_each (seqZ 0 40) (fun i =>
    cnt <- get spriteCount ;;
    when (cnt <? 10) (
      let spriteAddr := u16 (0xFE00 + i * 4) in
      y0 <- readMemory_u16 spriteAddr ;;
      let y := y0 - 16 in
      g <- get graphics ;;
      when ((y <=? Graphics.ly g) && (Graphics.ly g <? y + 8)) (
        sprite_upd cnt (fun sp =>
          Sprite.mk y (Sprite.x sp) (Sprite.tile sp) (Sprite.attributes sp)) ;;
        x0 <- readMemory_u16 (u16 (spriteAddr + 1)) ;;
        sprite_upd cnt (fun sp =>
          Sprite.mk (Sprite.y sp) (x0 - 8) (Sprite.tile sp)
            (Sprite.attributes sp)) ;;
        t0 <- readMemory_u16 (u16 (spriteAddr + 2)) ;;
        sprite_upd cnt (fun sp =>
          Sprite.mk (Sprite.y sp) (Sprite.x sp) t0 (Sprite.attributes sp)) ;;
        a0 <- readMemory_u16 (u16 (spriteAddr + 3)) ;;
        sprite_upd cnt (fun sp =>
          Sprite.mk (Sprite.y sp) (Sprite.x sp) (Sprite.tile sp) a0) ;;
        modify (set_spriteCount (cnt + 1))))).

Definition renderBackground : M unit :=
  g <- get graphics ;;
  let scrollY := Graphics.scy g in
  let scrollX := Graphics.scx g in
  lcdc <- io_at 0x40 ;;
  let tileMapAddr := if truthy (Z.land lcdc 0x08) then 0x9C00 else 0x9800 in
  let tileDataAddr := if truthy (Z.land lcdc 0x10) then 0x8000 else 0x8800 in
  for_each (seqZ 0 160) (fun x =>
    ly <- get (fun s => Graphics.ly (graphics s)) ;;
    let tileX := Z.quot (scrollX + x) 8 in
    let tileY := Z.quot (scrollY + ly) 8 in
    let tileAddr := u16 (tileMapAddr + tileY * 32 + tileX) in
    tileNum <- readMemory_u16 tileAddr ;;
    let tileOffset := u16 (tileDataAddr + tileNum * 16) in
    let pixelX := Z.rem (scrollX + x) 8 in
    let pixelY := Z.rem (scrollY + ly) 8 in
    pixel <- getTilePixel tileOffset pixelX pixelY ;;
    setPixel x ly pixel).

Definition renderWindow : M unit :=
  g <- get graphics ;;
  if (166 <? Graphics.wx g) || (143 <? Graphics.wy g) then ret tt
  else
    lcdc <- io_at 0x40 ;;
    let tileMapAddr := if truthy (Z.land lcdc 0x40) then 0x9C00 else 0x9800 in
    let tileDataAddr := if truthy (Z.land lcdc 0x10) then 0x8000 else 0x8800 in
    for_each (seqZ 0 160) (fun x =>
      g <- get graphics ;;
      if x + 7 <? Graphics.wx g then ret tt
      else
        let ly := Graphics.ly g in
        let tileX := Z.quot (x - (Graphics.wx g - 7)) 8 in
        let tileY := Z.quot ly 8 in
        let tileAddr := u16 (tileMapAddr + tileY * 32 + tileX) in
        tileNum <- readMemory_u16 tileAddr ;;
        let tileOffset := u16 (tileDataAddr + tileNum * 16) in
        let pixelX := Z.rem (x - (Graphics.wx g - 7)) 8 in
        let pixelY := Z.rem ly 8 in
        pixel <- getTilePixel tileOffset pixelX pixelY ;;
        setPixel x ly pixel).

Definition renderSprites : M unit :=
  count <- get spriteCount ;;
  for_each (seqZ 0 count) (fun i =>
    sps <- get sprites ;;
    sprite <- lift (at_ sps i) ;;
    let tileOffset := u16 (0x8000 + Sprite.tile sprite * 16) in
    let flipX := truthy (Z.land (Sprite.attributes sprite) 0x20) in
    let flipY := truthy (Z.land (Sprite.attributes sprite) 0x40) in
    let priority := truthy (Z.land (Sprite.attributes sprite) 0x80) in
    g <- get graphics ;;
    let palette :=
      if truthy (Z.land (Sprite.attributes sprite) 0x10)
      then Graphics.obp1 g else Graphics.obp0 g in
    for_each (seqZ 0 8) (fun y =>
      for_each (seqZ 0 8) (fun x =>
        let pixelX := Sprite.x sprite + (if flipX then 7 - x else x) in
        let pixelY :=
          Graphics.ly g - Sprite.y sprite + (if flipY then 7 - y else y) in
        when ((0 <=? pixelX) && (pixelX <? 160)
              && (0 <=? pixelY) && (pixelY <? 144)) (
          pixel <- getTilePixel tileOffset (if flipX then 7 - x else x)
                     (if flipY then 7 - y else y) ;;
          when (negb (pixel =? 0)) (
            under <- (if priority then getPixel pixelX pixelY else ret 0) ;;
            when (negb priority || (under =? 0))
              (setPixel pixelX pixelY (getPaletteColor palette pixel))))))).

Definition renderScanline : M unit :=
  en <- get ppuEnabled ;;
  if negb en then ret tt
  else
    mode <- get ppuMode ;;
    match mode with
    | OAM_SCAN => findSpritesForScanline
    | PIXEL_TRANSFER =>
        bg <- get ppuBackgroundEnabled ;;
        when bg renderBackground ;;
        win <- get ppuWindowEnabled ;;
        when win renderWindow ;;
        spr <- get ppuSpritesEnabled ;;
        when spr renderSprites
    | _ => ret tt
    end.

(** [updatePPU]: one cycle of the mode machine.  [ppuCycles] is not
    declared in the sources; it is an [int] that this function keeps
    below 458, so its increment never wraps. *)
Definition updatePPU : M unit :=
  en <- get ppuEnabled ;;
  if negb en then modify (set_ppuMode HBLANK)
  else
    mode <- get ppuMode ;;
    cycles <- get ppuCycles ;;
    match mode with
    | OAM_SCAN =>
        when (80 <=? cycles) (
          modify (set_ppuMode PIXEL_TRANSFER) ;;
          modify (set_ppuCycles 0))
    | PIXEL_TRANSFER =>
        when (172 <=? cycles) (
          modify (set_ppuMode HBLANK) ;;
          modify (set_ppuCycles 0) ;;
          renderScanline)
    | HBLANK =>
        when (204 <=? cycles) (
          modify (set_ppuCycles 0) ;;
          upd_graphics (fun g => Graphics.set_ly (u8 (Graphics.ly g + 1)) g) ;;
          g <- get graphics ;;
          if Graphics.ly g =? 144 then
            modify (set_ppuMode VBLANK) ;;
            upd_interrupts (fun i =>
              Interrupts.set_flags (Z.lor (Interrupts.flags i) 0x01) i)
          else modify (set_ppuMode OAM_SCAN))
    | VBLANK =>
        when (456 <=? cycles) (
          modify (set_ppuCycles 0) ;;
          upd_graphics (fun g => Graphics.set_ly (u8 (Graphics.ly g + 1)) g) ;;
          g <- get graphics ;;
          when (153 <? Graphics.ly g) (
            upd_graphics (Graphics.set_ly 0) ;;
            modify (set_ppuMode OAM_SCAN)))
    end ;;
    updateLCDStatus ;;
    c <- get ppuCycles ;;
    modify (set_ppuCycles (c + 1)).

(** *** Instruction interpreter *)

(** [readMemory(registers.pc++)] *)
Definition fetch : M Z :=
  p <- reg Registers.pc ;;
  set_reg Registers.set_pc (u16 (p + 1)) ;;
  readMemory_u16 p.

(** [registers.pc += n] *)
Definition pc_add (n : Z) : M unit :=
  p <- reg Registers.pc ;; set_reg Registers.set_pc (u16 (p + n)).

(** [registers.pc += static_cast<int8_t>(readMemory(registers.pc)) + 1] *)
Definition jr : M unit :=
  p <- reg Registers.pc ;;
  off <- readMemory_u16 p ;;
  pc_add (i8 off + 1).

Definition cerr_write (text : string) : M unit :=
  modify (fun s => set_cerr (cerr s ++ text)%string s).

Definition unknown_opcode_message (opcode : Z) : string :=
  ("Unknown opcode: 0x" ++ hex opcode ++ endl)%string.

Definition executeInstruction : M unit :=
  opcode <- fetch ;;
  match opcode with
  | 0x00 => (* NOP *)
      ret tt
  | 0x01 => (* LD BC, nn *)
      p <- reg Registers.pc ;; w <- readWord p ;; set_reg Registers.set_bc w ;;
      pc_add 2
  | 0x02 => (* LD (BC), A *)
      p <- reg Registers.bc ;; v <- reg Registers.a ;; writeMemory_u16 p v
  | 0x03 => (* INC BC *)
      v <- reg Registers.bc ;; set_reg Registers.set_bc (u16 (v + 1))
  | 0x04 => (* INC B *)
      v <- reg Registers.b ;; r <- inc v ;; set_reg Registers.set_b r
  | 0x05 => (* DEC B *)
      v <- reg Registers.b ;; r <- dec v ;; set_reg Registers.set_b r
  | 0x06 => (* LD B, n *)
      v <- fetch ;; set_reg Registers.set_b v
  | 0x07 => (* RLCA *)
      v <- reg Registers.a ;; r <- rlc v ;; set_reg Registers.set_a r
  | 0x08 => (* LD (nn), SP *)
      p <- reg Registers.pc ;; w <- readWord p ;; v <- reg Registers.sp ;;
      writeWord w v ;; pc_add 2
  | 0x09 => (* ADD HL, BC *)
      x <- reg Registers.hl ;; y <- reg Registers.bc ;; r <- add16 x y ;;
      set_reg Registers.set_hl r
  | 0x0A => (* LD A, (BC) *)
      p <- reg Registers.bc ;; v <- readMemory_u16 p ;;
      set_reg Registers.set_a v
  | 0x0B => (* DEC BC *)
      v <- reg Registers.bc ;; set_reg Registers.set_bc (u16 (v - 1))
  | 0x0C => (* INC C *)
      v <- reg Registers.c ;; r <- inc v ;; set_reg Registers.set_c r
  | 0x0D => (* DEC C *)
      v <- reg Registers.c ;; r <- dec v ;; set_reg Registers.set_c r
  | 0x0E => (* LD C, n *)
      v <- fetch ;; set_reg Registers.set_c v
  | 0x0F => (* RRCA *)
      v <- reg Registers.a ;; r <- rrc v ;; set_reg Registers.set_a r
  | 0x10 => (* STOP *)
      ret tt
  | 0x11 => (* LD DE, nn *)
      p <- reg Registers.pc ;; w <- readWord p ;; set_reg Registers.set_de w ;;
      pc_add 2
  | 0x12 => (* LD (DE), A *)
      p <- reg Registers.de ;; v <- reg Registers.a ;; writeMemory_u16 p v
  | 0x13 => (* INC DE *)
      v <- reg Registers.de ;; set_reg Registers.set_de (u16 (v + 1))
  | 0x14 => (* INC D *)
      v <- reg Registers.d ;; r <- inc v ;; set_reg Registers.set_d r
  | 0x15 => (* DEC D *)
      v <- reg Registers.d ;; r <- dec v ;; set_reg Registers.set_d r
  | 0x16 => (* LD D, n *)
      v <- fetch ;; set_reg Registers.set_d v
  | 0x17 => (* RLA *)
      v <- reg Registers.a ;; r <- rl v ;; set_reg Registers.set_a r
  | 0x18 => (* JR n *)
      jr
  | 0x19 => (* ADD HL, DE *)
      x <- reg Registers.hl ;; y <- reg Registers.de ;; r <- add16 x y ;;
      set_reg Registers.set_hl r
  | 0x1A => (* LD A, (DE) *)
      p <- reg Registers.de ;; v <- readMemory_u16 p ;;
      set_reg Registers.set_a v
  | 0x1B => (* DEC DE *)
      v <- reg Registers.de ;; set_reg Registers.set_de (u16 (v - 1))
  | 0x1C => (* INC E *)
      v <- reg Registers.e ;; r <- inc v ;; set_reg Registers.set_e r
  | 0x1D => (* DEC E *)
      v <- reg Registers.e ;; r <- dec v ;; set_reg Registers.set_e r
  | 0x1E => (* LD E, n *)
      v <- fetch ;; set_reg Registers.set_e v
  | 0x1F => (* RRA *)
      v <- reg Registers.a ;; r <- rr v ;; set_reg Registers.set_a r
  | 0x20 => (* JR NZ, n *)
      fl <- getZeroFlag ;; if negb fl then jr else pc_add 1
  | 0x21 => (* LD HL, nn *)
      p <- reg Registers.pc ;; w <- readWord p ;; set_reg Registers.set_hl w ;;
      pc_add 2
  | 0x22 => (* LD (HL+), A *)
      p <- reg Registers.hl ;; set_reg Registers.set_hl (u16 (p + 1)) ;;
      v <- reg Registers.a ;; writeMemory_u16 p v
  | 0x23 => (* INC HL *)
      v <- reg Registers.hl ;; set_reg Registers.set_hl (u16 (v + 1))
  | 0x24 => (* INC H *)
      v <- reg Registers.h ;; r <- inc v ;; set_reg Registers.set_h r
  | 0x25 => (* DEC H *)
      v <- reg Registers.h ;; r <- dec v ;; set_reg Registers.set_h r
  | 0x26 => (* LD H, n *)
      v <- fetch ;; set_reg Registers.set_h v
  | 0x27 => (* DAA *)
      daa
  | 0x28 => (* JR Z, n *)
      fl <- getZeroFlag ;; if fl then jr else pc_add 1
  | 0x29 => (* ADD HL, HL *)
      x <- reg Registers.hl ;; y <- reg Registers.hl ;; r <- add16 x y ;;
      set_reg Registers.set_hl r
  | 0x2A => (* LD A, (HL+) *)
      p <- reg Registers.hl ;; set_reg Registers.set_hl (u16 (p + 1)) ;;
      v <- readMemory_u16 p ;; set_reg Registers.set_a v
  | 0x2B => (* DEC HL *)
      v <- reg Registers.hl ;; set_reg Registers.set_hl (u16 (v - 1))
  | 0x2C => (* INC L *)
      v <- reg Registers.l ;; r <- inc v ;; set_reg Registers.set_l r
  | 0x2D => (* DEC L *)
      v <- reg Registers.l ;; r <- dec v ;; set_reg Registers.set_l r
  | 0x2E => (* LD L, n *)
      v <- fetch ;; set_reg Registers.set_l v
  | 0x2F => (* CPL *)
      v <- reg Registers.a ;; set_reg Registers.set_a (u8 (Z.lnot v)) ;;
      setSubtractFlag true ;; setHalfCarryFlag true
  | 0x30 => (* JR NC, n *)
      fl <- getCarryFlag ;; if negb fl then jr else pc_add 1
  | 0x31 => (* LD SP, nn *)
      p <- reg Registers.pc ;; w <- readWord p ;; set_reg Registers.set_sp w ;;
      pc_add 2
  | 0x32 => (* LD (HL-), A *)
      p <- reg Registers.hl ;; set_reg Registers.set_hl (u16 (p - 1)) ;;
      v <- reg Registers.a ;; writeMemory_u16 p v
  | 0x33 => (* INC SP *)
      v <- reg Registers.sp ;; set_reg Registers.set_sp (u16 (v + 1))
  | 0x34 => (* INC (HL) *)
      p <- reg Registers.hl ;; v <- readMemory_u16 p ;; r <- inc v ;;
      writeMemory_u16 p r
  | 0x35 => (* DEC (HL) *)
      p <- reg Registers.hl ;; v <- readMemory_u16 p ;; r <- dec v ;;
      writeMemory_u16 p r
  | 0x36 => (* LD (HL), n *)
      p <- reg Registers.hl ;; v <- fetch ;; writeMemory_u16 p v
  | 0x37 => (* SCF *)
      setCarryFlag true ;; setSubtractFlag false ;; setHalfCarryFlag false
  | 0x38 => (* JR C, n *)
      fl <- getCarryFlag ;; if fl then jr else pc_add 1
  | 0x39 => (* ADD HL, SP *)
      x <- reg Registers.hl ;; y <- reg Registers.sp ;; r <- add16 x y ;;
      set_reg Registers.set_hl r
  | 0x3A => (* LD A, (HL-) *)
      p <- reg Registers.hl ;; set_reg Registers.set_hl (u16 (p - 1)) ;;
      v <- readMemory_u16 p ;; set_reg Registers.set_a v
  | 0x3B => (* DEC SP *)
      v <- reg Registers.sp ;; set_reg Registers.set_sp (u16 (v - 1))
  | 0x3C => (* INC A *)
      v <- reg Registers.a ;; r <- inc v ;; set_reg Registers.set_a r
  | 0x3D => (* DEC A *)
      v <- reg Registers.a ;; r <- dec v ;; set_reg Registers.set_a r
  | 0x3E => (* LD A, n *)
      v <- fetch ;; set_reg Registers.set_a v
  | 0x3F => (* CCF *)
      cy <- getCarryFlag ;; setCarryFlag (negb cy) ;; setSubtractFlag false ;;
      setHalfCarryFlag false
  | 0x40 => (* LD B, B *)
      v <- reg Registers.b ;; set_reg Registers.set_b v
  | 0x41 => (* LD B, C *)
      v <- reg Registers.c ;; set_reg Registers.set_b v
  | 0x42 => (* LD B, D *)
      v <- reg Registers.d ;; set_reg Registers.set_b v
  | 0x43 => (* LD B, E *)
      v <- reg Registers.e ;; set_reg Registers.set_b v
  | 0x44 => (* LD B, H *)
      v <- reg Registers.h ;; set_reg Registers.set_b v
  | 0x45 => (* LD B, L *)
      v <- reg Registers.l ;; set_reg Registers.set_b v
  | 0x46 => (* LD B, (HL) *)
      p <- reg Registers.hl ;; v <- readMemory_u16 p ;;
      set_reg Registers.set_b v
  | 0x47 => (* LD B, A *)
      v <- reg Registers.a ;; set_reg Registers.set_b v
  | 0x48 => (* LD C, B *)
      v <- reg Registers.b ;; set_reg Registers.set_c v
  | 0x49 => (* LD C, C *)
      v <- reg Registers.c ;; set_reg Registers.set_c v
  | 0x4A => (* LD C, D *)
      v <- reg Registers.d ;; set_reg Registers.set_c v
  | 0x4B => (* LD C, E *)
      v <- reg Registers.e ;; set_reg Registers.set_c v
  | 0x4C => (* LD C, H *)
      v <- reg Registers.h ;; set_reg Registers.set_c v
  | 0x4D => (* LD C, L *)
      v <- reg Registers.l ;; set_reg Registers.set_c v
  | 0x4E => (* LD C, (HL) *)
      p <- reg Registers.hl ;; v <- readMemory_u16 p ;;
      set_reg Registers.set_c v
  | 0x4F => (* LD C, A *)
      v <- reg Registers.a ;; set_reg Registers.set_c v
  | _ => cerr_write (unknown_opcode_message opcode)
  end.


Definition step : M unit := executeInstruction.

(** [n] consecutive calls of a member function. *)
Fixpoint times (n : nat) (m : M unit) : M unit :=
  match n with
  | O => ret tt
  | S n' => m ;; times n' m
  end.

Definition initialize : M bool := reset ;; ret true.

End GameBoyEmulator.

(** ** The PlayStation sound processing unit *)

Module SPU.

Import Int.

Module Voice.
Record t : Type := mk
  { volume : Z;        (* uint16_t *)
    pitch : Z;         (* uint16_t *)
    startAddr : Z;     (* uint32_t *)
    currentAddr : Z;   (* uint32_t *)
    adsr1 : Z;         (* uint16_t *)
    adsr2 : Z;         (* uint16_t *)
    adsrVolume : Z;    (* uint16_t *)
    keyOn : bool;
    keyOff : bool }.
Local Abbreviation eta v :=
  (mk (volume v) (pitch v) (startAddr v) (currentAddr v) (adsr1 v)
      (adsr2 v) (adsrVolume v) (keyOn v) (keyOff v)).
Definition set_currentAddr (x : Z) (v : t) : t :=
  ltac:(record_set (eta v) currentAddr x).
Definition set_adsrVolume (x : Z) (v : t) : t :=
  ltac:(record_set (eta v) adsrVolume x).
Definition zero : t := mk 0 0 0 0 0 0 0 false false.
End Voice.

Record state : Type := mkState
  { voices : list Voice.t;
    spuRam : list Z;          (* std::vector<uint8_t> *)
    audioBuffer : list Z;     (* std::vector<int16_t> *)
    mainVolume : Z;           (* uint16_t *)
    reverbVolume : Z;         (* uint16_t *)
    transferAddress : Z;      (* uint32_t *)
    reverbEnabled : bool;
    irqEnabled : bool;
    transferMode : bool;
    isPS2Mode : bool }.

Local Abbreviation eta s :=
  (mkState (voices s) (spuRam s) (audioBuffer s) (mainVolume s)
     (reverbVolume s) (transferAddress s) (reverbEnabled s) (irqEnabled s)
     (transferMode s) (isPS2Mode s)).
Definition set_voices (v : list Voice.t) (s : state) : state :=
  ltac:(record_set (eta s) voices v).
Definition set_spuRam (v : list Z) (s : state) : state :=
  ltac:(record_set (eta s) spuRam v).
Definition set_audioBuffer (v : list Z) (s : state) : state :=
  ltac:(record_set (eta s) audioBuffer v).

Definition PS1_VOICE_COUNT : Z := 24.
Definition PS2_VOICE_COUNT : Z := 48.
Definition SPU_RAM_SIZE : Z := 512 * 1024.

Definition initialize (s : state) : state :=
  mkState
    (map (fun _ => Voice.zero) (voices s))
    (replicate (length (spuRam s)) 0)
    (audioBuffer s)
    0x3FFF 0 0 false false false (isPS2Mode s).

(** [SPU::SPU(bool isPS2)] *)
Definition create (isPS2 : bool) : state :=
  initialize
    (mkState
       (replicate
          (Z.to_nat (if isPS2 then PS2_VOICE_COUNT else PS1_VOICE_COUNT))
          Voice.zero)
       (replicate
          (Z.to_nat (if isPS2 then SPU_RAM_SIZE * 2 else SPU_RAM_SIZE)) 0)
       [] 0 0 0 false false false isPS2).

Definition reset (s : state) : state :=
  set_audioBuffer [] (initialize s).

(** [updateADSR].  The calls [std::min(int, unsigned)] and
    [std::max(int, unsigned)] are taken at the operands' common type
    [unsigned int], the type of the bounds [0x7FFFu] and [0u]; the result
    is stored in the 16-bit [adsrVolume]. *)
Definition updateADSR (voice : Voice.t) : Voice.t :=
  if Voice.keyOn voice then
    Voice.set_adsrVolume
      (u16 (Z.min (u32 (Voice.adsrVolume voice
                        + Z.shiftr (Voice.adsr1 voice) 8)) 0x7FFF))
      voice
  else if Voice.keyOff voice then
    Voice.set_adsrVolume
      (u16 (Z.max (u32 (Voice.adsrVolume voice
                        - Z.land (Voice.adsr2 voice) 0xFF)) 0))
      voice
  else voice.

(** [spuRam.size() - 1] in [size_t] arithmetic. *)
Definition ram_mask (s : state) : Z :=
  (Z.of_nat (length (spuRam s)) - 1) mod 2 ^ 64.

Definition processVoice (voiceIndex : Z) (s : state) : res state :=
  if Z.of_nat (length (voices s)) <=? voiceIndex then Ok s
  else
    res_bind (at_ (voices s) voiceIndex) (fun voice0 =>
    let voice1 := updateADSR voice0 in
    let addr := Z.land (Voice.currentAddr voice1) (ram_mask s) in
    res_bind (at_ (spuRam s) (addr + 1)) (fun hi =>
    res_bind (at_ (spuRam s) addr) (fun lo =>
    let sample0 := i16 (Z.lor (Z.shiftl hi 8) lo) in
    let sample1 := i16 (Z.shiftr (sample0 * Voice.adsrVolume voice1) 15) in
    let sample2 := i16 (Z.shiftr (sample1 * Voice.volume voice1) 15) in
    let voice2 :=
      Voice.set_currentAddr
        (u32 (Voice.currentAddr voice1
              + Z.shiftr (Voice.pitch voice1) 8 * 2)) voice1 in
    res_bind (store (voices s) voiceIndex voice2) (fun voices' =>
    Ok (set_audioBuffer (audioBuffer s ++ [sample2])
          (set_voices voices' s)))))).

Definition mixOutput (s : state) : state :=
  match audioBuffer s with
  | [] => s
  | _ =>
      set_audioBuffer
        (map (fun sample => i16 (Z.shiftr (sample * mainVolume s) 15))
           (audioBuffer s)) s
  end.

Definition processReverb (s : state) : state :=
  if negb (reverbEnabled s) then s
  else match audioBuffer s with
       | [] => s
       | _ =>
           let reverbBuffer := audioBuffer s in
           set_audioBuffer
             (imap (fun i sample =>
                if (2048 <=? i)%nat then
                  i16 (sample
                       + i16 (Z.shiftr
                                (nth (i - 2048) reverbBuffer 0
                                 * reverbVolume s) 15))
                else sample) (audioBuffer s)) s
       end.

Definition checkIRQ (s : state) : state := s.

(** The voice loop of [step]: [for (i = 0; i < voices.size(); ++i)
    if (voices[i].keyOn) processVoice(i)].  The counter is a [uint8_t];
    the voice bank has 24 or 48 entries. *)
Fixpoint voice_loop (indices : list Z) (s : state) : res state :=
  match indices with
  | [] => Ok s
  | i :: rest =>
      res_bind (at_ (voices s) i) (fun voice =>
      if Voice.keyOn voice
      then res_bind (processVoice i s) (voice_loop rest)
      else voice_loop rest s)
  end.

Definition step (s : state) : res state :=
  res_bind (voice_loop (seqZ 0 (Z.of_nat (length (voices s)))) s)
    (fun s1 =>
     let s2 := mixOutput s1 in
     let s3 := if reverbEnabled s2 then processReverb s2 else s2 in
     Ok (checkIRQ s3)).

(** [n] consecutive ticks. *)
Fixpoint steps (n : nat) (s : state) : res state :=
  match n with
  | O => Ok s
  | S n' => res_bind (step s) (steps n')
  end.

Definition read (address : Z) (s : state) : res Z :=
  let address := Z.land address (ram_mask s) in
  if Z.of_nat (length (spuRam s)) <=? address + 1 then Ok 0
  else
    res_bind (at_ (spuRam s) (address + 1)) (fun hi =>
    res_bind (at_ (spuRam s) address) (fun lo =>
    Ok (u16 (Z.lor (Z.shiftl hi 8) lo)))).

Definition write (address value : Z) (s : state) : res state :=
  let address := Z.land address (ram_mask s) in
  if Z.of_nat (length (spuRam s)) <=? address + 1 then Ok s
  else
    res_bind (store (spuRam s) address (Z.land value 0xFF)) (fun ram1 =>
    res_bind (store ram1 (address + 1) (Z.land (Z.shiftr value 8) 0xFF))
      (fun ram2 => Ok (set_spuRam ram2 s))).

(** The amplitude of voice [i]. *)
Definition amplitude (i : nat) (s : state) : option Z :=
  Voice.adsrVolume <$> voices s !! i.

End SPU.

(** ** Observations and sample machines used by the statements below *)

Module Samples.

Import Int GameBoyEmulator.

(** The part of the object the PPU mode machine depends on, and one cycle
    of the machine on it. *)
Record ppu_view : Type := mkView
  { v_enabled : bool; v_mode : PPUMode; v_cycles : Z; v_ly : Z }.

Definition view (s : state) : ppu_view :=
  mkView (ppuEnabled s) (ppuMode s) (ppuCycles s) (Graphics.ly (graphics s)).

Definition view_step (v : ppu_view) : ppu_view :=
  if negb (v_enabled v) then mkView false HBLANK (v_cycles v) (v_ly v)
  else
    match v_mode v with
    | OAM_SCAN =>
        if 80 <=? v_cycles v then mkView true PIXEL_TRANSFER 1 (v_ly v)
        else mkView true OAM_SCAN (v_cycles v + 1) (v_ly v)
    | PIXEL_TRANSFER =>
        if 172 <=? v_cycles v then mkView true HBLANK 1 (v_ly v)
        else mkView true PIXEL_TRANSFER (v_cycles v + 1) (v_ly v)
    | HBLANK =>
        if 204 <=? v_cycles v then
          let ly := u8 (v_ly v + 1) in
          mkView true (if ly =? 144 then VBLANK else OAM_SCAN) 1 ly
        else mkView true HBLANK (v_cycles v + 1) (v_ly v)
    | VBLANK =>
        if 456 <=? v_cycles v then
          let ly := u8 (v_ly v + 1) in
          if 153 <? ly then mkView true OAM_SCAN 1 0
          else mkView true VBLANK 1 ly
        else mkView true VBLANK (v_cycles v + 1) (v_ly v)
    end.



(** A machine at power-on: every array at its declared size, an erased
    ROM ([0xFF] everywhere) in both ROM banks, CPU registers as
    [initializeRegisters] leaves them, PPU enabled at the start of
    scanline 0. *)
Definition power_on : state :=
  mkState
    (replicate (Z.to_nat 0x10000) 0)
    []
    (Registers.mk 0x01 0xB0 0x00 0x13 0x00 0xD8 0x01 0x4D 0xFFFE 0x0100)
    Gpu.zero
    (replicate (Z.to_nat 0x4000) 0xFF)
    (replicate (Z.to_nat 0x4000) 0xFF)
    (replicate (Z.to_nat 0x2000) 0)
    (replicate (Z.to_nat 0x2000) 0)
    (replicate (Z.to_nat 0x2000) 0)
    (replicate (Z.to_nat 0x1000) 0)
    (replicate (Z.to_nat 0xA0) 0)
    (replicate (Z.to_nat 0x80) 0)
    (replicate (Z.to_nat 0x7F) 0)
    false
    (Interrupts.mk 0 0)
    (Graphics.mk 0 0 0 0 0 0 0 0 0 0)
    OAM_SCAN 0 true false false false
    (Dma.mk false 0 0 0 0)
    false 0
    (Input.mk 0 0)
    (replicate 10 Sprite.zero)
    0
    (replicate (Z.to_nat (160 * 144)) 0)
    EmptyString.

(** The same machine with the program counter elsewhere in the ROM. *)
Definition power_on_at (pc : Z) : state :=
  set_registers (Registers.set_pc pc (registers power_on)) power_on.

(** A cartridge image that passes [validateROM]: [0x150] bytes with the
    logo at [0x104]. *)
Definition sample_rom : list Z :=
  replicate 0x104%nat 0x3C ++ NINTENDO_LOGO ++ replicate 0x3C%nat 0x3C.

(** A saved state cut off after its first byte. *)
Definition truncated_stream : list Z := [0xAA].

(** A PS1 sound unit whose voice 0 was keyed off at full scale with the
    fastest release rate. *)
Definition released_voice : SPU.Voice.t :=
  SPU.Voice.mk 0x3FFF 0x1000 0 0 0xFF00 0x00FF 0x7FFF false true.

Definition spu_released : SPU.state :=
  SPU.set_voices (<[0%nat := released_voice]> (SPU.voices (SPU.create false)))
    (SPU.create false).

(** The same voice with the key-on latch still set. *)
Definition held_voice : SPU.Voice.t :=
  SPU.Voice.mk 0x3FFF 0x1000 0 0 0xFF00 0x00FF 0x7FFF true true.

(** A voice keyed on from silence with attack rate [rate] (the high byte
    of [adsr1]). *)
Definition attacking_voice (rate : Z) : SPU.Voice.t :=
  SPU.Voice.mk 0x3FFF 0x1000 0 0 (Z.shiftl rate 8) 0 0 true false.

(** The sample RAM is in place: its size is a power of two between 2 bytes
    and 4 GiB (the constructor makes it 512 KiB or 1 MiB). *)
Definition ram_ready (s : SPU.state) : Prop :=
  exists k, 1 <= k <= 32 /\ Z.of_nat (length (SPU.spuRam s)) = 2 ^ k.

(** A voice plays 16-bit samples: its current address is even. *)
Definition aligned (v : SPU.Voice.t) : Prop :=
  0 <= SPU.Voice.currentAddr v /\ Z.even (SPU.Voice.currentAddr v) = true.

(** What [processVoice] leaves in the voice it processed. *)
Definition ticked (v : SPU.Voice.t) : SPU.Voice.t :=
  let v1 := SPU.updateADSR v in
  SPU.Voice.set_currentAddr
    (u32 (SPU.Voice.currentAddr v1 + Z.shiftr (SPU.Voice.pitch v1) 8 * 2)) v1.

(** A PS1 sound unit whose voice 0 attacks from silence at the fastest
    rate. *)
Definition spu_attacking : SPU.state :=
  SPU.set_voices
    (<[0%nat := attacking_voice 0xFF]> (SPU.voices (SPU.create false)))
    (SPU.create false).

End Samples.

(** ** Proof automation *)

(** Case analysis on every integer comparison of the goal. *)
Ltac split_ltb :=
  repeat match goal with
    | |- context [?x <? ?y] =>
        destruct (Z.ltb_spec x y); try lia; try reflexivity
    end.

(** The flag masks as powers of two. *)
Ltac flag_masks :=
  change GameBoyEmulator.ZERO_FLAG with (2 ^ 7) in *;
  change GameBoyEmulator.SUBTRACT_FLAG with (2 ^ 6) in *;
  change GameBoyEmulator.HALF_CARRY_FLAG with (2 ^ 5) in *;
  change GameBoyEmulator.CARRY_FLAG with (2 ^ 4) in *.

(** Running the monadic plumbing of a member function. *)
Ltac run_m :=
  cbv beta iota delta
    [GameBoyEmulator.when GameBoyEmulator.upd_graphics
     GameBoyEmulator.upd_interrupts GameBoyEmulator.modify
     GameBoyEmulator.bind GameBoyEmulator.get GameBoyEmulator.ret
     res_bind fst snd].

Ltac run_loadState :=
  cbv beta iota zeta delta
    [GameBoyEmulator.loadState GameBoyEmulator.bind GameBoyEmulator.get
     GameBoyEmulator.modify GameBoyEmulator.ret res_bind fst snd].


(** After the mode [switch] of [updatePPU]: run [updateLCDStatus], whose
    effect on the PPU view is given by [lcd_status_view], and the increment
    of the counter. *)
Ltac after_switch lcd_status_view :=
  match goal with
  | |- context [GameBoyEmulator.updateLCDStatus ?s1] =>
      let s2 := fresh "s2" in
      let E := fresh "E" in
      let Hv := fresh "Hv" in
      let Hb := fresh "Hb" in
      destruct (lcd_status_view s1) as (s2 & E & Hv & Hb);
      rewrite E; run_m;
      eexists; split; [reflexivity|];
      unfold Samples.view in Hv |- *; injection Hv as Hv1 Hv2 Hv3 Hv4
  end.

(** ** The PlayStation memory bus

    [PlayStationEmulator::readMemory] and [writeMemory], the callers of
    [SPU::read] and [SPU::write], on the members the two functions use. *)

Module PlayStationEmulator.

Import Int.

(** Modelled from the spec: the declaration of the member [spu] is not in
    the sources; the member functions test it and call through it
    ([if (spu) spu->read(...)]) and [initializeSPU] assigns it a
    [std::make_unique<SPU>], so it is the sound unit of the spec, owned
    through a pointer that is null until the first [reset].  [spuWord] is
    the function-local [static uint16_t] of [writeMemory], [cerr] the text
    written to [std::cerr]. *)
Record state : Type := mkState
  { ram : list Z;              (* std::vector<uint8_t> *)
    biosRom : list Z;          (* std::vector<uint8_t> *)
    spu : option SPU.state;    (* std::unique_ptr<SPU> *)
    spuWord : Z;               (* static uint16_t *)
    cerr : string }.

Definition set_ram (v : list Z) (s : state) : state :=
  mkState v (biosRom s) (spu s) (spuWord s) (cerr s).
Definition set_spu (v : option SPU.state) (s : state) : state :=
  mkState (ram s) (biosRom s) v (spuWord s) (cerr s).
Definition set_spuWord (v : Z) (s : state) : state :=
  mkState (ram s) (biosRom s) (spu s) v (cerr s).
Definition set_cerr (v : string) (s : state) : state :=
  mkState (ram s) (biosRom s) (spu s) (spuWord s) v.

(** The first address of the SPU register window, the literal
    [0x1F801C00] of both functions. *)
Definition SPU_BASE : Z := 0x1F801C00.

Definition unhandled_read_message (address : Z) : string :=
  ("Memory read from unhandled address: 0x" ++ hex address ++ endl)%string.
Definition unhandled_write_message (address : Z) : string :=
  ("Memory write to unhandled address: 0x" ++ hex address ++ endl)%string.

(** The fall-through of [readMemory]: log the address, return 0. *)
Definition read_unhandled (address : Z) (s : state) : res (Z * state) :=
  Ok (0, set_cerr (cerr s ++ unhandled_read_message address) s).

Definition readMemory (address : Z) (s : state) : res (Z * state) :=
  if address <? Z.of_nat (length (ram s)) then
    res_bind (at_ (ram s) address) (fun v => Ok (v, s))
  else if (0x1F000000 <=? address) && (address <? 0x1F800000) then
    let biosAddr := address - 0x1F000000 in
    if biosAddr <? Z.of_nat (length (biosRom s)) then
      res_bind (at_ (biosRom s) biosAddr) (fun v => Ok (v, s))
    else read_unhandled address s
  else if (0x80000000 <=? address)
          && (address <? 0x80000000 + Z.of_nat (length (ram s))) then
    res_bind (at_ (ram s) (address - 0x80000000)) (fun v => Ok (v, s))
  else if (SPU_BASE <=? address) && (address <? 0x1F802000) then
    match spu s with
    | Some unit_ =>
        res_bind (SPU.read (Z.quot (address - SPU_BASE) 2) unit_) (fun w =>
        Ok (u8 (Z.shiftr w (Z.land address 1 * 8)), s))
    | None => read_unhandled address s
    end
  else read_unhandled address s.

Definition writeMemory (address value : Z) (s : state) : res state :=
  if address <? Z.of_nat (length (ram s)) then
    res_bind (store (ram s) address value) (fun ram' => Ok (set_ram ram' s))
  else if (0x80000000 <=? address)
          && (address <? 0x80000000 + Z.of_nat (length (ram s))) then
    res_bind (store (ram s) (address - 0x80000000) value)
      (fun ram' => Ok (set_ram ram' s))
  else if (SPU_BASE <=? address) && (address <? 0x1F802000) then
    match spu s with
    | Some unit_ =>
        if truthy (Z.land address 1) then
          let word :=
            u16 (Z.lor (Z.land (spuWord s) 0xFF) (Z.shiftl value 8)) in
          res_bind (SPU.write (Z.quot (address - SPU_BASE) 2) word unit_)
            (fun unit' => Ok (set_spu (Some unit') (set_spuWord word s)))
        else
          Ok (set_spuWord (u16 (Z.lor (Z.land (spuWord s) 0xFF00) value)) s)
    | None => Ok s
    end
  else Ok (set_cerr (cerr s ++ unhandled_write_message address) s).

End PlayStationEmulator.

(** ** Further observations and sample machines *)

Module Observations.

Import Int.

(** Packed BCD: the byte whose nibbles are the two decimal digits. *)
Definition bcd (n : Z) : Z := (n / 10) * 16 + n mod 10.

(** What [daa] computes from the accumulator and the three flags it
    reads: the new accumulator and the new carry flag. *)
Definition daa_value (a0 : Z) (n h c : bool) : Z * bool :=
  if negb n then
    let a1 := if c || (0x99 <? a0) then u8 (a0 + 0x60) else a0 in
    let c1 := c || (0x99 <? a0) in
    (if h || (0x09 <? Z.land a1 0x0F) then u8 (a1 + 0x06) else a1, c1)
  else
    let a1 := if c then u8 (a0 - 0x60) else a0 in
    (if h then u8 (a1 - 0x06) else a1, c).

(** The relative jumps of [executeInstruction] and, from the flags
    register, whether each one is taken: JR, JR NZ, JR Z, JR NC, JR C. *)
Definition jr_taken (opcode f : Z) : option bool :=
  match opcode with
  | 0x18 => Some true
  | 0x20 => Some (negb (GameBoyEmulator.flag_get GameBoyEmulator.ZERO_FLAG f))
  | 0x28 => Some (GameBoyEmulator.flag_get GameBoyEmulator.ZERO_FLAG f)
  | 0x30 => Some (negb (GameBoyEmulator.flag_get GameBoyEmulator.CARRY_FLAG f))
  | 0x38 => Some (GameBoyEmulator.flag_get GameBoyEmulator.CARRY_FLAG f)
  | _ => None
  end.

(** The [std::array] members of the Game Boy have their declared sizes. *)
Definition arrays_sized (s : GameBoyEmulator.state) : Prop :=
  Z.of_nat (length (GameBoyEmulator.romBank0 s)) = 0x4000 /\
  Z.of_nat (length (GameBoyEmulator.vram s)) = 0x2000 /\
  Z.of_nat (length (GameBoyEmulator.wramBank0 s)) = 0x2000 /\
  Z.of_nat (length (GameBoyEmulator.oam s)) = 0xA0 /\
  Z.of_nat (length (GameBoyEmulator.io s)) = 0x80 /\
  Z.of_nat (length (GameBoyEmulator.hram s)) = 0x7F.

(** Addresses whose byte a bus write stores as it is: video RAM, the two
    work-RAM windows (the switchable one as far as it has storage), the
    sprite table, high RAM and the interrupt-enable register. *)
Definition plain_ram (s : GameBoyEmulator.state) (a : Z) : Prop :=
  0x8000 <= a < 0xA000 \/ 0xC000 <= a < 0xD000 \/
  (0xD000 <= a < 0xE000 /\
   a - 0xD000 < Z.of_nat (length (GameBoyEmulator.wramBankN s))) \/
  0xFE00 <= a < 0xFEA0 \/ 0xFF80 <= a <= 0xFFFF.

(** What the bus can read: the storage behind [readMemory]. *)
Definition bus_image (s : GameBoyEmulator.state) :=
  (GameBoyEmulator.romBank0 s, GameBoyEmulator.romBankN s,
   GameBoyEmulator.vram s, GameBoyEmulator.externalRam s,
   GameBoyEmulator.wramBank0 s, GameBoyEmulator.wramBankN s,
   GameBoyEmulator.oam s, GameBoyEmulator.io s, GameBoyEmulator.hram s,
   GameBoyEmulator.Interrupts.enable (GameBoyEmulator.interrupts s)).

(** A register side effect that returns and changes nothing the bus can
    read, the register file being in place. *)
Definition io_frame (m : GameBoyEmulator.M unit) : Prop :=
  forall s,
    Z.of_nat (length (GameBoyEmulator.io s)) = 0x80 ->
    exists s', m s = Ok (tt, s') /\ bus_image s' = bus_image s.

(** I/O registers whose write handler stores the value unchanged and
    whose side effect does not touch the register file: all but P1
    ([0x00]), DIV ([0x04]), STAT ([0x41]) and LY ([0x44]). *)
Definition plain_io (r : Z) : Prop :=
  0 <= r < 0x80 /\ r <> 0x00 /\ r <> 0x04 /\ r <> 0x41 /\ r <> 0x44.

(** The cycle budget of a PPU mode. *)
Definition mode_budget (m : GameBoyEmulator.PPUMode) : Z :=
  match m with
  | GameBoyEmulator.OAM_SCAN => 80
  | GameBoyEmulator.PIXEL_TRANSFER => 172
  | GameBoyEmulator.HBLANK => 204
  | GameBoyEmulator.VBLANK => 456
  end.

(** The PPU view is consistent: the counter is within the budget of the
    mode, the visible modes are on scanlines 0 to 143 and VBLANK on
    scanlines 144 to 153. *)
Definition view_consistent (v : Samples.ppu_view) : Prop :=
  Samples.v_enabled v = true /\
  0 <= Samples.v_cycles v <= mode_budget (Samples.v_mode v) /\
  match Samples.v_mode v with
  | GameBoyEmulator.VBLANK => 144 <= Samples.v_ly v <= 153
  | _ => 0 <= Samples.v_ly v <= 143
  end.

(** The power-on machine with cartridge RAM enabled and 8 KiB of it. *)
Definition power_on_ram_enabled : GameBoyEmulator.state :=
  let s := Samples.power_on in
  GameBoyEmulator.mkState
    (GameBoyEmulator.memory s) (GameBoyEmulator.cartridgeROM s)
    (GameBoyEmulator.registers s) (GameBoyEmulator.gpu s)
    (GameBoyEmulator.romBank0 s) (GameBoyEmulator.romBankN s)
    (GameBoyEmulator.vram s) (GameBoyEmulator.externalRam s)
    (GameBoyEmulator.wramBank0 s) (GameBoyEmulator.wramBankN s)
    (GameBoyEmulator.oam s) (GameBoyEmulator.io s) (GameBoyEmulator.hram s)
    true
    (GameBoyEmulator.interrupts s) (GameBoyEmulator.graphics s)
    (GameBoyEmulator.ppuMode s) (GameBoyEmulator.ppuCycles s)
    (GameBoyEmulator.ppuEnabled s) (GameBoyEmulator.ppuWindowEnabled s)
    (GameBoyEmulator.ppuSpritesEnabled s)
    (GameBoyEmulator.ppuBackgroundEnabled s) (GameBoyEmulator.dma s)
    (GameBoyEmulator.timerEnabled s) (GameBoyEmulator.timerClock s)
    (GameBoyEmulator.input s) (GameBoyEmulator.sprites s)
    (GameBoyEmulator.spriteCount s) (GameBoyEmulator.frameBuffer s)
    (GameBoyEmulator.cerr s).

(** A PlayStation with 2 MiB of RAM, a 512 KiB BIOS and a PS1 sound
    unit, as [reset] leaves it. *)
Definition ps1_reset : PlayStationEmulator.state :=
  PlayStationEmulator.mkState
    (replicate (Z.to_nat (2 * 1024 * 1024)) 0)
    (replicate (Z.to_nat (512 * 1024)) 0)
    (Some (SPU.initialize (SPU.create false)))
    0
    EmptyString.

End Observations.

(** ** Further proof automation *)

(** Inside [updatePPU]: run [updateLCDStatus], whose result is given by
    [lcd_status_run], and the rest of the monadic plumbing. *)
Ltac run_lcd_status lcd_status_run :=
  match goal with
  | |- context [GameBoyEmulator.updateLCDStatus ?s1] =>
      let st := fresh "st" in
      let fl := fresh "fl" in
      let E := fresh "E" in
      destruct (lcd_status_run s1) as (st & fl & E & _); rewrite E; run_m
  end.

(** The four PPU fields of the object a cycle leaves. *)
Ltac ppu_frame_witness :=
  match goal with
  | |- exists m c g i, Ok (tt, ?X) = _ /\ _ =>
      exists (GameBoyEmulator.ppuMode X), (GameBoyEmulator.ppuCycles X),
        (GameBoyEmulator.graphics X), (GameBoyEmulator.interrupts X);
      split; reflexivity
  end.

(** * Properties *)

(** ** Containers and outcomes *)

Section Containers.
Context {A : Type}.
Implicit Types (c : list A) (i : Z) (v : A).

Lemma at_lookup c i v :
  0 <= i -> c !! Z.to_nat i = Some v -> at_ c i = Ok v.
Proof.
  intros Hi E. unfold at_.
  destruct (Z.ltb_spec i 0) as [|_]; [lia|]. now rewrite E.
Qed.

Lemma at_inv c i v : at_ c i = Ok v -> 0 <= i /\ c !! Z.to_nat i = Some v.
Proof.
  unfold at_. destruct (Z.ltb_spec i 0); [discriminate|].
  destruct (c !! Z.to_nat i); [|discriminate]. intros [= ->]. auto.
Qed.

Lemma at_in_range c i :
  0 <= i < Z.of_nat (length c) -> exists v, at_ c i = Ok v.
Proof.
  intros Hi. destruct (lookup_lt_is_Some_2 c (Z.to_nat i)) as [x Hx]; [lia|].
  exists x. apply at_lookup; [lia|exact Hx].
Qed.


Lemma store_ok c i v :
  0 <= i < Z.of_nat (length c) ->
  store c i v = Ok (<[Z.to_nat i := v]> c).
Proof.
  intros Hi. unfold store.
  destruct (Z.ltb_spec i 0) as [|_]; [lia|].
  destruct (lookup_lt_is_Some_2 c (Z.to_nat i)) as [x ->]; [lia|reflexivity].
Qed.

Lemma store_inv c i v c' :
  store c i v = Ok c' -> 0 <= i /\ c' = <[Z.to_nat i := v]> c.
Proof.
  unfold store. destruct (Z.ltb_spec i 0); [discriminate|].
  destruct (c !! Z.to_nat i); [|discriminate]. intros [= <-]. auto.
Qed.

Lemma at_insert c i v :
  0 <= i < Z.of_nat (length c) -> at_ (<[Z.to_nat i := v]> c) i = Ok v.
Proof.
  intros Hi. apply at_lookup; [lia|]. apply list_lookup_insert_eq. lia.
Qed.

End Containers.

Lemma res_bind_Ok {A B : Type} (r : res A) (k : A -> res B) (y : B) :
  res_bind r k = Ok y -> exists x, r = Ok x /\ k x = Ok y.
Proof. destruct r; simpl; try discriminate. eauto. Qed.

(** ** Fixed-width integers *)

Lemma u16_small (x : Z) : 0 <= x < 0x10000 -> Int.u16 x = x.
Proof. intros. unfold Int.u16. now apply Z.mod_small. Qed.

Lemma u32_small (x : Z) : 0 <= x < 0x100000000 -> Int.u32 x = x.
Proof. intros. unfold Int.u32. now apply Z.mod_small. Qed.

Lemma land_pow2 (f k : Z) :
  0 <= k -> Z.land f (2 ^ k) = if Z.testbit f k then 2 ^ k else 0.
Proof.
  intros Hk. apply Z.bits_inj'. intros n Hn.
  rewrite Z.land_spec, Z.pow2_bits_eqb by lia.
  destruct (Z.eqb_spec k n) as [->|Hne].
  - rewrite andb_true_r. destruct (Z.testbit f n) eqn:E.
    + now rewrite Z.pow2_bits_true.
    + now rewrite Z.bits_0.
  - rewrite andb_false_r. destruct (Z.testbit f k).
    + rewrite Z.pow2_bits_false; auto.
    + now rewrite Z.bits_0.
Qed.

Lemma even_mod_pow2 (c k : Z) :
  1 <= k -> Z.even c = true -> Z.even (c mod 2 ^ k) = true.
Proof.
  intros Hk Hc. rewrite <- Z.negb_odd in *. rewrite <- Z.bit0_odd in *.
  now rewrite Z.mod_pow2_bits_low by lia.
Qed.

(** ** The Game Boy *)

Module GameBoyFacts.

Import Int GameBoyEmulator Samples.
Local Open Scope gb_scope.

Local Arguments flag_set : simpl never.
Local Arguments flag_get : simpl never.

(** *** CPU flags *)

Lemma flag_get_testbit (f k : Z) :
  0 <= k -> flag_get (2 ^ k) f = Z.testbit f k.
Proof.
  intros Hk. unfold flag_get, truthy. rewrite land_pow2 by lia.
  destruct (Z.testbit f k); simpl; auto.
  assert (0 < 2 ^ k) by (apply Z.pow_pos_nonneg; lia).
  destruct (Z.eqb_spec (2 ^ k) 0); auto; lia.
Qed.

(** Writing flag [j] sets it and leaves every other flag alone. *)
Lemma flag_get_set (f j k : Z) (b : bool) :
  0 <= j -> 0 <= k ->
  flag_get (2 ^ k) (flag_set (2 ^ j) b f)
  = if k =? j then b else flag_get (2 ^ k) f.
Proof.
  intros Hj Hk. rewrite !flag_get_testbit by lia. unfold flag_set.
  destruct b.
  - rewrite Z.lor_spec, Z.pow2_bits_eqb by lia.
    rewrite (Z.eqb_sym j k).
    destruct (k =? j); rewrite ?orb_true_r, ?orb_false_r; reflexivity.
  - rewrite Z.land_spec, Z.lnot_spec, Z.pow2_bits_eqb by lia.
    rewrite (Z.eqb_sym j k).
    destruct (k =? j); simpl; rewrite ?andb_true_r, ?andb_false_r; reflexivity.
Qed.

(** The flag setters keep F a byte whose low nibble is clear. *)
Lemma flag_set_upper_nibble (f j : Z) (b : bool) :
  4 <= j < 8 -> 0 <= f < 0x100 -> Z.land f 0x0F = 0 ->
  0 <= flag_set (2 ^ j) b f < 0x100 /\
  Z.land (flag_set (2 ^ j) b f) 0x0F = 0.
Proof.
  intros Hj Hf Hlow.
  assert (Hbits : forall n, 0 <= n ->
            Z.testbit (flag_set (2 ^ j) b f) n = true -> 4 <= n < 8).
  { intros n Hn. unfold flag_set.
    assert (Hfn : Z.testbit f n = true -> 4 <= n < 8).
    { intros Ht. split.
      - destruct (Z.lt_ge_cases n 4) as [Hlt|]; [|lia].
        assert (E : Z.testbit (Z.land f 0x0F) n = true).
        { rewrite Z.land_spec, Ht. change 0x0F with (Z.ones 4).
          rewrite Z.ones_spec_low by lia. reflexivity. }
        rewrite Hlow, Z.bits_0 in E. discriminate.
      - destruct (Z.lt_ge_cases n 8) as [|Hge]; [lia|].
        rewrite <- (Z.mod_small f (2 ^ 8)) in Ht
          by (change (2 ^ 8) with 256; lia).
        rewrite Z.mod_pow2_bits_high in Ht by lia. discriminate. }
    destruct b.
    - rewrite Z.lor_spec, Z.pow2_bits_eqb by lia.
      intros [Ht|Ht]%orb_true_iff; [auto|].
      apply Z.eqb_eq in Ht. lia.
    - rewrite Z.land_spec. intros [Ht _]%andb_true_iff. auto. }
  assert (Hnonneg : 0 <= flag_set (2 ^ j) b f).
  { unfold flag_set. destruct b.
    - apply Z.lor_nonneg. split; [lia|]. apply Z.pow_nonneg. lia.
    - apply Z.land_nonneg. left. lia. }
  split; [split; [exact Hnonneg|]|].
  - destruct (Z.eq_dec (flag_set (2 ^ j) b f) 0) as [->|Hnz]; [lia|].
    change 0x100 with (2 ^ 8). apply Z.log2_lt_pow2; [lia|].
    assert (Hpos : 0 < flag_set (2 ^ j) b f) by lia.
    pose proof (Z.bit_log2 _ Hpos) as Hb.
    apply Hbits in Hb; [lia|]. apply Z.log2_nonneg.
  - apply Z.bits_inj'. intros n Hn. rewrite Z.land_spec, Z.bits_0.
    destruct (Z.testbit (flag_set (2 ^ j) b f) n) eqn:Ht; [|reflexivity].
    apply Hbits in Ht; [|lia]. change 0x0F with (Z.ones 4).
    rewrite Z.ones_spec_high by lia. reflexivity.
Qed.

(** *** Increment and 16-bit addition *)

(** C3.  The 8-bit increment returns [operand + 1] modulo 256; afterwards
    half-carry tells whether the low nibble of the operand was [0xF], zero
    tells whether the result is 0, subtract is clear and carry is what it
    was before; nothing but the flags register changes. *)
Theorem inc_flags (s : state) (operand : Z) :
  is_u8 operand ->
  exists s',
    inc operand s = Ok ((operand + 1) mod 256, s') /\
    eval getHalfCarryFlag s' = Ok (Z.land operand 0x0F =? 0x0F) /\
    eval getZeroFlag s' = Ok ((operand + 1) mod 256 =? 0) /\
    eval getSubtractFlag s' = Ok false /\
    eval getCarryFlag s' = eval getCarryFlag s /\
    s' = set_registers
           (Registers.set_f (Registers.f (registers s')) (registers s)) s.
Proof.
  intros _. eexists. split; [reflexivity|].
  unfold eval, getHalfCarryFlag, getZeroFlag, getSubtractFlag, getCarryFlag,
    getFlag, get. simpl.
  flag_masks. rewrite !flag_get_set by lia. simpl.
  repeat split.
Qed.

Lemma inc_flags_witness :
  is_u8 0x0F /\
  exists s',
    inc 0x0F power_on = Ok ((0x0F + 1) mod 256, s') /\
    eval getHalfCarryFlag s' = Ok (Z.land 0x0F 0x0F =? 0x0F) /\
    eval getZeroFlag s' = Ok ((0x0F + 1) mod 256 =? 0) /\
    eval getSubtractFlag s' = Ok false /\
    eval getCarryFlag s' = eval getCarryFlag power_on /\
    s' = set_registers
           (Registers.set_f (Registers.f (registers s')) (registers power_on))
           power_on.
Proof.
  split; [unfold is_u8; lia|].
  apply (inc_flags power_on 0x0F). unfold is_u8. lia.
Defined.

(** C4.  The 16-bit addition returns [a + b] modulo 2^16; afterwards carry
    tells whether [a + b] exceeds [0xFFFF], half-carry whether the sum of
    the low 12 bits of the operands exceeds [0x0FFF], and subtract is
    clear; nothing but the flags register changes. *)
Theorem add16_flags (s : state) (a b : Z) :
  is_u16 a -> is_u16 b ->
  exists s',
    add16 a b s = Ok ((a + b) mod 2 ^ 16, s') /\
    eval getCarryFlag s' = Ok (0xFFFF <? a + b) /\
    eval getHalfCarryFlag s'
    = Ok (0x0FFF <? Z.land a 0x0FFF + Z.land b 0x0FFF) /\
    eval getSubtractFlag s' = Ok false /\
    s' = set_registers
           (Registers.set_f (Registers.f (registers s')) (registers s)) s.
Proof.
  unfold is_u16. intros Ha Hb.
  assert (Hs : u32 (a + b) = a + b) by (apply u32_small; lia).
  eexists. split.
  - unfold add16. rewrite Hs. reflexivity.
  - unfold eval, getHalfCarryFlag, getZeroFlag, getSubtractFlag, getCarryFlag,
      getFlag, get. simpl.
    flag_masks. rewrite !flag_get_set by lia. simpl.
    repeat split.
Qed.

Lemma add16_flags_witness :
  is_u16 0xFFFF /\ is_u16 0x0001 /\
  exists s',
    add16 0xFFFF 0x0001 power_on = Ok ((0xFFFF + 0x0001) mod 2 ^ 16, s') /\
    eval getCarryFlag s' = Ok (0xFFFF <? 0xFFFF + 0x0001) /\
    eval getHalfCarryFlag s'
    = Ok (0x0FFF <? Z.land 0xFFFF 0x0FFF + Z.land 0x0001 0x0FFF) /\
    eval getSubtractFlag s' = Ok false /\
    s' = set_registers
           (Registers.set_f (Registers.f (registers s')) (registers power_on))
           power_on.
Proof.
  split; [unfold is_u16; lia|]. split; [unfold is_u16; lia|].
  apply (add16_flags power_on 0xFFFF 0x0001); unfold is_u16; lia.
Defined.

(** The half-carry of [add16] is the carry out of bit 11. *)
Lemma add16_half_carry_is_bit12 (a b : Z) :
  (0x0FFF <? Z.land a 0x0FFF + Z.land b 0x0FFF)
  = Z.testbit (Z.land a 0x0FFF + Z.land b 0x0FFF) 12.
Proof.
  change 0x0FFF with (Z.ones 12). rewrite !Z.land_ones by lia.
  pose proof (Z.mod_pos_bound a (2 ^ 12) ltac:(lia)) as Ha.
  pose proof (Z.mod_pos_bound b (2 ^ 12) ltac:(lia)) as Hb.
  set (x := a mod 2 ^ 12 + b mod 2 ^ 12) in *.
  assert (Hx : 0 <= x < 2 ^ 13) by (unfold x; lia).
  rewrite Z.testbit_eqb by lia.
  destruct (Z.ltb_spec (Z.ones 12) x) as [Hlt|Hge].
  - change (Z.ones 12) with 4095 in Hlt.
    assert (Hq : x / 2 ^ 12 = 1)
      by (symmetry; apply Z.div_unique with (r := x - 2 ^ 12); lia).
    rewrite Hq. reflexivity.
  - change (Z.ones 12) with 4095 in Hge.
    rewrite Z.div_small by lia. reflexivity.
Qed.

(** *** Memory bus *)

(** Outside the echo range a read makes no nested call. *)
Lemma readMemory_at_direct (d : nat) (s : state) (a : Z) :
  ~ (0xE000 <= a < 0xFE00) -> readMemory_at d s a = readMemory_at 0 s a.
Proof. intros Ha. destruct d; simpl; [reflexivity|]. split_ltb. Qed.

Lemma readMemory_at_echo (d : nat) (s : state) (a : Z) :
  0xE000 <= a < 0xFE00 ->
  readMemory_at (S d) s a = readMemory_at d s (a - 0x2000).
Proof. intros Ha. simpl. split_ltb. now rewrite u16_small by lia. Qed.

(** One nested call is enough for every address: a deeper budget gives
    the same result. *)
Lemma readMemory_at_depth (d : nat) (s : state) (a : Z) :
  readMemory_at (S d) s a = readMemory_at 1 s a.
Proof.
  destruct (Z.le_gt_cases 0xE000 a) as [Hlo|Hlo];
    [destruct (Z.lt_ge_cases a 0xFE00) as [Hhi|Hhi]|].
  - rewrite !readMemory_at_echo by lia.
    rewrite (readMemory_at_direct d) by lia. reflexivity.
  - rewrite (readMemory_at_direct (S d)), (readMemory_at_direct 1) by lia.
    reflexivity.
  - rewrite (readMemory_at_direct (S d)), (readMemory_at_direct 1) by lia.
    reflexivity.
Qed.

Lemma writeMemory_at_direct (d : nat) (a v : Z) :
  ~ (0xE000 <= a < 0xFE00) -> writeMemory_at d a v = writeMemory_at 0 a v.
Proof. intros Ha. destruct d; simpl; [reflexivity|]. split_ltb. Qed.

Lemma writeMemory_at_echo (d : nat) (a v : Z) :
  0xE000 <= a < 0xFE00 ->
  writeMemory_at (S d) a v = writeMemory_at d (a - 0x2000) v.
Proof. intros Ha. simpl. split_ltb. now rewrite u16_small by lia. Qed.

Lemma writeMemory_at_depth (d : nat) (a v : Z) :
  writeMemory_at (S d) a v = writeMemory_at 1 a v.
Proof.
  destruct (Z.le_gt_cases 0xE000 a) as [Hlo|Hlo];
    [destruct (Z.lt_ge_cases a 0xFE00) as [Hhi|Hhi]|].
  - rewrite !writeMemory_at_echo by lia.
    rewrite (writeMemory_at_direct d) by lia. reflexivity.
  - rewrite (writeMemory_at_direct (S d)), (writeMemory_at_direct 1) by lia.
    reflexivity.
  - rewrite (writeMemory_at_direct (S d)), (writeMemory_at_direct 1) by lia.
    reflexivity.
Qed.

(** The bus does not look at the CPU registers. *)
Lemma readMemory_at_set_registers (d : nat) (r : Registers.t) (s : state)
    (a : Z) :
  readMemory_at d (set_registers r s) a = readMemory_at d s a.
Proof.
  revert a. induction d as [|d IH]; intros a; simpl;
    rewrite ?IH; reflexivity.
Qed.

Lemma eval_readMemory_u16 (s : state) (a v : Z) :
  eval (readMemory_u16 a) s = Ok v -> readMemory_at 1 s a = Ok v.
Proof.
  unfold eval, readMemory_u16.
  destruct (readMemory_at 1 s a); simpl; congruence.
Qed.


(** C6.  A write to an address below [0x8000] is discarded: the call
    returns and leaves the object as it was, so every read from that range
    returns afterwards what it returned before. *)
Theorem rom_writes_discarded (s : state) (a v : Z) :
  0x0000 <= a < 0x8000 -> is_u8 v ->
  writeMemory_u16 a v s = Ok (tt, s) /\
  forall s', exec (writeMemory_u16 a v) s = Ok s' ->
    forall b, 0x0000 <= b < 0x8000 ->
      eval (readMemory_u16 b) s' = eval (readMemory_u16 b) s.
Proof.
  intros Ha _.
  assert (E : writeMemory_u16 a v s = Ok (tt, s)).
  { unfold writeMemory_u16. simpl. split_ltb. }
  split; [exact E|]. unfold exec. rewrite E. simpl.
  intros s' [= <-] b _. reflexivity.
Qed.

Lemma rom_writes_discarded_witness :
  0x0000 <= 0x0150 < 0x8000 /\ is_u8 0xFF /\
  writeMemory_u16 0x0150 0xFF power_on = Ok (tt, power_on) /\
  forall s', exec (writeMemory_u16 0x0150 0xFF) power_on = Ok s' ->
    forall b, 0x0000 <= b < 0x8000 ->
      eval (readMemory_u16 b) s' = eval (readMemory_u16 b) power_on.
Proof.
  split; [lia|]. split; [unfold is_u8; lia|].
  apply (rom_writes_discarded power_on 0x0150 0xFF); [lia|unfold is_u8; lia].
Defined.

(** The flat-image [writeMemory(uint32_t, uint8_t)] discards them too. *)
Lemma rom_writes_discarded_u32 (s : state) (a v : Z) :
  0x0000 <= a < 0x8000 -> Z.of_nat (length (memory s)) = 0x10000 ->
  writeMemory_u32 a v s = Ok (tt, s).
Proof.
  intros Ha Hm. unfold writeMemory_u32, bind, get. simpl.
  destruct (Z.leb_spec (Z.of_nat (length (memory s))) a); [lia|].
  split_ltb.
Qed.



(** *** Reset, ROM loading and the flat memory image *)

Lemma reset_run (s : state) :
  reset s
  = Ok (tt, set_gpu Gpu.zero
              (set_registers
                 (Registers.mk 0x01 0xB0 0x00 0x13 0x00 0xD8 0x01 0x4D
                    0xFFFE 0x0100)
                 (set_memory (replicate (length (memory s)) 0) s))).
Proof. reflexivity. Qed.

(** C9.  [reset] is idempotent: a second [reset] leaves the object exactly
    as the first one left it. *)
Theorem reset_idempotent (s : state) :
  exists s1, reset s = Ok (tt, s1) /\ reset s1 = Ok (tt, s1) /\
             (reset ;; reset) s = reset s.
Proof.
  eexists. split; [apply reset_run|].
  assert (E : forall s0 : state,
             reset (set_gpu Gpu.zero
                (set_registers
                   (Registers.mk 0x01 0xB0 0x00 0x13 0x00 0xD8 0x01 0x4D
                      0xFFFE 0x0100)
                   (set_memory (replicate (length (memory s0)) 0) s0)))
             = reset s0).
  { intros s0. rewrite !reset_run. simpl. now rewrite length_replicate. }
  split.
  - rewrite E. apply reset_run.
  - unfold bind. rewrite (reset_run s) at 1. simpl. apply E.
Qed.

Lemma loadROM_run (s : state) (data : list Z) :
  validateROM data = true ->
  loadROM data s
  = Ok (true,
        set_memory
          (copy_into data (Nat.min (length data) (Z.to_nat 0x8000)) (memory s))
          (set_cartridgeROM data s)).
Proof. intros Hv. unfold loadROM. rewrite Hv. reflexivity. Qed.

(** A rejected image commits nothing. *)
Lemma loadROM_rejected (s : state) (data : list Z) :
  validateROM data = false -> loadROM data s = Ok (false, s).
Proof. intros Hv. unfold loadROM. rewrite Hv. reflexivity. Qed.

Lemma readMemory_u32_run (s : state) (a v : Z) :
  0 <= a -> memory s !! Z.to_nat a = Some v ->
  eval (readMemory_u32 a) s = Ok v.
Proof.
  intros Ha E. unfold eval, readMemory_u32, bind, get, lift. simpl.
  pose proof (lookup_lt_Some _ _ _ E) as Hlt.
  destruct (Z.leb_spec (Z.of_nat (length (memory s))) a); [lia|].
  rewrite (at_lookup _ _ v) by auto. reflexivity.
Qed.

Lemma power_on_memory_size : Z.of_nat (length (memory power_on)) = 0x10000.
Proof.
  change (memory power_on) with (replicate (Z.to_nat 0x10000) 0).
  rewrite length_replicate. lia.
Qed.

Lemma sample_rom_valid : validateROM sample_rom = true.
Proof. vm_compute. reflexivity. Qed.

(** C10.  After a ROM was loaded (its first 32 KiB readable from the memory
    image) a [reset] makes every address of the 64 KiB image read 0, while
    the cartridge data stays retained. *)
Theorem reset_zero_fills_memory (s : state) (data : list Z) :
  Z.of_nat (length (memory s)) = 0x10000 ->
  validateROM data = true ->
  exists s1 s2,
    loadROM data s = Ok (true, s1) /\
    (forall b byte, 0 <= b < 0x8000 -> data !! Z.to_nat b = Some byte ->
       eval (readMemory_u32 b) s1 = Ok byte) /\
    reset s1 = Ok (tt, s2) /\
    (forall a, 0x0000 <= a < 0x10000 -> eval (readMemory_u32 a) s2 = Ok 0) /\
    cartridgeROM s2 = data.
Proof.
  intros Hm Hv. do 2 eexists.
  split; [apply loadROM_run, Hv|].
  split; [|split; [apply reset_run|split]].
  - intros b byte Hb E. apply readMemory_u32_run; [lia|]. simpl.
    unfold copy_into. pose proof (lookup_lt_Some _ _ _ E) as Hlt.
    rewrite lookup_app_l by (rewrite length_take; lia).
    rewrite lookup_take_lt by lia. exact E.
  - intros a Ha. apply readMemory_u32_run; [lia|]. simpl.
    apply lookup_replicate_2. unfold copy_into.
    rewrite length_app, length_take, length_drop. lia.
  - reflexivity.
Qed.

Lemma reset_zero_fills_memory_witness :
  Z.of_nat (length (memory power_on)) = 0x10000 /\
  validateROM sample_rom = true /\
  exists s1 s2,
    loadROM sample_rom power_on = Ok (true, s1) /\
    (forall b byte, 0 <= b < 0x8000 ->
       sample_rom !! Z.to_nat b = Some byte ->
       eval (readMemory_u32 b) s1 = Ok byte) /\
    reset s1 = Ok (tt, s2) /\
    (forall a, 0x0000 <= a < 0x10000 -> eval (readMemory_u32 a) s2 = Ok 0) /\
    cartridgeROM s2 = sample_rom.
Proof.
  split; [exact power_on_memory_size|]. split; [exact sample_rom_valid|].
  exact (reset_zero_fills_memory power_on sample_rom power_on_memory_size
           sample_rom_valid).
Defined.

(** *** Saved states *)

Lemma stream_read_failed (n : nat) (rest : list Z) :
  stream_read n (mkIfstream rest true) = ([], mkIfstream rest true).
Proof. reflexivity. Qed.

Lemma stream_read_short (n : nat) (content : list Z) :
  (length content < n)%nat ->
  stream_read n (mkIfstream content false) = (content, mkIfstream [] true).
Proof.
  intros Hlt. unfold stream_read. simpl.
  rewrite take_ge, drop_ge by lia.
  destruct (Nat.ltb_spec (length content) n); [reflexivity|lia].
Qed.

Lemma loadState_unopened (s : state) : loadState None s = Ok (false, s).
Proof. reflexivity. Qed.

Lemma loadState_opened (s : state) (content : list Z) :
  exists s', loadState (Some content) s = Ok (true, s').
Proof.
  run_loadState.
  destruct (stream_read (length (memory s)) (mkIfstream content false))
    as [got1 f1]. run_loadState.
  destruct (stream_read (Z.to_nat Registers.size) f1) as [got2 f2].
  run_loadState.
  destruct (stream_read (Z.to_nat Gpu.size) f2) as [got3 f3].
  eexists. reflexivity.
Qed.

Lemma loadState_short (s : state) (content : list Z) :
  (length content < length (memory s))%nat ->
  loadState (Some content) s
  = Ok (true, set_memory (patch (memory s) content) s).
Proof.
  intros Hlt. run_loadState.
  rewrite stream_read_short by exact Hlt. run_loadState.
  rewrite !stream_read_failed. run_loadState.
  destruct s; reflexivity.
Qed.

Lemma one_byte_is_short :
  (length truncated_stream < length (memory power_on))%nat.
Proof.
  pose proof power_on_memory_size as Hm.
  change (length truncated_stream) with 1%nat. lia.
Qed.

(** C2, as amended.  [loadState] reports failure only when the file cannot
    be opened, and the object is then unchanged.  When the file opens it
    returns [true] whatever the length of the stream; a stream shorter than
    the memory image replaces the leading bytes of memory with its own and
    leaves the rest of memory, the CPU registers and the GPU registers as
    they were. *)
Theorem loadState_reports_only_unopened_files (s : state) :
  loadState None s = Ok (false, s) /\
  (forall content, exists s', loadState (Some content) s = Ok (true, s')) /\
  (forall content, (length content < length (memory s))%nat ->
     exists s',
       loadState (Some content) s = Ok (true, s') /\
       memory s' = content ++ drop (length content) (memory s) /\
       registers s' = registers s /\ gpu s' = gpu s).
Proof.
  split; [apply loadState_unopened|]. split; [apply loadState_opened|].
  intros content Hlt. eexists. split; [apply loadState_short, Hlt|].
  repeat split.
Qed.

Lemma loadState_reports_only_unopened_files_witness :
  (length truncated_stream < length (memory power_on))%nat /\
  exists s',
    loadState (Some truncated_stream) power_on = Ok (true, s') /\
    memory s'
    = truncated_stream ++ drop (length truncated_stream) (memory power_on) /\
    registers s' = registers power_on /\ gpu s' = gpu power_on.
Proof.
  split; [exact one_byte_is_short|].
  destruct (loadState_reports_only_unopened_files power_on) as (_ & _ & H).
  exact (H truncated_stream one_byte_is_short).
Defined.

(** C2, as stated, fails: a one-byte stream is reported as a successful
    load and its byte is applied to the memory image. *)
Lemma loadState_truncated_counterexample :
  ~ (forall (s : state) (content : list Z),
       (length content < length (memory s))%nat ->
       loadState (Some content) s = Ok (false, s)).
Proof.
  intros H. specialize (H power_on truncated_stream one_byte_is_short).
  rewrite loadState_short in H by exact one_byte_is_short. discriminate H.
Qed.

(** What the truncated load of the counterexample leaves behind. *)
Lemma loadState_truncated_is_applied :
  exists s',
    loadState (Some truncated_stream) power_on = Ok (true, s') /\
    eval (readMemory_u32 0) power_on = Ok 0x00 /\
    eval (readMemory_u32 0) s' = Ok 0xAA.
Proof.
  eexists. split; [apply loadState_short, one_byte_is_short|].
  split; lazy; reflexivity.
Qed.

(** *** Instruction interpreter *)





Example unknown_opcode_message_FF :
  unknown_opcode_message 0xFF = String.append "Unknown opcode: 0xff" endl.
Proof. reflexivity. Qed.




(** *** PPU mode machine *)

Lemma renderScanline_hblank (s : state) :
  ppuMode s = HBLANK -> renderScanline s = Ok (tt, s).
Proof.
  intros Hm. unfold renderScanline, bind, get. simpl.
  destruct (ppuEnabled s); simpl; [|reflexivity]. now rewrite Hm.
Qed.

(** [updateLCDStatus] touches only the STAT byte and the pending flags, and
    can only add the LCD-stat bit to the latter. *)
Lemma updateLCDStatus_run (s : state) :
  exists stat' flags',
    updateLCDStatus s
    = Ok (tt, set_interrupts
                (Interrupts.set_flags flags' (interrupts s))
                (set_graphics (Graphics.set_stat stat' (graphics s)) s)) /\
    (flags' = Interrupts.flags (interrupts s) \/
     flags' = Z.lor (Interrupts.flags (interrupts s)) 0x02).
Proof.
  unfold updateLCDStatus, bind, get, when, upd_graphics, upd_interrupts,
    modify, ret. simpl.
  destruct s as [? ? ? ? ? ? ? ? ? ? ? ? ? ? [en fl] [ly lyc st ? ? ? ? ? ? ?]
                   ? ? pe ? ? ? ? ? ? ? ? ? ? ?]. simpl.
  destruct pe; simpl.
  - destruct (ly =? lyc); simpl.
    + destruct (truthy (Z.land (Z.lor st 4) 64)); simpl.
      * exists (Z.lor st 4), (Z.lor fl 2). auto.
      * exists (Z.lor st 4), fl. auto.
    + exists (Z.land st (Z.lnot 4)), fl. auto.
  - exists st, fl. auto.
Qed.

Lemma updateLCDStatus_view (s : state) :
  exists s', updateLCDStatus s = Ok (tt, s') /\ view s' = view s /\
             (Z.testbit (Interrupts.flags (interrupts s')) 0
              = Z.testbit (Interrupts.flags (interrupts s)) 0).
Proof.
  destruct (updateLCDStatus_run s) as (stat' & flags' & E & Hf).
  eexists. split; [exact E|]. split; [reflexivity|].
  cbn [interrupts set_interrupts Interrupts.flags Interrupts.set_flags].
  destruct Hf as [->| ->]; [reflexivity|].
  rewrite Z.lor_spec. change (Z.testbit 2 0) with false.
  now rewrite orb_false_r.
Qed.

(** [updatePPU] always returns, and acts on the PPU view as [view_step]. *)
Lemma updatePPU_view (s : state) :
  exists s', updatePPU s = Ok (tt, s') /\ view s' = view_step (view s).
Proof.
  unfold updatePPU. run_m.
  unfold view_step. cbn [v_enabled v_mode v_cycles v_ly view].
  destruct (ppuEnabled s) eqn:Een; cbn [negb];
    [|eexists; split; [reflexivity|]; unfold view; simpl; now rewrite Een].
  destruct (ppuMode s) eqn:Em; run_m.
  - destruct (204 <=? ppuCycles s) eqn:Ec; run_m.
    + cbn [graphics set_graphics set_ppuCycles Graphics.ly Graphics.set_ly].
      destruct (u8 (Graphics.ly (graphics s) + 1) =? 144) eqn:El;
        run_m; after_switch updateLCDStatus_view; simpl in *; subst; simpl.
      * rewrite Hv1, Hv2, Hv3, Hv4, ?Een, ?Em. reflexivity.
      * rewrite Hv1, Hv2, Hv3, Hv4, ?Een, ?Em. reflexivity.
    + after_switch updateLCDStatus_view. simpl.
      rewrite Hv1, Hv2, Hv3, Hv4, ?Een, ?Em. reflexivity.
  - destruct (456 <=? ppuCycles s) eqn:Ec; run_m.
    + cbn [graphics set_graphics set_ppuCycles Graphics.ly Graphics.set_ly].
      destruct (153 <? u8 (Graphics.ly (graphics s) + 1)) eqn:El;
        run_m; after_switch updateLCDStatus_view; simpl in *; subst; simpl.
      * rewrite Hv1, Hv2, Hv3, Hv4, ?Een, ?Em. reflexivity.
      * rewrite Hv1, Hv2, Hv3, Hv4, ?Een, ?Em. reflexivity.
    + after_switch updateLCDStatus_view. simpl.
      rewrite Hv1, Hv2, Hv3, Hv4, ?Een, ?Em. reflexivity.
  - destruct (80 <=? ppuCycles s) eqn:Ec; run_m;
      after_switch updateLCDStatus_view; simpl in *;
      rewrite Hv1, Hv2, Hv3, Hv4, ?Een, ?Em;
      reflexivity.
  - destruct (172 <=? ppuCycles s) eqn:Ec; run_m.
    + rewrite renderScanline_hblank by reflexivity. run_m.
      after_switch updateLCDStatus_view. simpl in *.
      rewrite Hv1, Hv2, Hv3, Hv4, ?Een, ?Em. reflexivity.
    + after_switch updateLCDStatus_view. simpl in *.
      rewrite Hv1, Hv2, Hv3, Hv4, ?Een, ?Em. reflexivity.
Qed.

Lemma times_updatePPU_view (n : nat) (s : state) :
  exists s', times n updatePPU s = Ok (tt, s') /\
             view s' = Nat.iter n view_step (view s).
Proof.
  revert s. induction n as [|n IH]; intros s.
  - exists s. split; reflexivity.
  - destruct (updatePPU_view s) as (s1 & E1 & Hv1).
    destruct (IH s1) as (s' & E' & Hv').
    exists s'. split.
    + cbn [times]. unfold bind. rewrite E1. exact E'.
    + rewrite Hv', Hv1. symmetry. apply Nat.iter_succ_r.
Qed.

Lemma view_at (s : state) (en : bool) (m : PPUMode) (c ly : Z) :
  ppuEnabled s = en -> ppuMode s = m -> ppuCycles s = c ->
  Graphics.ly (graphics s) = ly -> view s = mkView en m c ly.
Proof. intros <- <- <- <-. reflexivity. Qed.

Lemma run_from (n : nat) (s : state) (v v' : ppu_view) :
  view s = v -> Nat.iter n view_step v = v' ->
  exists s', times n updatePPU s = Ok (tt, s') /\
             ppuMode s' = v_mode v' /\ ppuCycles s' = v_cycles v' /\
             Graphics.ly (graphics s') = v_ly v'.
Proof.
  intros Hv Hrun. destruct (times_updatePPU_view n s) as (s' & E & Hv').
  exists s'. split; [exact E|]. rewrite Hv, Hrun in Hv'. rewrite <- Hv'.
  repeat split.
Qed.



(** Every later visible scanline starts with the counter at 1, where the
    previous transition left it, and then lasts exactly 456 cycles. *)
Lemma later_scanlines_take_456_cycles (s : state) (ly : Z) :
  0 <= ly < 143 ->
  ppuEnabled s = true -> ppuMode s = OAM_SCAN -> ppuCycles s = 1 ->
  Graphics.ly (graphics s) = ly ->
  exists s', times 456 updatePPU s = Ok (tt, s') /\
             ppuMode s' = OAM_SCAN /\ ppuCycles s' = 1 /\
             Graphics.ly (graphics s') = ly + 1.
Proof.
  intros Hly Hen Hm Hc Hl.
  assert (Hall : Forall (fun y =>
            Nat.iter 456 view_step (mkView true OAM_SCAN 1 y)
            = mkView true OAM_SCAN 1 (y + 1)) (seqZ 0 143)).
  { let l := eval vm_compute in (seqZ 0 143) in change (seqZ 0 143) with l.
    repeat (constructor; [vm_compute; reflexivity|]). constructor. }
  rewrite Forall_forall in Hall.
  assert (Hin : ly ∈ seqZ 0 143) by (apply elem_of_seqZ; lia).
  pose proof (view_at s _ _ _ _ Hen Hm Hc Hl) as Hv.
  destruct (run_from 456 s _ _ Hv (Hall ly Hin)) as (s' & E & H1 & H2 & H3).
  exists s'. auto.
Qed.

(** The HBLANK that ends scanline 143 enters VBLANK and raises the
    vblank-pending bit. *)
Lemma hblank_end_of_line_143_raises_vblank (s : state) :
  ppuEnabled s = true -> ppuMode s = HBLANK -> 204 <= ppuCycles s ->
  Graphics.ly (graphics s) = 143 ->
  exists s', updatePPU s = Ok (tt, s') /\
             ppuMode s' = VBLANK /\ Graphics.ly (graphics s') = 144 /\
             Z.testbit (Interrupts.flags (interrupts s')) 0 = true.
Proof.
  intros Hen Hm Hc Hly. unfold updatePPU. run_m. rewrite Hen. cbn [negb].
  run_m. rewrite Hm.
  destruct (Z.leb_spec 204 (ppuCycles s)) as [_|]; [|lia]. run_m.
  cbn [graphics set_graphics set_ppuCycles Graphics.ly Graphics.set_ly].
  rewrite Hly. change (u8 (143 + 1) =? 144) with true. run_m.
  match goal with
  | |- context [updateLCDStatus ?s1] =>
      destruct (updateLCDStatus_view s1) as (s2 & E & Hv & Hb)
  end.
  rewrite E. run_m. eexists. split; [reflexivity|].
  unfold view in Hv. injection Hv as Hv1 Hv2 Hv3 Hv4.
  cbn [ppuMode graphics interrupts set_ppuCycles Graphics.ly].
  rewrite Hv2, Hv4, Hb.
  cbn [interrupts set_interrupts set_ppuMode set_graphics set_ppuCycles
       ppuMode graphics Graphics.ly Graphics.set_ly
       Interrupts.flags Interrupts.set_flags].
  repeat split. rewrite Z.lor_spec. change (Z.testbit 1 0) with true.
  apply orb_true_r.
Qed.

(** A disabled PPU is forced to HBLANK and its counter stands still. *)
Lemma disabled_ppu_halts (s : state) :
  ppuEnabled s = false ->
  updatePPU s = Ok (tt, set_ppuMode HBLANK s).
Proof. intros Hen. unfold updatePPU. run_m. rewrite Hen. reflexivity. Qed.

End GameBoyFacts.

(** ** The sound processing unit *)

Module SPUFacts.

Import Int SPU Samples.

(** *** Keyed-off voices *)

Lemma processVoice_other (i : Z) (s s' : state) (j : nat) :
  processVoice i s = Ok s' -> j <> Z.to_nat i ->
  voices s' !! j = voices s !! j.
Proof.
  unfold processVoice.
  destruct (Z.of_nat (length (voices s)) <=? i); [now intros [= <-]|].
  intros H Hj.
  apply res_bind_Ok in H as (voice0 & _ & H).
  apply res_bind_Ok in H as (hi & _ & H).
  apply res_bind_Ok in H as (lo & _ & H).
  apply res_bind_Ok in H as (voices' & Hst & H).
  injection H as <-. apply store_inv in Hst as [_ ->].
  cbn [voices set_voices set_audioBuffer].
  now rewrite list_lookup_insert_ne by auto.
Qed.

(** A voice whose key-on latch is clear is never handed to [processVoice]
    by the voice loop. *)
Lemma voice_loop_skips_keyed_off (indices : list Z) :
  forall (s s' : state) (j : nat) (v : Voice.t),
    voice_loop indices s = Ok s' ->
    voices s !! j = Some v -> Voice.keyOn v = false ->
    voices s' !! j = Some v.
Proof.
  induction indices as [|i rest IH]; intros s s' j v Hrun Hj Hoff.
  - injection Hrun as <-. exact Hj.
  - cbn [voice_loop] in Hrun.
    apply res_bind_Ok in Hrun as (voice & Hat & Hrun).
    apply at_inv in Hat as [Hi Hlook].
    destruct (Voice.keyOn voice) eqn:Hon.
    + apply res_bind_Ok in Hrun as (s1 & Hproc & Hrun).
      apply (IH s1 s' j v Hrun); [|exact Hoff].
      rewrite (processVoice_other i s s1 j Hproc); [exact Hj|].
      intros ->. congruence.
    + apply (IH s s' j v Hrun Hj Hoff).
Qed.

Lemma mixOutput_frame (s : state) :
  voices (mixOutput s) = voices s /\ spuRam (mixOutput s) = spuRam s.
Proof. unfold mixOutput. destruct (audioBuffer s); split; reflexivity. Qed.

Lemma processReverb_frame (s : state) :
  voices (processReverb s) = voices s /\
  spuRam (processReverb s) = spuRam s.
Proof.
  unfold processReverb. destruct (reverbEnabled s); [|split; reflexivity].
  destruct (audioBuffer s); split; reflexivity.
Qed.

Lemma after_voice_loop_frame (s : state) :
  let s' := if reverbEnabled (mixOutput s)
            then processReverb (mixOutput s) else mixOutput s in
  voices s' = voices s /\ spuRam s' = spuRam s.
Proof.
  cbv zeta. destruct (reverbEnabled (mixOutput s)).
  - destruct (processReverb_frame (mixOutput s)) as [-> ->].
    apply mixOutput_frame.
  - apply mixOutput_frame.
Qed.

(** Whatever else a tick does, it leaves a keyed-off voice untouched: the
    release branch of [updateADSR] is never reached through [step]. *)
Lemma step_skips_keyed_off (s s' : state) (j : nat) (v : Voice.t) :
  step s = Ok s' ->
  voices s !! j = Some v -> Voice.keyOn v = false ->
  voices s' !! j = Some v.
Proof.
  unfold step. intros Hrun Hj Hoff.
  apply res_bind_Ok in Hrun as (s1 & Hloop & Hrun). injection Hrun as <-.
  unfold checkIRQ. destruct (after_voice_loop_frame s1) as [-> _].
  eapply voice_loop_skips_keyed_off; eauto.
Qed.

Lemma steps_skip_keyed_off (n : nat) :
  forall (s s' : state) (j : nat) (v : Voice.t),
    steps n s = Ok s' ->
    voices s !! j = Some v -> Voice.keyOn v = false ->
    amplitude j s' = Some (Voice.adsrVolume v).
Proof.
  induction n as [|n IH]; intros s s' j v Hrun Hj Hoff.
  - injection Hrun as <-. unfold amplitude. now rewrite Hj.
  - cbn [steps] in Hrun. apply res_bind_Ok in Hrun as (s1 & Hstep & Hrun).
    eapply IH; eauto using step_skips_keyed_off.
Qed.

(** With no voice keyed on and nothing buffered a tick changes nothing. *)
Lemma voice_loop_idle (indices : list Z) (s : state) :
  Forall (fun v => Voice.keyOn v = false) (voices s) ->
  Forall (fun i => 0 <= i < Z.of_nat (length (voices s))) indices ->
  voice_loop indices s = Ok s.
Proof.
  intros Hoff. induction 1 as [|i rest Hi _ IH]; [reflexivity|].
  cbn [voice_loop].
  destruct (lookup_lt_is_Some_2 (voices s) (Z.to_nat i)) as [v Hv]; [lia|].
  rewrite (at_lookup _ _ v) by (auto; lia). cbn [res_bind].
  rewrite Forall_lookup in Hoff. now rewrite (Hoff _ _ Hv).
Qed.

Lemma step_idle (s : state) :
  Forall (fun v => Voice.keyOn v = false) (voices s) ->
  audioBuffer s = [] ->
  step s = Ok s.
Proof.
  intros Hoff Hbuf. unfold step.
  rewrite voice_loop_idle; [|exact Hoff|].
  - cbn [res_bind]. unfold mixOutput, processReverb, checkIRQ.
    rewrite Hbuf. destruct (reverbEnabled s); cbn [negb];
      rewrite ?Hbuf; reflexivity.
  - apply Forall_forall. intros i Hi. apply elem_of_seqZ in Hi. lia.
Qed.

Lemma steps_idle (n : nat) (s : state) :
  Forall (fun v => Voice.keyOn v = false) (voices s) ->
  audioBuffer s = [] ->
  steps n s = Ok s.
Proof.
  intros Hoff Hbuf. induction n as [|n IH]; [reflexivity|].
  cbn [steps]. rewrite step_idle by assumption. exact IH.
Qed.

Lemma spu_released_voices :
  voices spu_released = released_voice :: replicate 23 Voice.zero.
Proof. reflexivity. Qed.

(** C8, on the code.  Voice 0 of [spu_released] is keyed off at full scale
    ([0x7FFF]) with release rate [0xFF]; any number of [step] ticks returns
    and leaves the sound unit, and so the amplitude of the voice, exactly as
    it was: the amplitude never decreases. *)
Theorem keyed_off_voice_never_releases (n : nat) :
  amplitude 0 spu_released = Some 0x7FFF /\
  Voice.keyOn released_voice = false /\
  Voice.keyOff released_voice = true /\
  Z.land (Voice.adsr2 released_voice) 0xFF = 0xFF /\
  steps n spu_released = Ok spu_released.
Proof.
  do 4 (split; [reflexivity|]).
  apply steps_idle; [|reflexivity].
  rewrite spu_released_voices. repeat constructor.
Qed.

(** *** Attack *)

Lemma updateADSR_currentAddr (v : Voice.t) :
  Voice.currentAddr (updateADSR v) = Voice.currentAddr v.
Proof.
  unfold updateADSR. destruct (Voice.keyOn v); [reflexivity|].
  destruct (Voice.keyOff v); reflexivity.
Qed.

Lemma ticked_keyOn (v : Voice.t) : Voice.keyOn (ticked v) = Voice.keyOn v.
Proof.
  unfold ticked, updateADSR. destruct (Voice.keyOn v) eqn:E; [exact E|].
  destruct (Voice.keyOff v); exact E.
Qed.

Lemma ticked_adsr1 (v : Voice.t) : Voice.adsr1 (ticked v) = Voice.adsr1 v.
Proof.
  unfold ticked, updateADSR. destruct (Voice.keyOn v); [reflexivity|].
  destruct (Voice.keyOff v); reflexivity.
Qed.

Lemma ticked_adsrVolume (v : Voice.t) :
  Voice.adsrVolume (ticked v) = Voice.adsrVolume (updateADSR v).
Proof. reflexivity. Qed.

Lemma ticked_aligned (v : Voice.t) : aligned v -> aligned (ticked v).
Proof.
  intros [H0 He]. unfold aligned, ticked.
  cbn [Voice.currentAddr Voice.set_currentAddr].
  rewrite updateADSR_currentAddr. unfold u32. split.
  - apply Z.mod_pos_bound. lia.
  - change 0x100000000 with (2 ^ 32). apply even_mod_pow2; [lia|].
    rewrite Z.even_add, He, Z.even_mul. simpl. now rewrite orb_true_r.
Qed.

(** The two bytes of the sample a voice plays lie inside the sample RAM. *)
Lemma sample_address_in_ram (s : state) (v : Voice.t) :
  ram_ready s -> aligned v ->
  let addr := Z.land (Voice.currentAddr v) (ram_mask s) in
  0 <= addr /\ addr + 1 < Z.of_nat (length (spuRam s)).
Proof.
  intros (k & Hk & Hlen) [H0 He]. unfold ram_mask. rewrite Hlen.
  assert (Hp : 2 <= 2 ^ k <= 2 ^ 32).
  { split.
    - change 2 with (2 ^ 1) at 1. apply Z.pow_le_mono_r; lia.
    - apply Z.pow_le_mono_r; lia. }
  rewrite Z.mod_small by lia.
  replace (2 ^ k - 1) with (Z.ones k) by (rewrite Z.ones_equiv; lia).
  rewrite Z.land_ones by lia. cbv zeta.
  pose proof (Z.mod_pos_bound (Voice.currentAddr v) (2 ^ k) ltac:(lia)) as Hb.
  pose proof (even_mod_pow2 _ k ltac:(lia) He) as Hev.
  apply Z.even_spec in Hev as [a Ha].
  assert (Hk2 : 2 ^ k = 2 * 2 ^ (k - 1)).
  { rewrite <- Z.pow_succ_r by lia. f_equal. lia. }
  lia.
Qed.

Lemma processVoice_ticks (i : Z) (s : state) (v : Voice.t) :
  ram_ready s -> voices s !! Z.to_nat i = Some v -> 0 <= i -> aligned v ->
  exists s',
    processVoice i s = Ok s' /\
    voices s' = <[Z.to_nat i := ticked v]> (voices s) /\
    spuRam s' = spuRam s.
Proof.
  intros Hram Hv Hi Hal. unfold processVoice.
  pose proof (lookup_lt_Some _ _ _ Hv) as Hlt.
  destruct (Z.leb_spec (Z.of_nat (length (voices s))) i); [lia|].
  rewrite (at_lookup _ _ v) by auto. cbn [res_bind].
  destruct (sample_address_in_ram s (updateADSR v) Hram) as [Ha0 Ha1].
  { unfold aligned. now rewrite updateADSR_currentAddr. }
  destruct (at_in_range (spuRam s)
              (Z.land (Voice.currentAddr (updateADSR v)) (ram_mask s) + 1))
    as [hi ->]; [lia|].
  destruct (at_in_range (spuRam s)
              (Z.land (Voice.currentAddr (updateADSR v)) (ram_mask s)))
    as [lo ->]; [lia|].
  cbn [res_bind]. rewrite store_ok by lia. cbn [res_bind].
  eexists. split; [reflexivity|]. split; reflexivity.
Qed.

Lemma index_elsewhere (j : nat) (i : Z) (rest : list Z) :
  j <> Z.to_nat i ->
  bool_decide (Z.of_nat j ∈ i :: rest) = bool_decide (Z.of_nat j ∈ rest).
Proof.
  intros Hne. apply bool_decide_ext. rewrite elem_of_cons.
  split; [|auto]. intros [Heq|]; [|auto].
  exfalso. apply Hne. rewrite <- Heq. now rewrite Nat2Z.id.
Qed.

(** The voice loop ticks exactly the keyed-on voices it is given. *)
Lemma voice_loop_ticks (indices : list Z) :
  NoDup indices ->
  forall s : state,
    ram_ready s -> Forall aligned (voices s) ->
    Forall (fun i => 0 <= i < Z.of_nat (length (voices s))) indices ->
    exists s',
      voice_loop indices s = Ok s' /\
      spuRam s' = spuRam s /\
      Forall aligned (voices s') /\
      forall (j : nat) (v : Voice.t),
        voices s !! j = Some v ->
        voices s' !! j
        = Some (if bool_decide (Z.of_nat j ∈ indices) && Voice.keyOn v
                then ticked v else v).
Proof.
  induction 1 as [|i rest Hnotin Hnd IH]; intros s Hram Hal Hrange.
  - exists s. repeat split; auto.
  - apply Forall_cons in Hrange as [Hi Hrange]. cbn [voice_loop].
    destruct (lookup_lt_is_Some_2 (voices s) (Z.to_nat i)) as [vi Hvi];
      [lia|].
    rewrite (at_lookup _ _ vi) by (auto; lia). cbn [res_bind].
    assert (Hali : aligned vi)
      by (rewrite Forall_lookup in Hal; eapply Hal; eauto).
    destruct (Voice.keyOn vi) eqn:Hon.
    + destruct (processVoice_ticks i s vi Hram Hvi ltac:(lia) Hali)
        as (s1 & Hproc & Hvs & Hr1).
      rewrite Hproc. cbn [res_bind].
      destruct (IH s1) as (s' & Hloop & Hr' & Hal' & Hlook).
      * destruct Hram as (k & Hk & Hlen). exists k. now rewrite Hr1.
      * rewrite Hvs. apply Forall_insert; [exact Hal|].
        now apply ticked_aligned.
      * rewrite Hvs, length_insert. exact Hrange.
      * exists s'. split; [exact Hloop|]. split; [congruence|].
        split; [exact Hal'|]. intros j v Hj.
        destruct (decide (j = Z.to_nat i)) as [->|Hne].
        -- rewrite Hvi in Hj. injection Hj as <-.
           rewrite (Hlook (Z.to_nat i) (ticked vi)).
           2:{ rewrite Hvs. apply list_lookup_insert_eq.
               eapply lookup_lt_Some; eauto. }
           rewrite Z2Nat.id by lia.
           rewrite (bool_decide_eq_false_2 _ Hnotin). cbn [andb].
           rewrite bool_decide_eq_true_2 by apply list_elem_of_here.
           now rewrite Hon.
        -- rewrite (Hlook j v).
           2:{ rewrite Hvs. now rewrite list_lookup_insert_ne by auto. }
           now rewrite (index_elsewhere j i rest Hne).
    + destruct (IH s Hram Hal Hrange) as (s' & Hloop & Hr' & Hal' & Hlook).
      exists s'. split; [exact Hloop|]. split; [exact Hr'|].
      split; [exact Hal'|]. intros j v Hj. rewrite (Hlook j v Hj).
      destruct (decide (j = Z.to_nat i)) as [->|Hne].
      * rewrite Hvi in Hj. injection Hj as <-. rewrite Hon, !andb_false_r.
        reflexivity.
      * now rewrite (index_elsewhere j i rest Hne).
Qed.

(** One tick of a sound unit whose sample RAM is in place: it returns, and
    every keyed-on voice has been ticked once. *)
Lemma step_ticks (s : state) :
  ram_ready s -> Forall aligned (voices s) ->
  exists s',
    step s = Ok s' /\ ram_ready s' /\ Forall aligned (voices s') /\
    forall (j : nat) (v : Voice.t),
      voices s !! j = Some v ->
      voices s' !! j = Some (if Voice.keyOn v then ticked v else v).
Proof.
  intros Hram Hal. unfold step.
  destruct (voice_loop_ticks (seqZ 0 (Z.of_nat (length (voices s))))
              (NoDup_seqZ _ _) s Hram Hal)
    as (s1 & Hloop & Hr1 & Hal1 & Hlook).
  { apply Forall_forall. intros i Hi. apply elem_of_seqZ in Hi. lia. }
  rewrite Hloop. cbn [res_bind]. unfold checkIRQ.
  eexists. split; [reflexivity|].
  destruct (after_voice_loop_frame s1) as [Hv Hr].
  rewrite Hv. split; [|split; [exact Hal1|]].
  - destruct Hram as (k & Hk & Hlen). exists k. now rewrite Hr, Hr1.
  - intros j v Hj. rewrite (Hlook j v Hj).
    rewrite bool_decide_eq_true_2; [reflexivity|].
    apply elem_of_seqZ. pose proof (lookup_lt_Some _ _ _ Hj). lia.
Qed.

(** One attack tick adds the attack rate, the high byte of [adsr1], and
    saturates at full scale. *)
Lemma attack_tick (v : Voice.t) :
  Voice.keyOn v = true ->
  0 <= Voice.adsrVolume v <= 0x7FFF -> 0 <= Voice.adsr1 v < 0x10000 ->
  Voice.adsrVolume (updateADSR v)
  = Z.min (Voice.adsrVolume v + Z.shiftr (Voice.adsr1 v) 8) 0x7FFF.
Proof.
  intros Hon Hvol Hrate. unfold updateADSR. rewrite Hon.
  cbn [Voice.adsrVolume Voice.set_adsrVolume].
  assert (0 <= Z.shiftr (Voice.adsr1 v) 8 < 0x100) as Hr.
  { rewrite Z.shiftr_div_pow2 by lia. change (2 ^ 8) with 256.
    split; [apply Z.div_pos; lia|apply Z.div_lt_upper_bound; lia]. }
  unfold u32, u16. rewrite (Z.mod_small (_ + _)) by lia.
  apply Z.mod_small. lia.
Qed.

(** Attack works as specified: [n] ticks of a keyed-on voice with attack
    rate [R] bring its amplitude to [min (amplitude + n * R) 0x7FFF]. *)
Lemma attack_after_ticks (n : nat) :
  forall (s : state) (j : nat) (v : Voice.t),
    ram_ready s -> Forall aligned (voices s) ->
    voices s !! j = Some v -> Voice.keyOn v = true ->
    0 <= Voice.adsrVolume v <= 0x7FFF -> 0 <= Voice.adsr1 v < 0x10000 ->
    exists s',
      steps n s = Ok s' /\
      amplitude j s'
      = Some (Z.min (Voice.adsrVolume v
                     + Z.of_nat n * Z.shiftr (Voice.adsr1 v) 8) 0x7FFF).
Proof.
  induction n as [|n IH]; intros s j v Hram Hal Hj Hon Hvol Hrate.
  - exists s. split; [reflexivity|]. unfold amplitude. rewrite Hj.
    cbn [fmap option_fmap option_map]. f_equal. lia.
  - destruct (step_ticks s Hram Hal) as (s1 & Hstep & Hram1 & Hal1 & Hlook).
    specialize (Hlook j v Hj). rewrite Hon in Hlook.
    assert (0 <= Z.shiftr (Voice.adsr1 v) 8) as Hr.
    { rewrite Z.shiftr_div_pow2 by lia. apply Z.div_pos; lia. }
    destruct (IH s1 j (ticked v) Hram1 Hal1 Hlook) as (s' & Hrun & Hamp).
    + now rewrite ticked_keyOn.
    + rewrite ticked_adsrVolume, attack_tick by assumption. lia.
    + now rewrite ticked_adsr1.
    + exists s'. split.
      * cbn [steps]. rewrite Hstep. exact Hrun.
      * rewrite Hamp, ticked_adsr1, ticked_adsrVolume, attack_tick
          by assumption.
        f_equal. lia.
Qed.

(** So the amplitude never decreases during attack, and it is at full
    scale after [ceil ((0x7FFF - amplitude) / R)] ticks and from then on. *)
Lemma attack_reaches_full_scale (s : state) (j : nat) (v : Voice.t) (n : nat) :
  ram_ready s -> Forall aligned (voices s) ->
  voices s !! j = Some v -> Voice.keyOn v = true ->
  0 <= Voice.adsrVolume v <= 0x7FFF -> 0 <= Voice.adsr1 v < 0x10000 ->
  0 < Z.shiftr (Voice.adsr1 v) 8 ->
  (0x7FFF - Voice.adsrVolume v + Z.shiftr (Voice.adsr1 v) 8 - 1)
    / Z.shiftr (Voice.adsr1 v) 8 <= Z.of_nat n ->
  exists s', steps n s = Ok s' /\ amplitude j s' = Some 0x7FFF.
Proof.
  intros Hram Hal Hj Hon Hvol Hrate Hpos Hn.
  destruct (attack_after_ticks n s j v Hram Hal Hj Hon Hvol Hrate)
    as (s' & Hrun & Hamp).
  exists s'. split; [exact Hrun|]. rewrite Hamp. f_equal.
  set (R := Z.shiftr (Voice.adsr1 v) 8) in *.
  set (a := Voice.adsrVolume v) in *.
  assert (Hq : 0x7FFF - a <= Z.of_nat n * R).
  { pose proof (Z.div_mod (0x7FFF - a + R - 1) R ltac:(lia)) as Hdm.
    pose proof (Z.mod_pos_bound (0x7FFF - a + R - 1) R Hpos) as Hmb.
    nia. }
  lia.
Qed.

Lemma attack_is_monotone (s : state) (j : nat) (v : Voice.t) (n : nat) :
  ram_ready s -> Forall aligned (voices s) ->
  voices s !! j = Some v -> Voice.keyOn v = true ->
  0 <= Voice.adsrVolume v <= 0x7FFF -> 0 <= Voice.adsr1 v < 0x10000 ->
  exists s1 s2 a1 a2,
    steps n s = Ok s1 /\ steps (S n) s = Ok s2 /\
    amplitude j s1 = Some a1 /\ amplitude j s2 = Some a2 /\ a1 <= a2.
Proof.
  intros Hram Hal Hj Hon Hvol Hrate.
  destruct (attack_after_ticks n s j v Hram Hal Hj Hon Hvol Hrate)
    as (s1 & Hrun1 & Hamp1).
  destruct (attack_after_ticks (S n) s j v Hram Hal Hj Hon Hvol Hrate)
    as (s2 & Hrun2 & Hamp2).
  exists s1, s2. do 2 eexists.
  split; [exact Hrun1|]. split; [exact Hrun2|].
  split; [exact Hamp1|]. split; [exact Hamp2|].
  assert (0 <= Z.shiftr (Voice.adsr1 v) 8) as Hr.
  { rewrite Z.shiftr_div_pow2 by lia. apply Z.div_pos; lia. }
  lia.
Qed.

Lemma spu_attacking_ready :
  ram_ready spu_attacking /\ Forall aligned (voices spu_attacking) /\
  voices spu_attacking !! 0%nat = Some (attacking_voice 0xFF).
Proof.
  split; [|split; [|reflexivity]].
  - exists 19. split; [lia|].
    change (spuRam spu_attacking)
      with (replicate (length (replicate (Z.to_nat SPU_RAM_SIZE) 0)) 0).
    rewrite !length_replicate, Z2Nat.id by (unfold SPU_RAM_SIZE; lia).
    reflexivity.
  - change (voices spu_attacking)
      with (attacking_voice 0xFF :: replicate 23 Voice.zero).
    constructor; [|apply Forall_replicate];
      (split; [vm_compute; discriminate|reflexivity]).
Qed.

(** At the fastest attack rate full scale is reached in 129 ticks. *)
Example fastest_attack_takes_129_ticks :
  exists s', steps 129 spu_attacking = Ok s' /\ amplitude 0 s' = Some 0x7FFF.
Proof.
  destruct spu_attacking_ready as (Hram & Hal & Hv).
  apply (attack_reaches_full_scale spu_attacking 0 (attacking_voice 0xFF) 129
           Hram Hal Hv); try reflexivity; vm_compute; intuition discriminate.
Qed.

(** The release branch itself, were it reached (through the public
    [processVoice]): with the bound [0u] the subtraction is unsigned, so
    below zero the amplitude wraps instead of stopping at zero. *)
Example release_tick_below_zero_wraps :
  Voice.adsrVolume
    (updateADSR (Voice.mk 0x3FFF 0x1000 0 0 0xFF00 0x00FF 0x007F false true))
  = 0xFF80.
Proof. reflexivity. Qed.

(** A voice keyed off while its key-on latch is still set stays in the
    attack branch: at full scale it stays at full scale. *)
Lemma held_voice_stays_at_full_scale :
  Voice.keyOn held_voice = true /\ Voice.keyOff held_voice = true /\
  Voice.adsrVolume (updateADSR held_voice) = 0x7FFF.
Proof. repeat split. Qed.

End SPUFacts.

(** * Further properties of the code *)

(** ** Game Boy CPU operations *)

Module CpuFacts.

Import Int GameBoyEmulator Samples Observations.
Local Open Scope gb_scope.

Local Arguments flag_set : simpl never.
Local Arguments flag_get : simpl never.
Local Arguments Z.testbit : simpl never.

(** A property of every byte, checked on the 256 bytes. *)
Lemma all_bytes (P : Z -> bool) :
  forallb P (seqZ 0 0x100) = true -> forall v, is_u8 v -> P v = true.
Proof.
  intros Hall v Hv. rewrite forallb_forall in Hall. apply Hall.
  apply list_elem_of_In, elem_of_seqZ. unfold is_u8 in Hv. lia.
Qed.

(** The flags register after a flag was written, flag by flag. *)
Lemma flags_after (s : state) (f : Z) :
  eval getZeroFlag (set_registers (Registers.set_f f (registers s)) s)
  = Ok (flag_get ZERO_FLAG f) /\
  eval getSubtractFlag (set_registers (Registers.set_f f (registers s)) s)
  = Ok (flag_get SUBTRACT_FLAG f) /\
  eval getHalfCarryFlag (set_registers (Registers.set_f f (registers s)) s)
  = Ok (flag_get HALF_CARRY_FLAG f) /\
  eval getCarryFlag (set_registers (Registers.set_f f (registers s)) s)
  = Ok (flag_get CARRY_FLAG f).
Proof. repeat split. Qed.

(** X1.  The 8-bit decrement returns [operand - 1] modulo 256; afterwards
    zero tells whether the result is 0, subtract is set, half-carry tells
    whether the low nibble of the operand was 0 (a borrow from bit 4), and
    carry is what it was before; nothing but the flags register changes. *)
Theorem dec_flags (s : state) (operand : Z) :
  exists s',
    dec operand s = Ok ((operand - 1) mod 256, s') /\
    eval getZeroFlag s' = Ok ((operand - 1) mod 256 =? 0) /\
    eval getSubtractFlag s' = Ok true /\
    eval getHalfCarryFlag s' = Ok (Z.land operand 0x0F =? 0) /\
    eval getCarryFlag s' = eval getCarryFlag s /\
    s' = set_registers
           (Registers.set_f (Registers.f (registers s')) (registers s)) s.
Proof.
  eexists. split; [reflexivity|].
  unfold eval, getHalfCarryFlag, getZeroFlag, getSubtractFlag, getCarryFlag,
    getFlag, get. simpl.
  flag_masks. rewrite !GameBoyFacts.flag_get_set by lia. simpl.
  repeat split.
Qed.

(** The carry flag after the four flag writes of a rotation. *)
Lemma carry_after_rotation (f : Z) (z c : bool) :
  flag_get CARRY_FLAG
    (flag_set CARRY_FLAG c
       (flag_set HALF_CARRY_FLAG false
          (flag_set SUBTRACT_FLAG false (flag_set ZERO_FLAG z f))))
  = c.
Proof. flag_masks. now rewrite GameBoyFacts.flag_get_set by lia. Qed.

Lemma bit7_is_carry (v : Z) :
  is_u8 v -> truthy (Z.land v 0x80) = Z.testbit v 7.
Proof.
  intros Hv. apply Bool.eqb_prop.
  apply (all_bytes (fun v => Bool.eqb (truthy (Z.land v 0x80)) (Z.testbit v 7)));
    [vm_compute; reflexivity|exact Hv].
Qed.

Lemma bit0_is_carry (v : Z) :
  is_u8 v -> truthy (Z.land v 0x01) = Z.testbit v 0.
Proof.
  intros Hv. apply Bool.eqb_prop.
  apply (all_bytes (fun v => Bool.eqb (truthy (Z.land v 0x01)) (Z.testbit v 0)));
    [vm_compute; reflexivity|exact Hv].
Qed.

(** X2.  The circular rotations are inverse to each other on bytes:
    [rrc] of the result of [rlc] returns the operand, and [rlc] of the
    result of [rrc] does; in both orders the carry flag holds the bit that
    went round, bit 7 of the operand after [rlc] and bit 0 after [rrc]. *)
Theorem rlc_rrc_round_trip (s : state) (v : Z) :
  is_u8 v ->
  (exists r s1 s2,
     rlc v s = Ok (r, s1) /\ rrc r s1 = Ok (v, s2) /\
     eval getCarryFlag s1 = Ok (Z.testbit v 7) /\
     eval getCarryFlag s2 = Ok (Z.testbit v 7)) /\
  (exists r s1 s2,
     rrc v s = Ok (r, s1) /\ rlc r s1 = Ok (v, s2) /\
     eval getCarryFlag s1 = Ok (Z.testbit v 0) /\
     eval getCarryFlag s2 = Ok (Z.testbit v 0)).
Proof.
  intros Hv. split.
  - assert (Hback :
      u8 (Z.lor (Z.shiftr (u8 (Z.lor (Z.shiftl v 1) (Z.shiftr v 7))) 1)
            (Z.shiftl (u8 (Z.lor (Z.shiftl v 1) (Z.shiftr v 7))) 7)) = v).
    { apply Z.eqb_eq.
      apply (all_bytes (fun v =>
        u8 (Z.lor (Z.shiftr (u8 (Z.lor (Z.shiftl v 1) (Z.shiftr v 7))) 1)
              (Z.shiftl (u8 (Z.lor (Z.shiftl v 1) (Z.shiftr v 7))) 7)) =? v));
        [vm_compute; reflexivity|exact Hv]. }
    assert (Hbit :
      truthy (Z.land (u8 (Z.lor (Z.shiftl v 1) (Z.shiftr v 7))) 0x01)
      = Z.testbit v 7).
    { apply Bool.eqb_prop.
      apply (all_bytes (fun v => Bool.eqb
        (truthy (Z.land (u8 (Z.lor (Z.shiftl v 1) (Z.shiftr v 7))) 0x01))
        (Z.testbit v 7))); [vm_compute; reflexivity|exact Hv]. }
    do 3 eexists. split; [reflexivity|]. split.
    + unfold rrc. rewrite Hback. reflexivity.
    + unfold eval, getCarryFlag, getFlag, get. simpl.
      rewrite !carry_after_rotation, Hbit, bit7_is_carry by exact Hv.
      split; reflexivity.
  - assert (Hback :
      u8 (Z.lor (Z.shiftl (u8 (Z.lor (Z.shiftr v 1) (Z.shiftl v 7))) 1)
            (Z.shiftr (u8 (Z.lor (Z.shiftr v 1) (Z.shiftl v 7))) 7)) = v).
    { apply Z.eqb_eq.
      apply (all_bytes (fun v =>
        u8 (Z.lor (Z.shiftl (u8 (Z.lor (Z.shiftr v 1) (Z.shiftl v 7))) 1)
              (Z.shiftr (u8 (Z.lor (Z.shiftr v 1) (Z.shiftl v 7))) 7)) =? v));
        [vm_compute; reflexivity|exact Hv]. }
    assert (Hbit :
      truthy (Z.land (u8 (Z.lor (Z.shiftr v 1) (Z.shiftl v 7))) 0x80)
      = Z.testbit v 0).
    { apply Bool.eqb_prop.
      apply (all_bytes (fun v => Bool.eqb
        (truthy (Z.land (u8 (Z.lor (Z.shiftr v 1) (Z.shiftl v 7))) 0x80))
        (Z.testbit v 0))); [vm_compute; reflexivity|exact Hv]. }
    do 3 eexists. split; [reflexivity|]. split.
    + unfold rlc. rewrite Hback. reflexivity.
    + unfold eval, getCarryFlag, getFlag, get. simpl.
      rewrite !carry_after_rotation, Hbit, bit0_is_carry by exact Hv.
      split; reflexivity.
Qed.

Lemma rlc_rrc_round_trip_witness :
  is_u8 0x81 /\
  exists r s1 s2,
    rlc 0x81 power_on = Ok (r, s1) /\ rrc r s1 = Ok (0x81, s2) /\
    eval getCarryFlag s1 = Ok (Z.testbit 0x81 7) /\
    eval getCarryFlag s2 = Ok (Z.testbit 0x81 7).
Proof.
  assert (Hv : is_u8 0x81) by (unfold is_u8; lia).
  split; [exact Hv|]. exact (proj1 (rlc_rrc_round_trip power_on 0x81 Hv)).
Defined.

(** X3.  The rotations through carry are inverse to each other on the
    nine bits made of the byte and the carry flag: [rr] of the result of
    [rl] returns the operand and restores the carry flag the pair started
    from; in between the carry flag holds bit 7 of the operand. *)
Theorem rl_rr_round_trip (s : state) (v : Z) :
  is_u8 v ->
  exists r s1 s2,
    rl v s = Ok (r, s1) /\ rr r s1 = Ok (v, s2) /\
    eval getCarryFlag s1 = Ok (Z.testbit v 7) /\
    eval getCarryFlag s2 = eval getCarryFlag s.
Proof.
  intros Hv.
  assert (Hback : forall cy : bool,
    u8 (Z.lor (Z.shiftr (u8 (Z.lor (Z.shiftl v 1) (if cy then 1 else 0))) 1)
          (if Z.testbit v 7 then 0x80 else 0)) = v).
  { intros cy. apply Z.eqb_eq.
    destruct cy;
      [apply (all_bytes (fun v =>
         u8 (Z.lor (Z.shiftr (u8 (Z.lor (Z.shiftl v 1) 1)) 1)
               (if Z.testbit v 7 then 0x80 else 0)) =? v))
      |apply (all_bytes (fun v =>
         u8 (Z.lor (Z.shiftr (u8 (Z.lor (Z.shiftl v 1) 0)) 1)
               (if Z.testbit v 7 then 0x80 else 0)) =? v))];
      first [exact Hv|vm_compute; reflexivity]. }
  assert (Hbit : forall cy : bool,
    truthy (Z.land (u8 (Z.lor (Z.shiftl v 1) (if cy then 1 else 0))) 0x01)
    = cy).
  { intros cy. apply Bool.eqb_prop.
    destruct cy;
      [apply (all_bytes (fun v => Bool.eqb
         (truthy (Z.land (u8 (Z.lor (Z.shiftl v 1) 1)) 0x01)) true))
      |apply (all_bytes (fun v => Bool.eqb
         (truthy (Z.land (u8 (Z.lor (Z.shiftl v 1) 0)) 0x01)) false))];
      first [exact Hv|vm_compute; reflexivity]. }
  do 3 eexists.
  split; [unfold rl, bind, getCarryFlag, getFlag, get; simpl; reflexivity|].
  split.
  - unfold rr, bind, getCarryFlag, getFlag, get. simpl.
    rewrite carry_after_rotation, bit7_is_carry, Hback by exact Hv.
    reflexivity.
  - unfold eval, getCarryFlag, getFlag, get. simpl.
    rewrite !carry_after_rotation, Hbit, bit7_is_carry by exact Hv.
    split; reflexivity.
Qed.

Lemma rl_rr_round_trip_witness :
  is_u8 0x81 /\
  exists r s1 s2,
    rl 0x81 power_on = Ok (r, s1) /\ rr r s1 = Ok (0x81, s2) /\
    eval getCarryFlag s1 = Ok (Z.testbit 0x81 7) /\
    eval getCarryFlag s2 = eval getCarryFlag power_on.
Proof.
  assert (Hv : is_u8 0x81) by (unfold is_u8; lia).
  split; [exact Hv|]. exact (rl_rr_round_trip power_on 0x81 Hv).
Defined.

(** *** Decimal adjust *)

(** A property of every pair of two-digit decimal numbers, checked on
    the 10000 pairs. *)
Lemma all_decimal_pairs (P : Z -> Z -> bool) :
  forallb (fun x => forallb (P x) (seqZ 0 100)) (seqZ 0 100) = true ->
  forall x y, 0 <= x < 100 -> 0 <= y < 100 -> P x y = true.
Proof.
  intros Hall x y Hx Hy. rewrite forallb_forall in Hall.
  specialize (Hall x). rewrite forallb_forall in Hall.
  apply Hall; apply list_elem_of_In, elem_of_seqZ; lia.
Qed.

(** [daa] always returns; it acts on the accumulator and the carry flag
    as [daa_value], sets zero from the result, clears half-carry and keeps
    subtract. *)
Lemma daa_run (s : state) :
  let f := Registers.f (registers s) in
  let out := daa_value (Registers.a (registers s)) (flag_get SUBTRACT_FLAG f)
               (flag_get HALF_CARRY_FLAG f) (flag_get CARRY_FLAG f) in
  exists f',
    daa s
    = Ok (tt, set_registers
                (Registers.set_a (fst out)
                   (Registers.set_f f' (registers s))) s) /\
    flag_get ZERO_FLAG f' = (fst out =? 0) /\
    flag_get SUBTRACT_FLAG f' = flag_get SUBTRACT_FLAG f /\
    flag_get HALF_CARRY_FLAG f' = false /\
    flag_get CARRY_FLAG f' = snd out.
Proof.
  cbv zeta.
  unfold daa, daa_value, reg, getSubtractFlag, getCarryFlag,
    getHalfCarryFlag, getFlag, setZeroFlag, setHalfCarryFlag, setCarryFlag,
    setFlag, set_reg.
  run_m.
  destruct (flag_get SUBTRACT_FLAG (Registers.f (registers s))) eqn:En;
    cbn [negb]; run_m.
  - destruct (flag_get CARRY_FLAG (Registers.f (registers s))) eqn:Ec;
      destruct (flag_get HALF_CARRY_FLAG (Registers.f (registers s))) eqn:Eh;
      run_m; (eexists; split; [reflexivity|]);
      cbn [registers set_registers Registers.f Registers.set_f];
      flag_masks; rewrite !GameBoyFacts.flag_get_set by lia;
      cbn [Z.eqb Pos.eqb fst snd]; rewrite ?En, ?Ec; auto.
  - destruct (flag_get CARRY_FLAG (Registers.f (registers s))
              || (153 <? Registers.a (registers s))) eqn:Ec.
    + run_m. cbn [registers set_registers Registers.f Registers.set_f].
      flag_masks. rewrite GameBoyFacts.flag_get_set by lia.
      cbn [Z.eqb Pos.eqb].
      eexists; split; [reflexivity|].
      cbn [registers set_registers Registers.f Registers.set_f].
      rewrite !GameBoyFacts.flag_get_set by lia.
      cbn [Z.eqb Pos.eqb fst snd]. rewrite ?En. auto.
    + run_m. apply orb_false_iff in Ec as [Ec1 Ec2].
      eexists; split; [reflexivity|].
      cbn [registers set_registers Registers.f Registers.set_f].
      flag_masks.
      rewrite !GameBoyFacts.flag_get_set by lia.
      cbn [Z.eqb Pos.eqb fst snd]. rewrite ?En, ?Ec1. auto.
Qed.

(** X4.  [daa] after an addition of packed-BCD bytes yields the packed-BCD
    sum: with the accumulator holding the binary sum of the BCD codes of
    [x] and [y] and the flags as that addition leaves them, [daa] returns
    and leaves the BCD code of [(x + y) mod 100] in the accumulator and
    the decimal carry ([x + y >= 100]) in the carry flag; zero is set from
    the result and half-carry cleared. *)
Theorem daa_adjusts_bcd_sum (s : state) (x y : Z) :
  0 <= x < 100 -> 0 <= y < 100 ->
  Registers.a (registers s) = u8 (bcd x + bcd y) ->
  eval getSubtractFlag s = Ok false ->
  eval getHalfCarryFlag s
  = Ok (0x0F <? Z.land (bcd x) 0x0F + Z.land (bcd y) 0x0F) ->
  eval getCarryFlag s = Ok (0xFF <? bcd x + bcd y) ->
  exists s',
    daa s = Ok (tt, s') /\
    Registers.a (registers s') = bcd ((x + y) mod 100) /\
    eval getCarryFlag s' = Ok (100 <=? x + y) /\
    eval getZeroFlag s' = Ok ((x + y) mod 100 =? 0) /\
    eval getHalfCarryFlag s' = Ok false /\
    eval getSubtractFlag s' = Ok false.
Proof.
  intros Hx Hy Ha Hn Hh Hc.
  unfold eval, getSubtractFlag, getHalfCarryFlag, getCarryFlag, getFlag, get
    in Hn, Hh, Hc.
  cbn [res_bind fst] in Hn, Hh, Hc.
  injection Hn as Hn. injection Hh as Hh. injection Hc as Hc.
  destruct (daa_run s) as (f' & E & Hz' & Hn' & Hh' & Hc').
  rewrite Ha, Hn, Hh, Hc in *.
  assert (Hval :
    daa_value (u8 (bcd x + bcd y)) false
      (0x0F <? Z.land (bcd x) 0x0F + Z.land (bcd y) 0x0F)
      (0xFF <? bcd x + bcd y)
    = (bcd ((x + y) mod 100), 100 <=? x + y)).
  { pose (check := fun x y =>
        let out := daa_value (u8 (bcd x + bcd y)) false
                     (0x0F <? Z.land (bcd x) 0x0F + Z.land (bcd y) 0x0F)
                     (0xFF <? bcd x + bcd y) in
        (fst out =? bcd ((x + y) mod 100))
        && Bool.eqb (snd out) (100 <=? x + y)).
    assert (Hok : check x y = true)
      by (apply all_decimal_pairs; [vm_compute; reflexivity|lia|lia]).
    unfold check in Hok. cbv beta zeta in Hok. apply andb_true_iff in Hok as [H1 H2].
    apply Z.eqb_eq in H1. apply Bool.eqb_prop in H2.
    apply injective_projections; assumption. }
  rewrite Hval in *. cbn [fst snd] in *.
  eexists. split; [exact E|].
  assert (Hbcd : forall n, 0 <= n < 100 -> (bcd n =? 0) = (n =? 0)).
  { intros n Hn0. unfold bcd.
    destruct (Z.eqb_spec n 0) as [->|Hne]; [reflexivity|].
    apply Z.eqb_neq.
    pose proof (Z.div_mod n 10 ltac:(lia)).
    pose proof (Z.mod_pos_bound n 10 ltac:(lia)).
    assert (0 <= n / 10) by (apply Z.div_pos; lia). lia. }
  unfold eval, getSubtractFlag, getHalfCarryFlag, getCarryFlag, getZeroFlag,
    getFlag, get.
  cbn [res_bind fst snd registers set_registers Registers.a Registers.f
       Registers.set_a Registers.set_f].
  rewrite Hz', Hn', Hh', Hc', Hbcd by (apply Z.mod_pos_bound; lia).
  repeat split.
Qed.

Lemma daa_adjusts_bcd_sum_witness :
  let s := set_registers
             (Registers.mk 0xBF 0x00 0 0 0 0 0 0 0xFFFE 0x0100) power_on in
  exists s',
    daa s = Ok (tt, s') /\
    Registers.a (registers s') = bcd ((58 + 67) mod 100) /\
    eval getCarryFlag s' = Ok (100 <=? 58 + 67) /\
    eval getZeroFlag s' = Ok ((58 + 67) mod 100 =? 0) /\
    eval getHalfCarryFlag s' = Ok false /\
    eval getSubtractFlag s' = Ok false.
Proof.
  cbv zeta.
  apply (daa_adjusts_bcd_sum
           (set_registers
              (Registers.mk 0xBF 0x00 0 0 0 0 0 0 0xFFFE 0x0100) power_on)
           58 67); first [lia | reflexivity].
Defined.

(** X5.  [daa] after a subtraction of packed-BCD bytes yields the
    packed-BCD difference: with the accumulator holding the binary
    difference of the BCD codes of [x] and [y], subtract set and the
    borrows of that subtraction in half-carry and carry, [daa] returns and
    leaves the BCD code of [(x - y) mod 100] in the accumulator; the carry
    flag keeps the decimal borrow ([x < y]). *)
Theorem daa_adjusts_bcd_difference (s : state) (x y : Z) :
  0 <= x < 100 -> 0 <= y < 100 ->
  Registers.a (registers s) = u8 (bcd x - bcd y) ->
  eval getSubtractFlag s = Ok true ->
  eval getHalfCarryFlag s
  = Ok (Z.land (bcd x) 0x0F <? Z.land (bcd y) 0x0F) ->
  eval getCarryFlag s = Ok (bcd x <? bcd y) ->
  exists s',
    daa s = Ok (tt, s') /\
    Registers.a (registers s') = bcd ((x - y) mod 100) /\
    eval getCarryFlag s' = Ok (x <? y) /\
    eval getZeroFlag s' = Ok ((x - y) mod 100 =? 0) /\
    eval getHalfCarryFlag s' = Ok false /\
    eval getSubtractFlag s' = Ok true.
Proof.
  intros Hx Hy Ha Hn Hh Hc.
  unfold eval, getSubtractFlag, getHalfCarryFlag, getCarryFlag, getFlag, get
    in Hn, Hh, Hc.
  cbn [res_bind fst] in Hn, Hh, Hc.
  injection Hn as Hn. injection Hh as Hh. injection Hc as Hc.
  destruct (daa_run s) as (f' & E & Hz' & Hn' & Hh' & Hc').
  rewrite Ha, Hn, Hh, Hc in *.
  assert (Hval :
    daa_value (u8 (bcd x - bcd y)) true
      (Z.land (bcd x) 0x0F <? Z.land (bcd y) 0x0F) (bcd x <? bcd y)
    = (bcd ((x - y) mod 100), x <? y)).
  { pose (check := fun x y =>
        let out := daa_value (u8 (bcd x - bcd y)) true
                     (Z.land (bcd x) 0x0F <? Z.land (bcd y) 0x0F)
                     (bcd x <? bcd y) in
        (fst out =? bcd ((x - y) mod 100))
        && Bool.eqb (snd out) (x <? y)).
    assert (Hok : check x y = true)
      by (apply all_decimal_pairs; [vm_compute; reflexivity|lia|lia]).
    unfold check in Hok. cbv beta zeta in Hok. apply andb_true_iff in Hok as [H1 H2].
    apply Z.eqb_eq in H1. apply Bool.eqb_prop in H2.
    apply injective_projections; assumption. }
  rewrite Hval in *. cbn [fst snd] in *.
  eexists. split; [exact E|].
  assert (Hbcd : forall n, 0 <= n < 100 -> (bcd n =? 0) = (n =? 0)).
  { intros n Hn0. unfold bcd.
    destruct (Z.eqb_spec n 0) as [->|Hne]; [reflexivity|].
    apply Z.eqb_neq.
    pose proof (Z.div_mod n 10 ltac:(lia)).
    pose proof (Z.mod_pos_bound n 10 ltac:(lia)).
    assert (0 <= n / 10) by (apply Z.div_pos; lia). lia. }
  unfold eval, getSubtractFlag, getHalfCarryFlag, getCarryFlag, getZeroFlag,
    getFlag, get.
  cbn [res_bind fst snd registers set_registers Registers.a Registers.f
       Registers.set_a Registers.set_f].
  rewrite Hz', Hn', Hh', Hc', Hbcd by (apply Z.mod_pos_bound; lia).
  repeat split.
Qed.

Lemma daa_adjusts_bcd_difference_witness :
  let s := set_registers
             (Registers.mk 0xDD 0x70 0 0 0 0 0 0 0xFFFE 0x0100) power_on in
  exists s',
    daa s = Ok (tt, s') /\
    Registers.a (registers s') = bcd ((25 - 48) mod 100) /\
    eval getCarryFlag s' = Ok (25 <? 48) /\
    eval getZeroFlag s' = Ok ((25 - 48) mod 100 =? 0) /\
    eval getHalfCarryFlag s' = Ok false /\
    eval getSubtractFlag s' = Ok true.
Proof.
  cbv zeta.
  apply (daa_adjusts_bcd_difference
           (set_registers
              (Registers.mk 0xDD 0x70 0 0 0 0 0 0 0xFFFE 0x0100) power_on)
           25 48); first [lia | reflexivity].
Defined.

(** *** Relative jumps *)

Lemma u16_add_l (x k : Z) : u16 (u16 x + k) = u16 (x + k).
Proof. unfold u16. now rewrite Zplus_mod_idemp_l. Qed.

(** X6.  A relative jump ([JR], [JR NZ], [JR Z], [JR NC], [JR C]) is two
    bytes long whether it is taken or not: the step returns with the
    program counter at the address after the operand byte, plus the signed
    operand when the jump is taken, modulo 2^16, and changes nothing else.
    A jump that is not taken does not read its operand. *)
Theorem relative_jump (s : state) (opcode off : Z) (taken : bool) :
  jr_taken opcode (Registers.f (registers s)) = Some taken ->
  eval (readMemory_u16 (Registers.pc (registers s))) s = Ok opcode ->
  (taken = true ->
   eval (readMemory_u16 (u16 (Registers.pc (registers s) + 1))) s = Ok off) ->
  executeInstruction s
  = Ok (tt, set_registers
              (Registers.set_pc
                 (u16 (Registers.pc (registers s) + 2
                       + (if taken then i8 off else 0)))
                 (registers s)) s).
Proof.
  intros Hjr Hfetch Hoff.
  apply GameBoyFacts.eval_readMemory_u16 in Hfetch.
  assert (Hoff' : taken = true ->
            readMemory_at 1 s (u16 (Registers.pc (registers s) + 1)) = Ok off)
    by (intros Ht; apply GameBoyFacts.eval_readMemory_u16, Hoff, Ht).
  clear Hoff.
  unfold jr_taken in Hjr.
  destruct opcode as [|p|p]; try discriminate Hjr.
  do 7 (try destruct p as [p|p|]); try discriminate Hjr;
    injection Hjr as <-;
    unfold executeInstruction, fetch, jr, pc_add, getZeroFlag, getCarryFlag,
      getFlag, bind, reg, set_reg, get, modify, readMemory_u16;
    cbn [res_bind fst snd];
    rewrite GameBoyFacts.readMemory_at_set_registers, Hfetch;
    cbn [res_bind fst snd registers set_registers Registers.f Registers.pc
         Registers.set_pc];
    try destruct (flag_get _ (Registers.f (registers s)));
    cbn [negb res_bind fst snd registers set_registers Registers.f
         Registers.pc Registers.set_pc];
    rewrite ?GameBoyFacts.readMemory_at_set_registers, ?Hoff' by reflexivity;
    cbn [res_bind fst snd registers set_registers Registers.f Registers.pc
         Registers.set_pc];
    rewrite u16_add_l;
    replace (Registers.pc (registers s) + 1 + (i8 off + 1))
      with (Registers.pc (registers s) + 2 + i8 off) by lia;
    replace (Registers.pc (registers s) + 1 + 1)
      with (Registers.pc (registers s) + 2 + 0) by lia;
    reflexivity.
Qed.

Lemma relative_jump_witness :
  let s := set_registers
             (Registers.mk 0x01 0x80 0 0 0 0 0 0 0xFFFE 0xC000)
             (set_wramBank0
                (<[0%nat := 0x28]> (<[1%nat := 0xFE]> (wramBank0 power_on)))
                power_on) in
  executeInstruction s
  = Ok (tt, set_registers
              (Registers.set_pc
                 (u16 (Registers.pc (registers s) + 2
                       + (if true then i8 0xFE else 0)))
                 (registers s)) s).
Proof.
  cbv zeta.
  apply (relative_jump
           (set_registers
              (Registers.mk 0x01 0x80 0 0 0 0 0 0 0xFFFE 0xC000)
              (set_wramBank0
                 (<[0%nat := 0x28]> (<[1%nat := 0xFE]> (wramBank0 power_on)))
                 power_on))
           0x28 0xFE true); [reflexivity|lazy; reflexivity|].
  intros _. lazy. reflexivity.
Defined.

End CpuFacts.

(** ** Game Boy memory bus and I/O registers *)

Module BusFacts.

Import Int GameBoyEmulator Samples Observations.
Local Open Scope gb_scope.

Lemma at_insert_ne {A : Type} (c : list A) (i j : Z) (v : A) :
  0 <= i -> i <> j -> at_ (<[Z.to_nat i := v]> c) j = at_ c j.
Proof.
  intros Hi Hne. unfold at_. destruct (Z.ltb_spec j 0); [reflexivity|].
  rewrite list_lookup_insert_ne by lia. reflexivity.
Qed.

Lemma power_on_arrays : arrays_sized power_on.
Proof.
  unfold arrays_sized.
  change (romBank0 power_on) with (replicate (Z.to_nat 0x4000) 0xFF).
  change (vram power_on) with (replicate (Z.to_nat 0x2000) 0).
  change (wramBank0 power_on) with (replicate (Z.to_nat 0x2000) 0).
  change (oam power_on) with (replicate (Z.to_nat 0xA0) 0).
  change (io power_on) with (replicate (Z.to_nat 0x80) 0).
  change (hram power_on) with (replicate (Z.to_nat 0x7F) 0).
  rewrite !length_replicate. lia.
Qed.

(** What a bus read returns. *)
Lemma eval_read (s : state) (a : Z) :
  eval (readMemory_u16 a) s = readMemory_at 1 s a.
Proof.
  unfold eval, readMemory_u16. destruct (readMemory_at 1 s a); reflexivity.
Qed.

(** A write to plain RAM, without the echo redirection. *)
Lemma plain_write (s : state) (a v : Z) :
  arrays_sized s -> plain_ram s a ->
  exists s',
    writeMemory_at 0 a v s = Ok (tt, s') /\
    readMemory_at 0 s' a = Ok v /\
    arrays_sized s' /\
    forall c, c <> a -> c <= 0xFFFF ->
      readMemory_at 0 s' c = readMemory_at 0 s c.
Proof.
  intros (Hrom & Hvram & Hw0 & Hoam & Hio & Hhram) Hp.
  unfold plain_ram in Hp.
  assert (Hcases :
    0x8000 <= a < 0xA000 \/ 0xC000 <= a < 0xD000 \/
    (0xD000 <= a < 0xE000 /\ a - 0xD000 < Z.of_nat (length (wramBankN s))) \/
    0xFE00 <= a < 0xFEA0 \/ 0xFF80 <= a < 0xFFFF \/ a = 0xFFFF) by lia.
  clear Hp.
  destruct Hcases as [H|[H|[H|[H|[H| ->]]]]];
    (eexists; split;
     [ cbn [writeMemory_at]; split_ltb;
       unfold store_in, upd_interrupts, updateTileData, updateOAM, bind, get,
         lift, modify, ret;
       cbn [res_bind fst snd]; rewrite ?store_ok by lia;
       cbn [res_bind fst snd]; reflexivity
     | split; [|split] ]).
  all: try (cbn [readMemory_at]; split_ltb; simpl;
            rewrite ?at_insert by lia; reflexivity).
  all: try (unfold arrays_sized; simpl; rewrite ?length_insert; lia).
  all: intros c Hne Hc; simpl; split_ltb; apply at_insert_ne; lia.
Qed.

(** X7.  Plain RAM on the bus is a store: a write of [v] to an address of
    video RAM, work RAM, the sprite table, high RAM or the
    interrupt-enable register returns, a read of that address then
    returns [v], and a read of any other 16-bit address returns what it
    returned before, the echo alias [a + 0x2000] of the written address
    apart. *)
Theorem bus_store_law (s : state) (a v : Z) :
  arrays_sized s -> plain_ram s a ->
  exists s',
    writeMemory_u16 a v s = Ok (tt, s') /\
    eval (readMemory_u16 a) s' = Ok v /\
    forall b, is_u16 b -> b <> a -> b <> a + 0x2000 ->
      eval (readMemory_u16 b) s' = eval (readMemory_u16 b) s.
Proof.
  intros Hs Hp.
  destruct (plain_write s a v Hs Hp) as (s' & HW & HR & _ & HF).
  assert (Ha : ~ (0xE000 <= a < 0xFE00)) by (unfold plain_ram in Hp; lia).
  exists s'. unfold writeMemory_u16.
  rewrite GameBoyFacts.writeMemory_at_direct by exact Ha.
  split; [exact HW|]. split.
  - rewrite eval_read, GameBoyFacts.readMemory_at_direct by exact Ha.
    exact HR.
  - intros b Hb Hne Hecho. unfold is_u16 in Hb. rewrite !eval_read.
    destruct (Z.le_gt_cases 0xE000 b) as [Hlo|Hlo];
      [destruct (Z.lt_ge_cases b 0xFE00) as [Hhi|Hhi]|].
    + rewrite !GameBoyFacts.readMemory_at_echo by lia. apply HF; lia.
    + rewrite !(GameBoyFacts.readMemory_at_direct 1) by lia. apply HF; lia.
    + rewrite !(GameBoyFacts.readMemory_at_direct 1) by lia. apply HF; lia.
Qed.

Lemma bus_store_law_witness :
  exists s',
    writeMemory_u16 0xC123 0x5A power_on = Ok (tt, s') /\
    eval (readMemory_u16 0xC123) s' = Ok 0x5A /\
    forall b, is_u16 b -> b <> 0xC123 -> b <> 0xC123 + 0x2000 ->
      eval (readMemory_u16 b) s' = eval (readMemory_u16 b) power_on.
Proof.
  apply (bus_store_law power_on 0xC123 0x5A power_on_arrays).
  unfold plain_ram. lia.
Defined.

Lemma power_on_ram_enabled_external :
  ramEnabled power_on_ram_enabled = true /\
  Z.of_nat (length (externalRam power_on_ram_enabled)) = 0x2000.
Proof.
  split; [reflexivity|].
  change (externalRam power_on_ram_enabled)
    with (replicate (Z.to_nat 0x2000) 0).
  rewrite length_replicate. lia.
Qed.

(** X8.  Cartridge RAM is gated on writes only: with the RAM-enable latch
    clear a write to [0xA000..0xBFFF] returns and leaves the object as it
    was; with the latch set and storage behind the address the write is
    stored and read back; a read returns the stored byte whatever the
    latch says. *)
Theorem external_ram_gate (s : state) (a v : Z) :
  0xA000 <= a < 0xC000 ->
  (ramEnabled s = false -> writeMemory_u16 a v s = Ok (tt, s)) /\
  (ramEnabled s = true ->
   a - 0xA000 < Z.of_nat (length (externalRam s)) ->
   exists s', writeMemory_u16 a v s = Ok (tt, s') /\
              eval (readMemory_u16 a) s' = Ok v) /\
  (forall x, externalRam s !! Z.to_nat (a - 0xA000) = Some x ->
     eval (readMemory_u16 a) s = Ok x).
Proof.
  intros Ha. unfold writeMemory_u16.
  rewrite GameBoyFacts.writeMemory_at_direct by lia.
  split; [|split].
  - intros Hoff. cbn [writeMemory_at]. split_ltb.
    unfold bind, get, when, ret. cbn [res_bind fst snd]. now rewrite Hoff.
  - intros Hon Hlen. eexists. split.
    + cbn [writeMemory_at]. split_ltb.
      unfold store_in, bind, get, when, lift, modify, ret.
      cbn [res_bind fst snd]. rewrite Hon.
      cbn [res_bind fst snd]. rewrite store_ok by lia. reflexivity.
    + rewrite eval_read, (GameBoyFacts.readMemory_at_direct 1) by lia.
      cbn [readMemory_at]. split_ltb. simpl. rewrite at_insert by lia.
      reflexivity.
  - intros x Hx.
    rewrite eval_read, (GameBoyFacts.readMemory_at_direct 1) by lia.
    cbn [readMemory_at]. split_ltb. apply at_lookup; [lia|exact Hx].
Qed.

Lemma external_ram_gate_witness :
  0xA000 <= 0xA010 < 0xC000 /\
  writeMemory_u16 0xA010 0x77 power_on = Ok (tt, power_on) /\
  exists s', writeMemory_u16 0xA010 0x77 power_on_ram_enabled = Ok (tt, s') /\
             eval (readMemory_u16 0xA010) s' = Ok 0x77.
Proof.
  assert (Ha : 0xA000 <= 0xA010 < 0xC000) by lia.
  destruct power_on_ram_enabled_external as [Hon Hlen].
  split; [exact Ha|]. split.
  - exact (proj1 (external_ram_gate power_on 0xA010 0x77 Ha) eq_refl).
  - apply (proj1 (proj2 (external_ram_gate power_on_ram_enabled 0xA010 0x77
                           Ha)) Hon).
    rewrite Hlen. lia.
Defined.

(** The reserved range [0xFEA0..0xFEFF] has no storage: a read
    returns 0 and a write returns and leaves the object as it was, so a
    read after any write still returns 0. *)
Lemma reserved_range_reads_zero (s : state) (a b v : Z) :
  0xFEA0 <= a < 0xFF00 -> 0xFEA0 <= b < 0xFF00 ->
  eval (readMemory_u16 a) s = Ok 0 /\
  writeMemory_u16 b v s = Ok (tt, s) /\
  eval (writeMemory_u16 b v ;; readMemory_u16 a) s = Ok 0.
Proof.
  intros Ha Hb.
  assert (HR : eval (readMemory_u16 a) s = Ok 0).
  { rewrite eval_read, (GameBoyFacts.readMemory_at_direct 1) by lia.
    cbn [readMemory_at]. split_ltb. }
  assert (HW : writeMemory_u16 b v s = Ok (tt, s)).
  { unfold writeMemory_u16.
    rewrite GameBoyFacts.writeMemory_at_direct by lia.
    cbn [writeMemory_at]. split_ltb. }
  split; [exact HR|]. split; [exact HW|].
  unfold eval, bind in *. rewrite HW. exact HR.
Qed.


(** *** I/O registers *)

Lemma readMemory_at_image (d : nat) (s s' : state) (a : Z) :
  bus_image s' = bus_image s -> readMemory_at d s' a = readMemory_at d s a.
Proof.
  unfold bus_image. intros [= E1 E2 E3 E4 E5 E6 E7 E8 E9 E10]. revert a.
  induction d as [|d IH]; intros a; cbn [readMemory_at];
    rewrite E1, E2, E3, E4, E5, E6, E7, E8, E9, E10, ?IH; reflexivity.
Qed.

Lemma io_at_run (s : state) (i : Z) :
  Z.of_nat (length (io s)) = 0x80 -> 0 <= i < 0x80 ->
  exists x, io s !! Z.to_nat i = Some x /\ io_at i s = Ok (x, s).
Proof.
  intros Hlen Hi.
  destruct (lookup_lt_is_Some_2 (io s) (Z.to_nat i)) as [x Hx]; [lia|].
  exists x. split; [exact Hx|].
  unfold io_at, bind, get, lift. cbn [res_bind fst snd].
  rewrite (at_lookup _ _ x) by (auto; lia). reflexivity.
Qed.

Lemma io_store_run (s : state) (i v : Z) :
  Z.of_nat (length (io s)) = 0x80 -> 0 <= i < 0x80 ->
  io_store i v s = Ok (tt, set_io (<[Z.to_nat i := v]> (io s)) s).
Proof.
  intros Hlen Hi. unfold io_store, bind, get, lift, modify.
  cbn [res_bind fst snd]. rewrite store_ok by lia. reflexivity.
Qed.

(** The side effects, one by one. *)
Lemma updateLCDControl_run (s : state) :
  Z.of_nat (length (io s)) = 0x80 ->
  exists x,
    io s !! 0x40%nat = Some x /\
    updateLCDControl s
    = Ok (tt, set_ppuBackgroundEnabled (truthy (Z.land x 0x01))
                (set_ppuSpritesEnabled (truthy (Z.land x 0x02))
                   (set_ppuWindowEnabled (truthy (Z.land x 0x20))
                      (set_ppuEnabled (truthy (Z.land x 0x80)) s)))).
Proof.
  intros Hlen. destruct (io_at_run s 0x40 Hlen) as (x & Hx & E); [lia|].
  exists x. split; [exact Hx|]. unfold updateLCDControl, bind, modify.
  rewrite E. reflexivity.
Qed.

Lemma processDMA_run (s : state) :
  Z.of_nat (length (io s)) = 0x80 ->
  exists x,
    io s !! 0x46%nat = Some x /\
    processDMA s
    = Ok (tt, set_dma (Dma.mk true (u16 (Z.shiftl x 8)) 0xFE00 0xA0 0xA0) s).
Proof.
  intros Hlen. destruct (io_at_run s 0x46 Hlen) as (x & Hx & E); [lia|].
  exists x. split; [exact Hx|]. unfold processDMA, bind, modify.
  rewrite E. reflexivity.
Qed.

Lemma updateInterruptFlags_run (s : state) :
  Z.of_nat (length (io s)) = 0x80 ->
  exists x,
    io s !! 0x0F%nat = Some x /\
    updateInterruptFlags s
    = Ok (tt, set_interrupts
                (Interrupts.set_flags (Z.land x 0x1F) (interrupts s)) s).
Proof.
  intros Hlen. destruct (io_at_run s 0x0F Hlen) as (x & Hx & E); [lia|].
  exists x. split; [exact Hx|].
  unfold updateInterruptFlags, bind, upd_interrupts, modify.
  rewrite E. reflexivity.
Qed.

Lemma updateLCDControl_frame : io_frame updateLCDControl.
Proof.
  intros s Hlen. destruct (updateLCDControl_run s Hlen) as (x & _ & E).
  eexists. split; [exact E|reflexivity].
Qed.

Lemma processDMA_frame : io_frame processDMA.
Proof.
  intros s Hlen. destruct (processDMA_run s Hlen) as (x & _ & E).
  eexists. split; [exact E|reflexivity].
Qed.

Lemma updateInterruptFlags_frame : io_frame updateInterruptFlags.
Proof.
  intros s Hlen. destruct (updateInterruptFlags_run s Hlen) as (x & _ & E).
  eexists. split; [exact E|reflexivity].
Qed.

Lemma updateLCDStatus_frame : io_frame updateLCDStatus.
Proof.
  intros s _.
  destruct (GameBoyFacts.updateLCDStatus_run s) as (st & fl & E & _).
  eexists. split; [exact E|reflexivity].
Qed.

Lemma updateScroll_frame : io_frame updateScroll.
Proof.
  intros s Hlen.
  destruct (io_at_run s 0x43 Hlen) as (x & _ & Ex); [lia|].
  destruct (io_at_run s 0x42 Hlen) as (y & Hy & _); [lia|].
  unfold updateScroll, bind, upd_graphics, modify. rewrite Ex.
  cbn [res_bind fst snd]. unfold io_at, bind, get, lift.
  cbn [res_bind fst snd io set_graphics].
  rewrite (at_lookup _ _ y) by (auto; lia).
  eexists. split; reflexivity.
Qed.

Lemma updateWindowPosition_frame : io_frame updateWindowPosition.
Proof.
  intros s Hlen.
  destruct (io_at_run s 0x4B Hlen) as (x & _ & Ex); [lia|].
  destruct (io_at_run s 0x4A Hlen) as (y & Hy & _); [lia|].
  unfold updateWindowPosition, bind, upd_graphics, modify. rewrite Ex.
  cbn [res_bind fst snd]. unfold io_at, bind, get, lift.
  cbn [res_bind fst snd io set_graphics].
  rewrite (at_lookup _ _ y) by (auto; lia).
  eexists. split; reflexivity.
Qed.

Lemma updatePalettes_frame : io_frame updatePalettes.
Proof.
  intros s Hlen.
  destruct (io_at_run s 0x47 Hlen) as (x & _ & Ex); [lia|].
  destruct (io_at_run s 0x48 Hlen) as (y & Hy & _); [lia|].
  destruct (io_at_run s 0x49 Hlen) as (z & Hz & _); [lia|].
  unfold updatePalettes, bind, upd_graphics, modify. rewrite Ex.
  cbn [res_bind fst snd]. unfold io_at, bind, get, lift.
  cbn [res_bind fst snd io set_graphics].
  rewrite (at_lookup _ _ y) by (auto; lia).
  cbn [res_bind fst snd io set_graphics].
  rewrite (at_lookup _ _ z) by (auto; lia).
  eexists. split; reflexivity.
Qed.

Lemma updateTimerControl_frame : io_frame updateTimerControl.
Proof.
  intros s Hlen.
  destruct (io_at_run s 0x07 Hlen) as (x & Hx & Ex); [lia|].
  unfold updateTimerControl, bind, modify. rewrite Ex.
  cbn [res_bind fst snd]. unfold io_at, bind, get, lift.
  cbn [res_bind fst snd io set_timerEnabled].
  rewrite (at_lookup _ _ x) by (auto; lia).
  eexists. split; reflexivity.
Qed.

Lemma updateSerial_frame : io_frame updateSerial.
Proof. intros s _. exists s. split; reflexivity. Qed.

Create HintDb io_frames.
#[local] Hint Resolve updateLCDControl_frame processDMA_frame
  updateInterruptFlags_frame updateLCDStatus_frame updateScroll_frame
  updateWindowPosition_frame updatePalettes_frame updateTimerControl_frame
  updateSerial_frame : io_frames.

(** A handler that stores the value and then runs a side effect. *)
Lemma store_then (m : M unit) (s : state) (k v : Z) :
  io_frame m -> Z.of_nat (length (io s)) = 0x80 -> 0 <= k < 0x80 ->
  exists s',
    (io_store k v ;; m) s = Ok (tt, s') /\
    bus_image s' = bus_image (set_io (<[Z.to_nat k := v]> (io s)) s).
Proof.
  intros Hm Hlen Hk. unfold bind. rewrite io_store_run by assumption.
  cbn [res_bind fst snd]. apply Hm. cbn [io set_io].
  rewrite length_insert. exact Hlen.
Qed.

Lemma store_only (s : state) (k v : Z) :
  Z.of_nat (length (io s)) = 0x80 -> 0 <= k < 0x80 ->
  exists s',
    io_store k v s = Ok (tt, s') /\
    bus_image s' = bus_image (set_io (<[Z.to_nat k := v]> (io s)) s).
Proof.
  intros Hlen Hk. rewrite io_store_run by assumption.
  eexists. split; reflexivity.
Qed.

(** The handler of a plain register: the value is stored and nothing else
    the bus can read changes. *)
Lemma writeIO_plain (s : state) (r v : Z) :
  Z.of_nat (length (io s)) = 0x80 -> plain_io r ->
  exists s',
    writeIO r v s = Ok (tt, s') /\
    bus_image s' = bus_image (set_io (<[Z.to_nat r := v]> (io s)) s).
Proof.
  intros Hlen (Hr & H00 & H04 & H41 & H44).
  destruct r as [|p|p]; [congruence| |lia].
  do 7 (try destruct p as [p|p|]); try lia; try congruence;
    unfold writeIO;
    first [ apply store_only; [exact Hlen|lia]
          | apply store_then; [auto with io_frames|exact Hlen|lia] ].
Qed.

Lemma io_address (r : Z) : 0 <= r < 0x80 -> u8 (0xFF00 + r - 0xFF00) = r.
Proof. intros Hr. unfold u8. rewrite Z.mod_small by lia. lia. Qed.

(** A bus write to the register file is the register's handler. *)
Lemma writeMemory_io (s : state) (r v : Z) :
  0 <= r < 0x80 -> writeMemory_u16 (0xFF00 + r) v s = writeIO r v s.
Proof.
  intros Hr. unfold writeMemory_u16.
  rewrite GameBoyFacts.writeMemory_at_direct by lia.
  cbn [writeMemory_at]. split_ltb. now rewrite io_address by lia.
Qed.

Lemma read_io (s : state) (r : Z) :
  0 <= r < 0x80 ->
  eval (readMemory_u16 (0xFF00 + r)) s = at_ (io s) r.
Proof.
  intros Hr. rewrite eval_read, GameBoyFacts.readMemory_at_direct by lia.
  cbn [readMemory_at]. split_ltb. f_equal. lia.
Qed.

Lemma image_io (s s' : state) :
  bus_image s' = bus_image s -> io s' = io s.
Proof. unfold bus_image. now intros [= _ _ _ _ _ _ _ E _ _]. Qed.

(** X9.  A plain I/O register is a store cell on the bus: for every
    register of the file except P1, DIV, STAT and LY, a write of [v] to
    [0xFF00 + r] returns whatever side effect the register has, a read of
    the register then returns [v], and a read of any other address, echo
    range included, returns what it returned before. *)
Theorem io_register_store (s : state) (r v : Z) :
  arrays_sized s -> plain_io r ->
  exists s',
    writeMemory_u16 (0xFF00 + r) v s = Ok (tt, s') /\
    eval (readMemory_u16 (0xFF00 + r)) s' = Ok v /\
    forall b, b <> 0xFF00 + r ->
      eval (readMemory_u16 b) s' = eval (readMemory_u16 b) s.
Proof.
  intros (_ & _ & _ & _ & Hlen & _) Hp.
  assert (Hr : 0 <= r < 0x80) by (destruct Hp; assumption).
  destruct (writeIO_plain s r v Hlen Hp) as (s' & E & Hi).
  exists s'. split; [rewrite writeMemory_io by exact Hr; exact E|]. split.
  - rewrite read_io, (image_io _ _ Hi) by exact Hr. cbn [io set_io].
    apply at_insert. lia.
  - intros b Hb. rewrite !eval_read, (readMemory_at_image 1 _ _ b Hi).
    destruct (Z.le_gt_cases 0xE000 b) as [Hlo|Hlo];
      [destruct (Z.lt_ge_cases b 0xFE00) as [Hhi|Hhi]|].
    + rewrite !GameBoyFacts.readMemory_at_echo by lia.
      cbn [readMemory_at]. split_ltb.
    + rewrite !(GameBoyFacts.readMemory_at_direct 1) by lia.
      cbn [readMemory_at]. split_ltb. cbn [io set_io].
      apply at_insert_ne; lia.
    + rewrite !(GameBoyFacts.readMemory_at_direct 1) by lia.
      cbn [readMemory_at]. split_ltb.
Qed.

Lemma io_register_store_witness :
  exists s',
    writeMemory_u16 (0xFF00 + 0x47) 0xE4 power_on = Ok (tt, s') /\
    eval (readMemory_u16 (0xFF00 + 0x47)) s' = Ok 0xE4 /\
    forall b, b <> 0xFF00 + 0x47 ->
      eval (readMemory_u16 b) s' = eval (readMemory_u16 b) power_on.
Proof.
  apply (io_register_store power_on 0x47 0xE4 power_on_arrays).
  unfold plain_io. lia.
Defined.

End BusFacts.

(** ** Game Boy PPU *)

Module PpuFacts.

Import Int GameBoyEmulator Samples Observations.
Local Open Scope gb_scope.

(** One cycle changes the mode, the counter, the LCD registers and the
    pending interrupts, and nothing else. *)
Lemma updatePPU_frame (s : state) :
  exists m c g i,
    updatePPU s
    = Ok (tt, set_ppuMode m
                (set_ppuCycles c (set_graphics g (set_interrupts i s)))) /\
    Interrupts.enable i = Interrupts.enable (interrupts s).
Proof.
  unfold updatePPU. run_m.
  destruct (ppuEnabled s) eqn:Een; cbn [negb]; [|ppu_frame_witness].
  destruct (ppuMode s) eqn:Em; run_m.
  - destruct (204 <=? ppuCycles s) eqn:Ec; run_m.
    + cbn [graphics set_graphics set_ppuCycles Graphics.ly Graphics.set_ly].
      destruct (u8 (Graphics.ly (graphics s) + 1) =? 144) eqn:El; run_m;
        run_lcd_status GameBoyFacts.updateLCDStatus_run; ppu_frame_witness.
    + run_lcd_status GameBoyFacts.updateLCDStatus_run. ppu_frame_witness.
  - destruct (456 <=? ppuCycles s) eqn:Ec; run_m.
    + cbn [graphics set_graphics set_ppuCycles Graphics.ly Graphics.set_ly].
      destruct (153 <? u8 (Graphics.ly (graphics s) + 1)) eqn:El; run_m;
        run_lcd_status GameBoyFacts.updateLCDStatus_run; ppu_frame_witness.
    + run_lcd_status GameBoyFacts.updateLCDStatus_run. ppu_frame_witness.
  - destruct (80 <=? ppuCycles s) eqn:Ec; run_m;
      run_lcd_status GameBoyFacts.updateLCDStatus_run; ppu_frame_witness.
  - destruct (172 <=? ppuCycles s) eqn:Ec; run_m.
    + rewrite GameBoyFacts.renderScanline_hblank by reflexivity. run_m.
      run_lcd_status GameBoyFacts.updateLCDStatus_run. ppu_frame_witness.
    + run_lcd_status GameBoyFacts.updateLCDStatus_run. ppu_frame_witness.
Qed.

Lemma times_updatePPU_frame (n : nat) (s : state) :
  exists m c g i,
    times n updatePPU s
    = Ok (tt, set_ppuMode m
                (set_ppuCycles c (set_graphics g (set_interrupts i s)))) /\
    Interrupts.enable i = Interrupts.enable (interrupts s).
Proof.
  revert s. induction n as [|n IH]; intros s.
  - exists (ppuMode s), (ppuCycles s), (graphics s), (interrupts s).
    split; [|reflexivity]. destruct s; reflexivity.
  - destruct (updatePPU_frame s) as (m1 & c1 & g1 & i1 & E1 & He1).
    destruct (IH (set_ppuMode m1
                    (set_ppuCycles c1 (set_graphics g1 (set_interrupts i1 s)))))
      as (m2 & c2 & g2 & i2 & E2 & He2).
    exists m2, c2, g2, i2. split.
    + cbn [times]. unfold bind. rewrite E1. cbn [res_bind fst snd].
      rewrite E2. reflexivity.
    + rewrite He2. exact He1.
Qed.

(** X10.  The PPU never draws and is invisible on the bus: any number of
    [updatePPU] cycles returns, leaves the frame buffer, the sprite list
    and the sprite count as they were ([renderScanline] is only called
    once the mode is HBLANK, where it does nothing), and changes nothing a
    bus read returns, so LY at [0xFF44], STAT at [0xFF41] and IF at
    [0xFF0F] read as before however far the scanline counter, the mode
    and the pending interrupts have moved. *)
Theorem updatePPU_never_draws (n : nat) (s : state) :
  exists s',
    times n updatePPU s = Ok (tt, s') /\
    frameBuffer s' = frameBuffer s /\
    sprites s' = sprites s /\
    spriteCount s' = spriteCount s /\
    forall b, eval (readMemory_u16 b) s' = eval (readMemory_u16 b) s.
Proof.
  destruct (times_updatePPU_frame n s) as (m & c & g & i & E & Hen).
  eexists. split; [exact E|]. do 3 (split; [reflexivity|]).
  intros b. rewrite !BusFacts.eval_read. apply BusFacts.readMemory_at_image.
  unfold bus_image. cbn. now rewrite Hen.
Qed.

(** *** The mode machine *)

Lemma view_step_consistent (v : ppu_view) :
  view_consistent v -> view_consistent (view_step v).
Proof.
  destruct v as [en m c ly]. unfold view_consistent, view_step.
  cbn [v_enabled v_mode v_cycles v_ly]. intros (-> & Hc & Hly).
  cbn [negb]. unfold u8.
  destruct m; cbn [mode_budget] in *;
    repeat match goal with
      | |- context [?x <=? ?y] => destruct (Z.leb_spec x y)
      | |- context [?x <? ?y] => destruct (Z.ltb_spec x y)
      | |- context [?x =? ?y] => destruct (Z.eqb_spec x y)
      end;
    cbn [v_enabled v_mode v_cycles v_ly mode_budget];
    rewrite ?Z.mod_small in * by lia; repeat split; lia.
Qed.

Lemma iter_view_step_consistent (n : nat) (v : ppu_view) :
  view_consistent v -> view_consistent (Nat.iter n view_step v).
Proof.
  intros Hv. induction n as [|n IH]; [exact Hv|].
  cbn [Nat.iter nat_rect]. apply view_step_consistent, IH.
Qed.

Lemma power_on_consistent : view_consistent (view power_on).
Proof. unfold view_consistent. cbn. repeat split; lia. Qed.

(** X11.  The mode machine keeps its invariant: from an enabled PPU whose
    counter is within the budget of its mode (80, 172, 204 or 456 cycles)
    and whose scanline is in 0..143 in the visible modes and in 144..153
    in VBLANK, any number of [updatePPU] cycles returns and leaves the PPU
    enabled, within budget and on a scanline of the same ranges; the
    scanline never exceeds 153. *)
Theorem ppu_mode_invariant (n : nat) (s : state) :
  view_consistent (view s) ->
  exists s',
    times n updatePPU s = Ok (tt, s') /\
    view_consistent (view s') /\
    0 <= Graphics.ly (graphics s') <= 153.
Proof.
  intros Hv.
  destruct (GameBoyFacts.times_updatePPU_view n s) as (s' & E & Hv').
  exists s'. split; [exact E|].
  assert (Hc : view_consistent (view s'))
    by (rewrite Hv'; apply iter_view_step_consistent, Hv).
  split; [exact Hc|].
  destruct Hc as (_ & _ & Hly). cbn [view v_mode v_ly] in Hly.
  destruct (ppuMode s'); lia.
Qed.

Lemma ppu_mode_invariant_witness :
  view_consistent (view power_on) /\
  exists s',
    times 1000 updatePPU power_on = Ok (tt, s') /\
    view_consistent (view s') /\
    0 <= Graphics.ly (graphics s') <= 153.
Proof.
  split; [exact power_on_consistent|].
  exact (ppu_mode_invariant 1000 power_on power_on_consistent).
Defined.

Lemma iter_period (n : nat) (v : ppu_view) (k : nat) :
  Nat.iter n view_step v = v -> Nat.iter (k * n) view_step v = v.
Proof.
  intros Hn. induction k as [|k IH]; [reflexivity|].
  cbn [Nat.mul]. rewrite Nat.iter_add, IH. exact Hn.
Qed.

(** X12.  A frame lasts 70224 cycles.  From the start of scanline 0 in the
    steady state (OAM_SCAN, counter at 1, where the previous transition
    leaves it) the PPU enters VBLANK on scanline 144 with call
    144 * 456 = 65664, and after every multiple of 154 * 456 = 70224 calls
    it is back at the start of scanline 0 in the same state. *)
Theorem frame_takes_70224_cycles (s : state) (k : nat) :
  ppuEnabled s = true -> ppuMode s = OAM_SCAN -> ppuCycles s = 1 ->
  Graphics.ly (graphics s) = 0 ->
  (exists s', times (Z.to_nat 65663) updatePPU s = Ok (tt, s') /\
              ppuMode s' = HBLANK /\ Graphics.ly (graphics s') = 143) /\
  (exists s', times (Z.to_nat 65664) updatePPU s = Ok (tt, s') /\
              ppuMode s' = VBLANK /\ Graphics.ly (graphics s') = 144) /\
  (exists s', times (k * Z.to_nat 70224) updatePPU s = Ok (tt, s') /\
              ppuMode s' = OAM_SCAN /\ ppuCycles s' = 1 /\
              Graphics.ly (graphics s') = 0).
Proof.
  intros Hen Hm Hc Hly.
  pose proof (GameBoyFacts.view_at s _ _ _ _ Hen Hm Hc Hly) as Hv.
  split; [|split].
  - assert (Hrun : Nat.iter (Z.to_nat 65663) view_step
                     (mkView true OAM_SCAN 1 0)
                   = mkView true HBLANK 204 143) by (vm_compute; reflexivity).
    destruct (GameBoyFacts.run_from _ s _ _ Hv Hrun) as (s' & E & H1 & _ & H3).
    exists s'. auto.
  - assert (Hrun : Nat.iter (Z.to_nat 65664) view_step
                     (mkView true OAM_SCAN 1 0)
                   = mkView true VBLANK 1 144) by (vm_compute; reflexivity).
    destruct (GameBoyFacts.run_from _ s _ _ Hv Hrun) as (s' & E & H1 & _ & H3).
    exists s'. auto.
  - assert (Hrun : Nat.iter (Z.to_nat 70224) view_step
                     (mkView true OAM_SCAN 1 0)
                   = mkView true OAM_SCAN 1 0) by (vm_compute; reflexivity).
    destruct (GameBoyFacts.run_from _ s _ _ Hv (iter_period _ _ k Hrun))
      as (s' & E & H1 & H2 & H3).
    exists s'. auto.
Qed.

Lemma frame_takes_70224_cycles_witness :
  let s := set_ppuCycles 1 power_on in
  (exists s', times (Z.to_nat 65664) updatePPU s = Ok (tt, s') /\
              ppuMode s' = VBLANK /\ Graphics.ly (graphics s') = 144) /\
  (exists s', times (3 * Z.to_nat 70224) updatePPU s = Ok (tt, s') /\
              ppuMode s' = OAM_SCAN /\ ppuCycles s' = 1 /\
              Graphics.ly (graphics s') = 0).
Proof.
  cbv zeta.
  destruct (frame_takes_70224_cycles (set_ppuCycles 1 power_on) 3
              eq_refl eq_refl eq_refl eq_refl) as (_ & H1 & H2).
  split; [exact H1|exact H2].
Defined.

(** *** Sprite scan *)

Lemma for_each_inv (Inv : state -> Prop) (xs : list Z) (body : Z -> M unit) :
  (forall x s, x ∈ xs -> Inv s ->
     exists s', body x s = Ok (tt, s') /\ Inv s') ->
  forall s, Inv s -> exists s', for_each xs body s = Ok (tt, s') /\ Inv s'.
Proof.
  induction xs as [|x xs IH]; intros Hbody s Hs.
  - exists s. split; [reflexivity|exact Hs].
  - destruct (Hbody x s) as (s1 & E1 & H1);
      [apply list_elem_of_here|exact Hs|].
    destruct (IH (fun y t Hy => Hbody y t (list_elem_of_further _ _ _ Hy))
                s1 H1) as (s2 & E2 & H2).
    exists s2. split; [|exact H2].
    cbn [for_each]. unfold bind. rewrite E1. exact E2.
Qed.

Lemma read_oam_run (s : state) (a : Z) :
  Z.of_nat (length (oam s)) = 0xA0 -> 0xFE00 <= a < 0xFEA0 ->
  exists x, readMemory_u16 a s = Ok (x, s).
Proof.
  intros Hlen Ha. unfold readMemory_u16.
  rewrite GameBoyFacts.readMemory_at_direct by lia.
  cbn [readMemory_at]. split_ltb.
  destruct (at_in_range (oam s) (a - 0xFE00)) as [x ->]; [lia|].
  exists x. reflexivity.
Qed.

Lemma sprite_upd_run (s : state) (i : Z) (f : Sprite.t -> Sprite.t) :
  0 <= i < Z.of_nat (length (sprites s)) ->
  exists sps',
    sprite_upd i f s = Ok (tt, set_sprites sps' s) /\
    length sps' = length (sprites s).
Proof.
  intros Hi. unfold sprite_upd, bind, get, lift, modify.
  cbn [res_bind fst snd].
  destruct (at_in_range (sprites s) i Hi) as [sp ->]. cbn [res_bind fst snd].
  rewrite store_ok by exact Hi. cbn [res_bind fst snd].
  eexists. split; [reflexivity|]. apply length_insert.
Qed.

(** X13.  The sprite scan stays inside the ten-entry sprite list: with the
    sprite table in place and at least ten entries in the list,
    [findSpritesForScanline] returns, leaves a sprite count between 0 and
    10 and a list of the same length, and changes nothing but the list
    and the count. *)
Theorem sprite_scan_finds_at_most_ten (s : state) :
  arrays_sized s -> (10 <= length (sprites s))%nat ->
  exists sps cnt,
    findSpritesForScanline s
    = Ok (tt, set_spriteCount cnt (set_sprites sps s)) /\
    0 <= cnt <= 10 /\ length sps = length (sprites s).
Proof.
  intros (_ & _ & _ & Hoam & _ & _) Hten.
  pose (Inv := fun t : state =>
    exists sps cnt, t = set_spriteCount cnt (set_sprites sps s) /\
                    0 <= cnt <= 10 /\ length sps = length (sprites s)).
  unfold findSpritesForScanline.
  match goal with
  | |- context [for_each ?xs ?body] =>
      assert (Hbody : forall x t, x ∈ xs -> Inv t ->
                exists t', body x t = Ok (tt, t') /\ Inv t')
  end.
  { intros i t Hi (sps & cnt & -> & Hcnt & Hlen).
    apply elem_of_seqZ in Hi.
    unfold bind at 1. unfold get at 1. cbn [res_bind fst snd spriteCount
      set_spriteCount].
    destruct (Z.ltb_spec cnt 10) as [Hlt|Hge]; cbn [when];
      [|eexists; split; [reflexivity|exists sps, cnt; auto]].
    rewrite !u16_small by (rewrite ?u16_small by lia; lia).
    unfold bind at 1.
    destruct (read_oam_run (set_spriteCount cnt (set_sprites sps s))
                (0xFE00 + i * 4) Hoam) as (y0 & ->); [lia|].
    cbn [res_bind fst snd]. unfold bind at 1. unfold get at 1.
    cbn [res_bind fst snd].
    match goal with
    | |- context [when ?c _] => destruct c
    end; cbn [when];
      [|eexists; split; [reflexivity|exists sps, cnt; auto]].
    unfold bind at 1.
    destruct (sprite_upd_run (set_spriteCount cnt (set_sprites sps s)) cnt
                (fun sp => Sprite.mk (y0 - 16) (Sprite.x sp) (Sprite.tile sp)
                             (Sprite.attributes sp)))
      as (sps1 & -> & Hl1); [cbn [sprites set_sprites set_spriteCount]; lia|].
    cbn [res_bind fst snd]. unfold bind at 1.
    destruct (read_oam_run
                (set_sprites sps1 (set_spriteCount cnt (set_sprites sps s)))
                (0xFE00 + i * 4 + 1) Hoam) as (x0 & ->); [lia|].
    cbn [res_bind fst snd]. unfold bind at 1.
    destruct (sprite_upd_run
                (set_sprites sps1 (set_spriteCount cnt (set_sprites sps s)))
                cnt
                (fun sp => Sprite.mk (Sprite.y sp) (x0 - 8) (Sprite.tile sp)
                             (Sprite.attributes sp)))
      as (sps2 & -> & Hl2);
      [cbn [sprites set_sprites set_spriteCount] in *; lia|].
    cbn [res_bind fst snd]. unfold bind at 1.
    destruct (read_oam_run
                (set_sprites sps2
                   (set_sprites sps1
                      (set_spriteCount cnt (set_sprites sps s))))
                (0xFE00 + i * 4 + 2) Hoam) as (t0 & ->); [lia|].
    cbn [res_bind fst snd]. unfold bind at 1.
    destruct (sprite_upd_run
                (set_sprites sps2
                   (set_sprites sps1
                      (set_spriteCount cnt (set_sprites sps s))))
                cnt
                (fun sp => Sprite.mk (Sprite.y sp) (Sprite.x sp) t0
                             (Sprite.attributes sp)))
      as (sps3 & -> & Hl3);
      [cbn [sprites set_sprites set_spriteCount] in *; lia|].
    cbn [res_bind fst snd]. unfold bind at 1.
    destruct (read_oam_run
                (set_sprites sps3
                   (set_sprites sps2
                      (set_sprites sps1
                         (set_spriteCount cnt (set_sprites sps s)))))
                (0xFE00 + i * 4 + 3) Hoam) as (a0 & ->); [lia|].
    cbn [res_bind fst snd]. unfold bind at 1.
    destruct (sprite_upd_run
                (set_sprites sps3
                   (set_sprites sps2
                      (set_sprites sps1
                         (set_spriteCount cnt (set_sprites sps s)))))
                cnt
                (fun sp => Sprite.mk (Sprite.y sp) (Sprite.x sp)
                             (Sprite.tile sp) a0))
      as (sps4 & -> & Hl4);
      [cbn [sprites set_sprites set_spriteCount] in *; lia|].
    cbn [res_bind fst snd]. unfold modify.
    eexists. split; [reflexivity|].
    exists sps4, (cnt + 1). split; [reflexivity|].
    cbn [sprites set_sprites set_spriteCount] in *. split; [lia|congruence]. }
  match goal with
  | |- context [for_each ?xs ?body] =>
      destruct (for_each_inv Inv xs body Hbody (set_spriteCount 0 s))
        as (s' & E & sps & cnt & -> & Hcnt & Hlen)
  end.
  { exists (sprites s), 0. split; [destruct s; reflexivity|]. split; [lia|].
    reflexivity. }
  exists sps, cnt. split; [exact E|]. split; assumption.
Qed.

Lemma sprite_scan_finds_at_most_ten_witness :
  arrays_sized power_on /\ (10 <= length (sprites power_on))%nat /\
  exists sps cnt,
    findSpritesForScanline power_on
    = Ok (tt, set_spriteCount cnt (set_sprites sps power_on)) /\
    0 <= cnt <= 10 /\ length sps = length (sprites power_on).
Proof.
  assert (Hten : (10 <= length (sprites power_on))%nat) by (cbn; lia).
  split; [exact BusFacts.power_on_arrays|]. split; [exact Hten|].
  exact (sprite_scan_finds_at_most_ten power_on BusFacts.power_on_arrays Hten).
Defined.

(** *** Frame buffer *)

Lemma power_on_frame_buffer :
  Z.of_nat (length (frameBuffer power_on)) = 160 * 144.
Proof.
  change (frameBuffer power_on) with (replicate (Z.to_nat (160 * 144)) 0).
  rewrite length_replicate. lia.
Qed.

Lemma on_screen (x y : Z) :
  (0 <=? x) && (x <? 160) && (0 <=? y) && (y <? 144) = true
  <-> 0 <= x < 160 /\ 0 <= y < 144.
Proof. rewrite !andb_true_iff, !Z.leb_le, !Z.ltb_lt. lia. Qed.

(** X14.  The frame buffer is a store of 160 x 144 pixels with a guard:
    [setPixel] on the screen returns, [getPixel] then returns the colour
    at that pixel and what it returned before at every other coordinate;
    off the screen [setPixel] returns and leaves the object as it was and
    [getPixel] returns 0, so neither reaches outside the buffer. *)
Theorem pixel_store_law (s : state) (x y color : Z) :
  Z.of_nat (length (frameBuffer s)) = 160 * 144 ->
  (0 <= x < 160 /\ 0 <= y < 144 ->
   exists s',
     setPixel x y color s = Ok (tt, s') /\
     eval (getPixel x y) s' = Ok color /\
     forall x' y', (x', y') <> (x, y) ->
       eval (getPixel x' y') s' = eval (getPixel x' y') s) /\
  (~ (0 <= x < 160 /\ 0 <= y < 144) ->
   setPixel x y color s = Ok (tt, s) /\ eval (getPixel x y) s = Ok 0).
Proof.
  intros Hlen. split.
  - intros Hin. pose proof (proj2 (on_screen x y) Hin) as Hon.
    eexists. split; [|split].
    + unfold setPixel. rewrite Hon. cbn [when].
      unfold store_in, bind, get, lift, modify. cbn [res_bind fst snd].
      rewrite store_ok by lia. reflexivity.
    + unfold eval, getPixel. rewrite Hon.
      unfold bind, get, lift. cbn [res_bind fst snd frameBuffer
        set_frameBuffer].
      rewrite at_insert by lia. reflexivity.
    + intros x' y' Hne. unfold eval, getPixel.
      destruct ((0 <=? x') && (x' <? 160) && (0 <=? y') && (y' <? 144))
        eqn:Hon'; [|reflexivity].
      apply on_screen in Hon'.
      unfold bind, get, lift. cbn [res_bind fst snd frameBuffer
        set_frameBuffer].
      rewrite BusFacts.at_insert_ne;
        [destruct (at_ (frameBuffer s) (y' * 160 + x')); reflexivity|lia|].
      intros Heq. apply Hne. f_equal; lia.
  - intros Hout.
    assert (Hoff : (0 <=? x) && (x <? 160) && (0 <=? y) && (y <? 144) = false).
    { apply not_true_is_false. intros Hon. apply Hout, on_screen, Hon. }
    unfold setPixel, eval, getPixel. rewrite Hoff. split; reflexivity.
Qed.

Lemma pixel_store_law_witness :
  Z.of_nat (length (frameBuffer power_on)) = 160 * 144 /\
  (exists s',
     setPixel 159 143 3 power_on = Ok (tt, s') /\
     eval (getPixel 159 143) s' = Ok 3 /\
     forall x' y', (x', y') <> (159, 143) ->
       eval (getPixel x' y') s' = eval (getPixel x' y') power_on) /\
  setPixel 160 0 3 power_on = Ok (tt, power_on) /\
  eval (getPixel 160 0) power_on = Ok 0.
Proof.
  split; [exact power_on_frame_buffer|]. split.
  - apply (proj1 (pixel_store_law power_on 159 143 3 power_on_frame_buffer)).
    lia.
  - apply (proj2 (pixel_store_law power_on 160 0 3 power_on_frame_buffer)).
    lia.
Defined.

End PpuFacts.

(** ** Game Boy I/O register side effects *)

Module IoFacts.

Import Int GameBoyEmulator Samples Observations.
Local Open Scope gb_scope.

Lemma arrays_io (s : state) :
  arrays_sized s -> Z.of_nat (length (io s)) = 0x80.
Proof. now intros (_ & _ & _ & _ & H & _). Qed.

Lemma mask_is_bit (v k : Z) :
  0 <= k -> truthy (Z.land v (2 ^ k)) = Z.testbit v k.
Proof. intros Hk. apply (GameBoyFacts.flag_get_testbit v k Hk). Qed.

(** X15.  DIV, LY and the low bits of STAT are write-protected: whatever
    value is written, DIV and LY read back 0, and STAT reads back its old
    three low bits with the five high bits of the value written.  A write
    to LY does not touch the scanline counter of the PPU. *)
Theorem protected_io_registers (s : state) (v : Z) :
  arrays_sized s ->
  (exists s', writeMemory_u16 0xFF04 v s = Ok (tt, s') /\
              eval (readMemory_u16 0xFF04) s' = Ok 0) /\
  (exists s', writeMemory_u16 0xFF44 v s = Ok (tt, s') /\
              eval (readMemory_u16 0xFF44) s' = Ok 0 /\
              graphics s' = graphics s) /\
  (exists old s',
     eval (readMemory_u16 0xFF41) s = Ok old /\
     writeMemory_u16 0xFF41 v s = Ok (tt, s') /\
     eval (readMemory_u16 0xFF41) s'
     = Ok (Z.lor (Z.land old 0x07) (Z.land v 0xF8))).
Proof.
  intros Hs. pose proof (arrays_io s Hs) as Hlen.
  change 0xFF04 with (0xFF00 + 0x04). change 0xFF44 with (0xFF00 + 0x44).
  change 0xFF41 with (0xFF00 + 0x41).
  rewrite !BusFacts.writeMemory_io, !BusFacts.read_io by lia.
  split; [|split].
  - eexists. split; [apply BusFacts.io_store_run; [exact Hlen|lia]|].
    rewrite BusFacts.read_io by lia. cbn [io set_io]. apply at_insert. lia.
  - eexists. split; [apply BusFacts.io_store_run; [exact Hlen|lia]|].
    rewrite BusFacts.read_io by lia. cbn [io set_io].
    split; [apply at_insert; lia|reflexivity].
  - destruct (BusFacts.io_at_run s 0x41 Hlen) as (old & Hold & Eold); [lia|].
    destruct (GameBoyFacts.updateLCDStatus_run
                (set_io (<[Z.to_nat 0x41
                           := Z.lor (Z.land old 0x07) (Z.land v 0xF8)]> (io s))
                   s)) as (st & fl & E & _).
    exists old. eexists. split; [apply at_lookup; [lia|exact Hold]|]. split.
    + unfold writeIO, bind. rewrite Eold. cbn [res_bind fst snd].
      rewrite BusFacts.io_store_run by (auto; lia). cbn [res_bind fst snd].
      exact E.
    + rewrite BusFacts.read_io by lia. cbn [io set_io set_interrupts
        set_graphics]. apply at_insert. lia.
Qed.

Lemma protected_io_registers_witness :
  arrays_sized power_on /\
  (exists s', writeMemory_u16 0xFF04 0xAB power_on = Ok (tt, s') /\
              eval (readMemory_u16 0xFF04) s' = Ok 0) /\
  (exists s', writeMemory_u16 0xFF44 0xAB power_on = Ok (tt, s') /\
              eval (readMemory_u16 0xFF44) s' = Ok 0 /\
              graphics s' = graphics power_on).
Proof.
  split; [exact BusFacts.power_on_arrays|].
  destruct (protected_io_registers power_on 0xAB BusFacts.power_on_arrays)
    as (H1 & H2 & _).
  split; [exact H1|exact H2].
Defined.

Lemma disabled_ppu_stays_halted (n : nat) (s : state) :
  ppuEnabled s = false ->
  times (S n) updatePPU s = Ok (tt, set_ppuMode HBLANK s).
Proof.
  intros Hoff. revert s Hoff. induction n as [|n IH]; intros s Hoff.
  - cbn [times]. unfold bind.
    rewrite GameBoyFacts.disabled_ppu_halts by exact Hoff. reflexivity.
  - change (times (S (S n)) updatePPU s)
      with ((updatePPU ;; times (S n) updatePPU) s).
    unfold bind. rewrite GameBoyFacts.disabled_ppu_halts by exact Hoff.
    cbn [res_bind fst snd]. rewrite IH by exact Hoff. reflexivity.
Qed.

(** X16.  A write to LCDC decodes the control bits: bit 7 enables the
    PPU, bit 5 the window, bit 1 the sprites, bit 0 the background.  With
    bit 7 clear the PPU stands still from then on: any positive number of
    [updatePPU] cycles leaves it in HBLANK with the cycle counter, the
    scanline and everything else as the write left them. *)
Theorem lcdc_write_controls_ppu (s : state) (v : Z) (n : nat) :
  arrays_sized s ->
  exists s',
    writeMemory_u16 0xFF40 v s = Ok (tt, s') /\
    ppuEnabled s' = Z.testbit v 7 /\
    ppuWindowEnabled s' = Z.testbit v 5 /\
    ppuSpritesEnabled s' = Z.testbit v 1 /\
    ppuBackgroundEnabled s' = Z.testbit v 0 /\
    (Z.testbit v 7 = false ->
     times (S n) updatePPU s' = Ok (tt, set_ppuMode HBLANK s')).
Proof.
  intros Hs. pose proof (arrays_io s Hs) as Hlen.
  change 0xFF40 with (0xFF00 + 0x40).
  rewrite BusFacts.writeMemory_io by lia.
  destruct (BusFacts.updateLCDControl_run
              (set_io (<[Z.to_nat 0x40 := v]> (io s)) s))
    as (x & Hx & E); [cbn [io set_io]; now rewrite length_insert|].
  cbn [io set_io] in Hx.
  change 0x40%nat with (Z.to_nat 0x40) in Hx.
  rewrite list_lookup_insert_eq in Hx by lia. injection Hx as <-.
  assert (H7 : truthy (Z.land v 0x80) = Z.testbit v 7)
    by (apply (mask_is_bit v 7); lia).
  assert (H5 : truthy (Z.land v 0x20) = Z.testbit v 5)
    by (apply (mask_is_bit v 5); lia).
  assert (H1 : truthy (Z.land v 0x02) = Z.testbit v 1)
    by (apply (mask_is_bit v 1); lia).
  assert (H0 : truthy (Z.land v 0x01) = Z.testbit v 0)
    by (apply (mask_is_bit v 0); lia).
  eexists. split.
  - unfold writeIO, bind. rewrite BusFacts.io_store_run by (auto; lia).
    cbn [res_bind fst snd]. exact E.
  - cbn [ppuEnabled ppuWindowEnabled ppuSpritesEnabled ppuBackgroundEnabled
         set_ppuEnabled set_ppuWindowEnabled set_ppuSpritesEnabled
         set_ppuBackgroundEnabled].
    do 4 (split; [assumption|]).
    intros Hoff. apply disabled_ppu_stays_halted.
    cbn [ppuEnabled set_ppuEnabled set_ppuWindowEnabled
         set_ppuSpritesEnabled set_ppuBackgroundEnabled].
    rewrite H7. exact Hoff.
Qed.

Lemma lcdc_write_controls_ppu_witness :
  arrays_sized power_on /\
  exists s',
    writeMemory_u16 0xFF40 0x13 power_on = Ok (tt, s') /\
    ppuEnabled s' = Z.testbit 0x13 7 /\
    ppuWindowEnabled s' = Z.testbit 0x13 5 /\
    ppuSpritesEnabled s' = Z.testbit 0x13 1 /\
    ppuBackgroundEnabled s' = Z.testbit 0x13 0 /\
    (Z.testbit 0x13 7 = false ->
     times 457 updatePPU s' = Ok (tt, set_ppuMode HBLANK s')).
Proof.
  split; [exact BusFacts.power_on_arrays|].
  exact (lcdc_write_controls_ppu power_on 0x13 456 BusFacts.power_on_arrays).
Defined.

(** X17.  A write to the DMA register records a transfer and copies
    nothing: the transfer descriptor is active with source [v << 8],
    destination [0xFE00] and 160 bytes remaining, the sprite table is as
    it was, and any number of [updatePPU] cycles later the descriptor and
    the sprite table are still the same. *)
Theorem dma_write_copies_nothing (s : state) (v : Z) (n : nat) :
  arrays_sized s ->
  exists s' s'',
    writeMemory_u16 0xFF46 v s = Ok (tt, s') /\
    dma s' = Dma.mk true (u16 (Z.shiftl v 8)) 0xFE00 0xA0 0xA0 /\
    oam s' = oam s /\
    times n updatePPU s' = Ok (tt, s'') /\
    dma s'' = dma s' /\ oam s'' = oam s.
Proof.
  intros Hs. pose proof (arrays_io s Hs) as Hlen.
  change 0xFF46 with (0xFF00 + 0x46).
  rewrite BusFacts.writeMemory_io by lia.
  destruct (BusFacts.processDMA_run
              (set_io (<[Z.to_nat 0x46 := v]> (io s)) s))
    as (x & Hx & E); [cbn [io set_io]; now rewrite length_insert|].
  cbn [io set_io] in Hx.
  change 0x46%nat with (Z.to_nat 0x46) in Hx.
  rewrite list_lookup_insert_eq in Hx by lia. injection Hx as <-.
  destruct (PpuFacts.times_updatePPU_frame n
              (set_dma (Dma.mk true (u16 (Z.shiftl v 8)) 0xFE00 0xA0 0xA0)
                 (set_io (<[Z.to_nat 0x46 := v]> (io s)) s)))
    as (m & c & g & i & En & _).
  do 2 eexists. split.
  - unfold writeIO, bind. rewrite BusFacts.io_store_run by (auto; lia).
    cbn [res_bind fst snd]. exact E.
  - split; [reflexivity|]. split; [reflexivity|].
    split; [exact En|]. split; reflexivity.
Qed.

Lemma dma_write_copies_nothing_witness :
  arrays_sized power_on /\
  exists s' s'',
    writeMemory_u16 0xFF46 0xC1 power_on = Ok (tt, s') /\
    dma s' = Dma.mk true (u16 (Z.shiftl 0xC1 8)) 0xFE00 0xA0 0xA0 /\
    oam s' = oam power_on /\
    times 640 updatePPU s' = Ok (tt, s'') /\
    dma s'' = dma s' /\ oam s'' = oam power_on.
Proof.
  split; [exact BusFacts.power_on_arrays|].
  exact (dma_write_copies_nothing power_on 0xC1 640 BusFacts.power_on_arrays).
Defined.

(** A write to IF keeps five bits in the pending set and all eight
    in the register: the pending interrupts become [v & 0x1F], the enable
    mask stays, and the register reads back [v] itself. *)
Lemma interrupt_flag_write_masks (s : state) (v : Z) :
  arrays_sized s ->
  exists s',
    writeMemory_u16 0xFF0F v s = Ok (tt, s') /\
    Interrupts.flags (interrupts s') = Z.land v 0x1F /\
    Interrupts.enable (interrupts s') = Interrupts.enable (interrupts s) /\
    eval (readMemory_u16 0xFF0F) s' = Ok v.
Proof.
  intros Hs. pose proof (arrays_io s Hs) as Hlen.
  change 0xFF0F with (0xFF00 + 0x0F).
  rewrite BusFacts.writeMemory_io by lia.
  destruct (BusFacts.updateInterruptFlags_run
              (set_io (<[Z.to_nat 0x0F := v]> (io s)) s))
    as (x & Hx & E); [cbn [io set_io]; now rewrite length_insert|].
  cbn [io set_io] in Hx.
  change 0x0F%nat with (Z.to_nat 0x0F) in Hx.
  rewrite list_lookup_insert_eq in Hx by lia. injection Hx as <-.
  eexists. split.
  - unfold writeIO, bind. rewrite BusFacts.io_store_run by (auto; lia).
    cbn [res_bind fst snd]. exact E.
  - split; [reflexivity|]. split; [reflexivity|].
    rewrite BusFacts.read_io by lia. cbn [io set_io set_interrupts].
    apply at_insert. lia.
Qed.


(** A write to P1 selects the key group that is read back: the
    register reads back the high nibble written and, in the low nibble,
    the buttons when bit 4 of the value is clear, else the directions when
    bit 5 is clear; with both bits set it reads back the value itself.
    Bit 4 wins when both are clear. *)
Lemma joypad_select (s : state) (v : Z) :
  arrays_sized s ->
  exists s',
    writeMemory_u16 0xFF00 v s = Ok (tt, s') /\
    eval (readMemory_u16 0xFF00) s'
    = Ok (if negb (Z.testbit v 4) then
            Z.lor (Z.land v 0xF0) (Z.land (Input.buttons (input s)) 0x0F)
          else if negb (Z.testbit v 5) then
            Z.lor (Z.land v 0xF0) (Z.land (Input.directions (input s)) 0x0F)
          else v).
Proof.
  intros Hs. pose proof (arrays_io s Hs) as Hlen.
  change 0xFF00 with (0xFF00 + 0x00).
  rewrite BusFacts.writeMemory_io by lia.
  assert (H4 : truthy (Z.land v 0x10) = Z.testbit v 4)
    by (apply (mask_is_bit v 4); lia).
  assert (H5 : truthy (Z.land v 0x20) = Z.testbit v 5)
    by (apply (mask_is_bit v 5); lia).
  destruct (BusFacts.io_at_run (set_io (<[Z.to_nat 0x00 := v]> (io s)) s) 0x00)
    as (x & Hx & Ex); [cbn [io set_io]; now rewrite length_insert|lia|].
  cbn [io set_io] in Hx.
  rewrite list_lookup_insert_eq in Hx by lia. injection Hx as <-.
  eexists. split.
  - unfold writeIO, bind. rewrite BusFacts.io_store_run by (auto; lia).
    cbn [res_bind fst snd]. unfold updateJoypad, bind. rewrite Ex.
    cbn [res_bind fst snd]. unfold get. cbn [res_bind fst snd].
    apply BusFacts.io_store_run; [|lia].
    cbn [io set_io]. now rewrite length_insert.
  - rewrite BusFacts.read_io by lia. cbn [io set_io input].
    rewrite H4, H5, at_insert by (rewrite length_insert; lia).
    reflexivity.
Qed.


End IoFacts.

(** ** The flat memory image, ROM loading and saved states *)

Module ImageFacts.

Import Int GameBoyEmulator Samples Observations.
Local Open Scope gb_scope.

Lemma eval_read_u32 (s : state) (a : Z) :
  eval (readMemory_u32 a) s
  = if Z.of_nat (length (memory s)) <=? a then Throw out_of_range
    else at_ (memory s) a.
Proof.
  unfold eval, readMemory_u32, bind, get, lift. cbn [res_bind fst snd].
  destruct (Z.of_nat (length (memory s)) <=? a); [reflexivity|].
  destruct (at_ (memory s) a); reflexivity.
Qed.

(** X18.  The upper half of the flat memory image is a store: a write of
    [v] to an address from [0x8000] up to the end of the image returns, a
    read of that address then returns [v], a read of any other address
    returns (or throws) what it did before, and nothing but the image
    changes. *)
Theorem flat_image_store_law (s : state) (a v : Z) :
  0x8000 <= a < Z.of_nat (length (memory s)) ->
  exists s',
    writeMemory_u32 a v s = Ok (tt, s') /\
    eval (readMemory_u32 a) s' = Ok v /\
    (forall b, b <> a ->
       eval (readMemory_u32 b) s' = eval (readMemory_u32 b) s) /\
    s' = set_memory (memory s') s.
Proof.
  intros Ha. eexists. split; [|split; [|split]].
  - unfold writeMemory_u32, bind, get, lift, modify. cbn [res_bind fst snd].
    destruct (Z.leb_spec (Z.of_nat (length (memory s))) a); [lia|].
    destruct (Z.ltb_spec a 0x8000); [lia|].
    rewrite store_ok by lia. cbn [res_bind fst snd]. reflexivity.
  - rewrite eval_read_u32. cbn [memory set_memory]. rewrite length_insert.
    destruct (Z.leb_spec (Z.of_nat (length (memory s))) a); [lia|].
    apply at_insert. lia.
  - intros b Hb. rewrite !eval_read_u32. cbn [memory set_memory].
    rewrite length_insert.
    destruct (Z.of_nat (length (memory s)) <=? b); [reflexivity|].
    apply BusFacts.at_insert_ne; lia.
  - reflexivity.
Qed.

Lemma flat_image_store_law_witness :
  0x8000 <= 0xC000 < Z.of_nat (length (memory power_on)) /\
  exists s',
    writeMemory_u32 0xC000 0x42 power_on = Ok (tt, s') /\
    eval (readMemory_u32 0xC000) s' = Ok 0x42 /\
    (forall b, b <> 0xC000 ->
       eval (readMemory_u32 b) s' = eval (readMemory_u32 b) power_on) /\
    s' = set_memory (memory s') power_on.
Proof.
  assert (Ha : 0x8000 <= 0xC000 < Z.of_nat (length (memory power_on)))
    by (rewrite GameBoyFacts.power_on_memory_size; lia).
  split; [exact Ha|]. exact (flat_image_store_law power_on 0xC000 0x42 Ha).
Defined.

(** X19.  The flat image checks its bounds: an access throws
    [std::out_of_range] exactly when the address is at or beyond the end
    of the image; inside the image a read returns a byte and a write
    returns. *)
Theorem flat_image_bounds (s : state) (a v : Z) :
  0 <= a ->
  (Z.of_nat (length (memory s)) <= a ->
   readMemory_u32 a s = Throw out_of_range /\
   writeMemory_u32 a v s = Throw out_of_range) /\
  (a < Z.of_nat (length (memory s)) ->
   (exists x, readMemory_u32 a s = Ok (x, s)) /\
   (exists s', writeMemory_u32 a v s = Ok (tt, s'))).
Proof.
  intros Ha. unfold readMemory_u32, writeMemory_u32, bind, get, lift, modify,
    ret.
  cbn [res_bind fst snd]. split; intros Hlen.
  - destruct (Z.leb_spec (Z.of_nat (length (memory s))) a); [|lia].
    split; reflexivity.
  - destruct (Z.leb_spec (Z.of_nat (length (memory s))) a); [lia|]. split.
    + destruct (at_in_range (memory s) a) as [x ->]; [lia|].
      exists x. reflexivity.
    + destruct (Z.ltb_spec a 0x8000); [eexists; reflexivity|].
      rewrite store_ok by lia. eexists. reflexivity.
Qed.

Lemma flat_image_bounds_witness :
  0 <= 0x10000 /\
  Z.of_nat (length (memory power_on)) <= 0x10000 /\
  readMemory_u32 0x10000 power_on = Throw out_of_range /\
  writeMemory_u32 0x10000 0x42 power_on = Throw out_of_range.
Proof.
  assert (Ha : 0 <= 0x10000) by lia.
  assert (Hlen : Z.of_nat (length (memory power_on)) <= 0x10000)
    by (rewrite GameBoyFacts.power_on_memory_size; lia).
  split; [exact Ha|]. split; [exact Hlen|].
  exact (proj1 (flat_image_bounds power_on 0x10000 0x42 Ha) Hlen).
Defined.

(** *** ROM loading *)

Lemma logo_length : length NINTENDO_LOGO = 16%nat.
Proof. reflexivity. Qed.

(** X20.  [validateROM] accepts exactly the images of at least [0x150]
    bytes that carry the logo at [0x104..0x113]; no other byte of the
    image, header checksum included, has a say. *)
Theorem validateROM_accepts_logo (data : list Z) :
  validateROM data = true <->
  0x150 <= Z.of_nat (length data) /\
  forall i, (i < 16)%nat -> data !! (0x104 + i)%nat = NINTENDO_LOGO !! i.
Proof.
  unfold validateROM. rewrite logo_length.
  destruct (Z.ltb_spec (Z.of_nat (length data)) 0x150) as [Hshort|Hlong].
  - split; [discriminate|]. intros [Hlen _]. lia.
  - rewrite bool_decide_eq_true. split.
    + intros Heq. split; [exact Hlong|]. intros i Hi.
      rewrite <- Heq, lookup_take_lt, lookup_drop by exact Hi. reflexivity.
    + intros [_ Hlogo]. apply list_eq. intros i.
      destruct (Nat.lt_ge_cases i 16) as [Hi|Hi].
      * rewrite lookup_take_lt, lookup_drop by exact Hi. apply Hlogo, Hi.
      * rewrite lookup_take_ge by exact Hi. symmetry.
        apply lookup_ge_None. rewrite logo_length. exact Hi.
Qed.

(** X21.  A rejected image commits nothing: when the image is shorter
    than [0x150] bytes or differs from the logo at one position,
    [loadROM] returns [false] and leaves the object, the previous
    cartridge and the memory image included, as it was. *)
Theorem rejected_rom_commits_nothing (s : state) (data : list Z) :
  (Z.of_nat (length data) < 0x150 \/
   exists i, (i < 16)%nat /\ data !! (0x104 + i)%nat <> NINTENDO_LOGO !! i) ->
  loadROM data s = Ok (false, s).
Proof.
  intros Hbad. apply GameBoyFacts.loadROM_rejected.
  apply not_true_is_false. intros Hok.
  apply validateROM_accepts_logo in Hok as [Hlen Hlogo].
  destruct Hbad as [Hshort|(i & Hi & Hne)]; [lia|].
  apply Hne, Hlogo, Hi.
Qed.

Lemma rejected_rom_commits_nothing_witness :
  Z.of_nat (length truncated_stream) < 0x150 /\
  loadROM truncated_stream power_on = Ok (false, power_on).
Proof.
  assert (Hshort : Z.of_nat (length truncated_stream) < 0x150) by (cbn; lia).
  split; [exact Hshort|].
  exact (rejected_rom_commits_nothing power_on truncated_stream
           (or_introl Hshort)).
Defined.

(** X22.  [loadROM] overwrites only the bytes the image covers in the
    lower half of the memory image: it returns [true], keeps the size of
    the image, and every address at or above [0x8000], or at or beyond
    the length of the cartridge, reads (or throws) as before; the CPU
    registers are not reset. *)
Theorem loadROM_keeps_uncovered_memory (s : state) (data : list Z) :
  Z.of_nat (length (memory s)) = 0x10000 ->
  validateROM data = true ->
  exists s',
    loadROM data s = Ok (true, s') /\
    length (memory s') = length (memory s) /\
    (forall b, 0x8000 <= b \/ Z.of_nat (length data) <= b ->
       eval (readMemory_u32 b) s' = eval (readMemory_u32 b) s) /\
    cartridgeROM s' = data /\ registers s' = registers s.
Proof.
  intros Hm Hv. eexists. split; [apply GameBoyFacts.loadROM_run, Hv|].
  cbn [memory set_memory set_cartridgeROM cartridgeROM registers].
  assert (Hlen : length (copy_into data
                           (Nat.min (length data) (Z.to_nat 0x8000))
                           (memory s)) = length (memory s)).
  { unfold copy_into. rewrite length_app, length_take, length_drop. lia. }
  split; [exact Hlen|]. split; [|split; reflexivity].
  intros b Hb. rewrite !eval_read_u32. cbn [memory set_memory].
  rewrite Hlen.
  destruct (Z.leb_spec (Z.of_nat (length (memory s))) b); [reflexivity|].
  unfold at_. destruct (Z.ltb_spec b 0); [reflexivity|].
  assert (Hlook : copy_into data (Nat.min (length data) (Z.to_nat 0x8000))
                    (memory s) !! Z.to_nat b
                  = memory s !! Z.to_nat b).
  { unfold copy_into.
    rewrite lookup_app_r by (rewrite length_take; lia).
    rewrite length_take, lookup_drop. f_equal. lia. }
  rewrite Hlook. reflexivity.
Qed.

Lemma loadROM_keeps_uncovered_memory_witness :
  Z.of_nat (length (memory power_on)) = 0x10000 /\
  validateROM sample_rom = true /\
  exists s',
    loadROM sample_rom power_on = Ok (true, s') /\
    length (memory s') = length (memory power_on) /\
    (forall b, 0x8000 <= b \/ Z.of_nat (length sample_rom) <= b ->
       eval (readMemory_u32 b) s' = eval (readMemory_u32 b) power_on) /\
    cartridgeROM s' = sample_rom /\ registers s' = registers power_on.
Proof.
  split; [exact GameBoyFacts.power_on_memory_size|].
  split; [exact GameBoyFacts.sample_rom_valid|].
  exact (loadROM_keeps_uncovered_memory power_on sample_rom
           GameBoyFacts.power_on_memory_size GameBoyFacts.sample_rom_valid).
Defined.

(** *** Saved states *)

Lemma split_word (x : Z) :
  Z.lor (Z.land x 0xFF) (Z.shiftl (Z.shiftr x 8) 8) = x.
Proof.
  apply Z.bits_inj'. intros n Hn.
  rewrite Z.lor_spec, Z.land_spec. change 0xFF with (Z.ones 8).
  destruct (Z.lt_ge_cases n 8) as [Hlo|Hhi].
  - rewrite Z.ones_spec_low, Z.shiftl_spec_low by lia.
    now rewrite andb_true_r, orb_false_r.
  - rewrite Z.ones_spec_high, Z.shiftl_spec, Z.shiftr_spec by lia.
    rewrite andb_false_r. cbn [orb]. f_equal. lia.
Qed.

Lemma registers_round_trip (r : Registers.t) :
  Registers.of_bytes (Registers.to_bytes r) = r.
Proof.
  destruct r as [a f b c d e h l sp pc]. unfold Registers.of_bytes.
  cbn [Registers.to_bytes nth Registers.a Registers.f Registers.b Registers.c
       Registers.d Registers.e Registers.h Registers.l Registers.sp
       Registers.pc].
  now rewrite !split_word.
Qed.

Lemma gpu_round_trip (g : Gpu.t) : Gpu.of_bytes (Gpu.to_bytes g) = g.
Proof. destruct g. reflexivity. Qed.

Lemma stream_read_exact (n : nat) (got rest : list Z) :
  length got = n ->
  stream_read n (mkIfstream (got ++ rest) false)
  = (got, mkIfstream rest false).
Proof.
  intros <-. unfold stream_read. cbn [failbit pending].
  rewrite take_app_length, drop_app_length, Nat.ltb_irrefl. reflexivity.
Qed.

Lemma patch_whole (buf got : list Z) :
  length got = length buf -> patch buf got = got.
Proof.
  intros Hlen. unfold patch. rewrite drop_ge by lia. apply app_nil_r.
Qed.

(** X23.  A saved state loads back: [saveState] on an openable file
    returns [true], leaves the object as it was and writes the memory
    image, the registers and the GPU registers; [loadState] of these
    bytes into any object with an image of the same size returns [true]
    and leaves it with the memory image, the CPU registers and the GPU
    registers of the object saved. *)
Theorem save_load_round_trip (s t : state) :
  length (memory t) = length (memory s) ->
  exists bytes t',
    saveState true s = Ok ((true, bytes), s) /\
    Z.of_nat (length bytes)
    = Z.of_nat (length (memory s)) + Registers.size + Gpu.size /\
    loadState (Some bytes) t = Ok (true, t') /\
    memory t' = memory s /\ registers t' = registers s /\ gpu t' = gpu s.
Proof.
  intros Hlen.
  exists (memory s ++ Registers.to_bytes (registers s)
          ++ Gpu.to_bytes (gpu s)).
  eexists. split; [reflexivity|]. split.
  { rewrite !length_app.
    change (length (Registers.to_bytes (registers s))) with 12%nat.
    change (length (Gpu.to_bytes (gpu s))) with 3%nat.
    unfold Registers.size, Gpu.size. lia. }
  run_loadState.
  rewrite stream_read_exact by (symmetry; exact Hlen). run_loadState.
  rewrite stream_read_exact by reflexivity. run_loadState.
  rewrite <- (app_nil_r (Gpu.to_bytes (gpu s))).
  rewrite stream_read_exact by reflexivity. run_loadState.
  split; [reflexivity|].
  cbn [memory registers gpu set_memory set_registers set_gpu].
  rewrite patch_whole by (symmetry; exact Hlen).
  split; [reflexivity|]. split.
  - unfold patch_registers.
    change (Registers.of_bytes
              (patch (Registers.to_bytes (registers t))
                 (Registers.to_bytes (registers s)))
            = registers s).
    rewrite patch_whole by reflexivity. apply registers_round_trip.
  - unfold patch_gpu.
    change (Gpu.of_bytes
              (patch (Gpu.to_bytes (gpu t)) (Gpu.to_bytes (gpu s) ++ []))
            = gpu s).
    rewrite app_nil_r, patch_whole by reflexivity. apply gpu_round_trip.
Qed.

Lemma save_load_round_trip_witness :
  length (memory (power_on_at 0x0200)) = length (memory power_on) /\
  exists bytes t',
    saveState true power_on = Ok ((true, bytes), power_on) /\
    Z.of_nat (length bytes)
    = Z.of_nat (length (memory power_on)) + Registers.size + Gpu.size /\
    loadState (Some bytes) (power_on_at 0x0200) = Ok (true, t') /\
    memory t' = memory power_on /\ registers t' = registers power_on /\
    gpu t' = gpu power_on.
Proof.
  split; [reflexivity|].
  exact (save_load_round_trip power_on (power_on_at 0x0200) eq_refl).
Defined.

End ImageFacts.

(** ** The sound processing unit: registers, reset and envelope *)

Module SpuMore.

Import Int SPU Samples Observations.

Lemma ram_mask_ones (s : state) (k : Z) :
  1 <= k <= 32 -> Z.of_nat (length (spuRam s)) = 2 ^ k ->
  ram_mask s = Z.ones k.
Proof.
  intros Hk Hlen. unfold ram_mask. rewrite Hlen.
  assert (2 <= 2 ^ k <= 2 ^ 32).
  { split.
    - change 2 with (2 ^ 1) at 1. apply Z.pow_le_mono_r; lia.
    - apply Z.pow_le_mono_r; lia. }
  rewrite Z.mod_small by lia. rewrite Z.ones_equiv. lia.
Qed.

(** The address a register access uses: the address modulo the size of
    the sample RAM. *)
Lemma masked_address (s : state) (a : Z) :
  ram_ready s ->
  Z.land a (ram_mask s) = a mod Z.of_nat (length (spuRam s)).
Proof.
  intros (k & Hk & Hlen). rewrite (ram_mask_ones s k Hk Hlen), Hlen.
  apply Z.land_ones. lia.
Qed.


(** [write] and [read] at an address inside the sample RAM. *)
Lemma write_run (s : state) (a v : Z) :
  ram_ready s -> 0 <= a -> a + 1 < Z.of_nat (length (spuRam s)) ->
  write a v s
  = Ok (set_spuRam
          (<[Z.to_nat (a + 1) := Z.land (Z.shiftr v 8) 0xFF]>
             (<[Z.to_nat a := Z.land v 0xFF]> (spuRam s))) s).
Proof.
  intros Hram Ha Hlen. unfold write.
  rewrite (masked_address s a Hram), Z.mod_small by lia.
  destruct (Z.leb_spec (Z.of_nat (length (spuRam s))) (a + 1)); [lia|].
  rewrite store_ok by lia. cbn [res_bind].
  rewrite store_ok by (rewrite length_insert; lia). reflexivity.
Qed.

Lemma read_run (s : state) (a lo hi : Z) :
  ram_ready s -> 0 <= a ->
  spuRam s !! Z.to_nat a = Some lo ->
  spuRam s !! Z.to_nat (a + 1) = Some hi ->
  read a s = Ok (u16 (Z.lor (Z.shiftl hi 8) lo)).
Proof.
  intros Hram Ha Hlo Hhi. unfold read.
  pose proof (lookup_lt_Some _ _ _ Hhi) as Hlt.
  rewrite (masked_address s a Hram), Z.mod_small by lia.
  destruct (Z.leb_spec (Z.of_nat (length (spuRam s))) (a + 1)); [lia|].
  rewrite (at_lookup _ _ hi) by (auto; lia). cbn [res_bind].
  rewrite (at_lookup _ _ lo) by (auto; lia). reflexivity.
Qed.







(** *** The audio buffer *)








End SpuMore.

(** ** The PlayStation memory bus *)

Module PlayStationFacts.

Import Int PlayStationEmulator Samples Observations.

Lemma ps1_reset_ram : Z.of_nat (length (ram ps1_reset)) = 0x200000.
Proof.
  change (ram ps1_reset) with (replicate (Z.to_nat (2 * 1024 * 1024)) 0).
  rewrite length_replicate. lia.
Qed.

(** X28.  Main RAM is mirrored at [0x80000000]: for an offset inside the
    RAM a read through the mirror returns what a read of the offset
    itself returns, a write through either window returns and is read
    back through the other, and a write changes nothing but the RAM. *)
Theorem ram_mirror (s : state) (a v : Z) :
  Z.of_nat (length (ram s)) <= 0x80000000 ->
  0 <= a < Z.of_nat (length (ram s)) ->
  readMemory (0x80000000 + a) s = readMemory a s /\
  (exists s',
     writeMemory (0x80000000 + a) v s = Ok s' /\
     readMemory a s' = Ok (v, s') /\ s' = set_ram (ram s') s) /\
  (exists s',
     writeMemory a v s = Ok s' /\
     readMemory (0x80000000 + a) s' = Ok (v, s') /\ s' = set_ram (ram s') s).
Proof.
  intros Hlen Ha.
  assert (Hdirect : forall t, length (ram t) = length (ram s) ->
            readMemory a t = res_bind (at_ (ram t) a) (fun x => Ok (x, t))).
  { intros t Ht. unfold readMemory. rewrite Ht.
    destruct (Z.ltb_spec a (Z.of_nat (length (ram s)))); [reflexivity|lia]. }
  assert (Hmirror : forall t, length (ram t) = length (ram s) ->
            readMemory (0x80000000 + a) t
            = res_bind (at_ (ram t) a) (fun x => Ok (x, t))).
  { intros t Ht. unfold readMemory. rewrite Ht.
    destruct (Z.ltb_spec (0x80000000 + a) (Z.of_nat (length (ram s))));
      [lia|].
    destruct (Z.leb_spec 0x1F000000 (0x80000000 + a)); [|lia].
    destruct (Z.ltb_spec (0x80000000 + a) 0x1F800000); [lia|]. cbn [andb].
    destruct (Z.leb_spec 0x80000000 (0x80000000 + a)); [|lia].
    destruct (Z.ltb_spec (0x80000000 + a)
                (0x80000000 + Z.of_nat (length (ram s)))); [|lia].
    cbn [andb]. do 2 f_equal. lia. }
  split; [|split].
  - rewrite Hdirect, Hmirror by reflexivity. reflexivity.
  - eexists. split; [|split].
    + unfold writeMemory.
      destruct (Z.ltb_spec (0x80000000 + a) (Z.of_nat (length (ram s))));
        [lia|].
      destruct (Z.leb_spec 0x80000000 (0x80000000 + a)); [|lia].
      destruct (Z.ltb_spec (0x80000000 + a)
                  (0x80000000 + Z.of_nat (length (ram s)))); [|lia].
      cbn [andb].
      replace (0x80000000 + a - 0x80000000) with a by lia.
      rewrite store_ok by lia. reflexivity.
    + rewrite Hdirect by (cbn [ram set_ram]; apply length_insert).
      cbn [ram set_ram]. rewrite at_insert by lia. reflexivity.
    + reflexivity.
  - eexists. split; [|split].
    + unfold writeMemory.
      destruct (Z.ltb_spec a (Z.of_nat (length (ram s)))); [|lia].
      rewrite store_ok by lia. reflexivity.
    + rewrite Hmirror by (cbn [ram set_ram]; apply length_insert).
      cbn [ram set_ram]. rewrite at_insert by lia. reflexivity.
    + reflexivity.
Qed.

Lemma ram_mirror_witness :
  Z.of_nat (length (ram ps1_reset)) <= 0x80000000 /\
  0 <= 0x1234 < Z.of_nat (length (ram ps1_reset)) /\
  readMemory (0x80000000 + 0x1234) ps1_reset = readMemory 0x1234 ps1_reset /\
  exists s',
    writeMemory (0x80000000 + 0x1234) 0x5A ps1_reset = Ok s' /\
    readMemory 0x1234 s' = Ok (0x5A, s') /\ s' = set_ram (ram s') ps1_reset.
Proof.
  assert (Hlen : Z.of_nat (length (ram ps1_reset)) <= 0x80000000)
    by (rewrite ps1_reset_ram; lia).
  assert (Ha : 0 <= 0x1234 < Z.of_nat (length (ram ps1_reset)))
    by (rewrite ps1_reset_ram; lia).
  destruct (ram_mirror ps1_reset 0x1234 0x5A Hlen Ha) as (H1 & H2 & _).
  split; [exact Hlen|]. split; [exact Ha|]. split; [exact H1|exact H2].
Defined.

(** X29.  An access outside the memory map is logged and dropped: a read
    of an unmapped address returns 0 and a write returns, each after
    writing one line that names the address in hexadecimal to the error
    stream, and neither changes anything else.  The BIOS window is
    unmapped for writes, so the BIOS ROM cannot be written through the
    bus. *)
Theorem unmapped_access_is_logged (s : state) (a v : Z) :
  Z.of_nat (length (ram s)) <= a < 0x80000000 ->
  ~ (0x1F801C00 <= a < 0x1F802000) ->
  writeMemory a v s
  = Ok (set_cerr
          (cerr s ++ "Memory write to unhandled address: 0x" ++ hex a ++ endl)
          s) /\
  (~ (0x1F000000 <= a < 0x1F000000 + Z.of_nat (length (biosRom s))) ->
   readMemory a s
   = Ok (0, set_cerr
              (cerr s ++ "Memory read from unhandled address: 0x" ++ hex a
               ++ endl) s)).
Proof.
  intros Ha Hspu. split.
  - unfold writeMemory, SPU_BASE.
    destruct (Z.ltb_spec a (Z.of_nat (length (ram s)))); [lia|].
    destruct (Z.leb_spec 0x80000000 a); [lia|]. cbn [andb].
    destruct (Z.leb_spec 0x1F801C00 a), (Z.ltb_spec a 0x1F802000);
      cbn [andb]; try lia; reflexivity.
  - intros Hbios. unfold readMemory, read_unhandled, SPU_BASE.
    destruct (Z.ltb_spec a (Z.of_nat (length (ram s)))); [lia|].
    destruct (Z.leb_spec 0x1F000000 a), (Z.ltb_spec a 0x1F800000);
      cbn [andb].
    + destruct (Z.ltb_spec (a - 0x1F000000) (Z.of_nat (length (biosRom s))));
        [lia|reflexivity].
    + destruct (Z.leb_spec 0x80000000 a); [lia|]. cbn [andb].
      destruct (Z.leb_spec 0x1F801C00 a), (Z.ltb_spec a 0x1F802000);
        cbn [andb]; try lia; reflexivity.
    + destruct (Z.leb_spec 0x80000000 a); [lia|]. cbn [andb].
      destruct (Z.leb_spec 0x1F801C00 a), (Z.ltb_spec a 0x1F802000);
        cbn [andb]; try lia; reflexivity.
    + lia.
Qed.

Lemma unmapped_access_is_logged_witness :
  Z.of_nat (length (ram ps1_reset)) <= 0x1F000010 < 0x80000000 /\
  writeMemory 0x1F000010 0xFF ps1_reset
  = Ok (set_cerr
          (cerr ps1_reset ++ "Memory write to unhandled address: 0x"
           ++ hex 0x1F000010 ++ endl) ps1_reset).
Proof.
  assert (Ha : Z.of_nat (length (ram ps1_reset)) <= 0x1F000010 < 0x80000000)
    by (rewrite ps1_reset_ram; lia).
  split; [exact Ha|].
  apply (proj1 (unmapped_access_is_logged ps1_reset 0x1F000010 0xFF Ha
                  ltac:(lia))).
Defined.

(** *** The SPU register window *)

Lemma bit_above_byte (b n : Z) : is_u8 b -> 8 <= n -> Z.testbit b n = false.
Proof.
  unfold is_u8. intros Hb Hn.
  rewrite <- (Z.mod_small b (2 ^ 8)) by (change (2 ^ 8) with 256; lia).
  apply Z.mod_pow2_bits_high. lia.
Qed.

(** The low byte latched by a write to an even address. *)
Lemma latch_low (old lo : Z) :
  is_u8 lo -> Z.land (u16 (Z.lor (Z.land old 0xFF00) lo)) 0xFF = lo.
Proof.
  intros Hlo. unfold u16. change 0x10000 with (2 ^ 16).
  rewrite <- Z.land_ones by lia.
  change 0xFF with (Z.ones 8). change 0xFF00 with (Z.shiftl (Z.ones 8) 8).
  apply Z.bits_inj'. intros n Hn.
  rewrite !Z.land_spec, Z.lor_spec, Z.land_spec.
  destruct (Z.lt_ge_cases n 8) as [Hlt|Hge].
  - rewrite Z.shiftl_spec_low, (Z.ones_spec_low 16), (Z.ones_spec_low 8)
      by lia.
    rewrite andb_false_r, !andb_true_r. reflexivity.
  - rewrite (Z.ones_spec_high 8), andb_false_r by lia.
    symmetry. apply bit_above_byte; assumption.
Qed.

(** The two bytes of a 16-bit word. *)
Lemma word_bytes (lo hi : Z) :
  is_u8 lo -> is_u8 hi ->
  Z.land (u16 (Z.lor lo (Z.shiftl hi 8))) 0xFF = lo /\
  Z.land (Z.shiftr (u16 (Z.lor lo (Z.shiftl hi 8))) 8) 0xFF = hi /\
  u8 (Z.shiftr (u16 (Z.lor (Z.shiftl hi 8) lo)) 0) = lo /\
  u8 (Z.shiftr (u16 (Z.lor (Z.shiftl hi 8) lo)) 8) = hi.
Proof.
  intros Hlo Hhi.
  pose (check := fun lo => forallb (fun hi =>
    (Z.land (u16 (Z.lor lo (Z.shiftl hi 8))) 0xFF =? lo)
    && (Z.land (Z.shiftr (u16 (Z.lor lo (Z.shiftl hi 8))) 8) 0xFF =? hi)
    && (u8 (Z.shiftr (u16 (Z.lor (Z.shiftl hi 8) lo)) 0) =? lo)
    && (u8 (Z.shiftr (u16 (Z.lor (Z.shiftl hi 8) lo)) 8) =? hi))
    (seqZ 0 0x100)).
  assert (Hall : check lo = true)
    by (apply CpuFacts.all_bytes; [vm_compute; reflexivity|exact Hlo]).
  unfold check in Hall. rewrite forallb_forall in Hall.
  specialize (Hall hi). cbv beta in Hall.
  rewrite !andb_true_iff, !Z.eqb_eq in Hall.
  destruct Hall as [[[H1 H2] H3] H4];
    [apply list_elem_of_In, elem_of_seqZ; unfold is_u8 in Hhi; lia|].
  auto.
Qed.

Lemma window_address (k : Z) :
  0 <= k < 0x200 ->
  Z.land (SPU_BASE + 2 * k) 1 = 0 /\
  Z.land (SPU_BASE + 2 * k + 1) 1 = 1 /\
  Z.quot (SPU_BASE + 2 * k - SPU_BASE) 2 = k /\
  Z.quot (SPU_BASE + 2 * k + 1 - SPU_BASE) 2 = k.
Proof.
  intros Hk. unfold SPU_BASE.
  assert (Hland : forall x, Z.land x 1 = x mod 2)
    by (intros x; apply (Z.land_ones x 1); lia).
  rewrite !Hland, !Z.quot_div_nonneg by lia.
  replace (0x1F801C00 + 2 * k - 0x1F801C00) with (k * 2) by lia.
  replace (0x1F801C00 + 2 * k + 1 - 0x1F801C00) with (1 + k * 2) by lia.
  replace (0x1F801C00 + 2 * k + 1) with (1 + (0xFC00E00 + k) * 2) by lia.
  replace (0x1F801C00 + 2 * k) with (0 + (0xFC00E00 + k) * 2) by lia.
  rewrite !Z.mod_add, Z.div_mul, Z.div_add by lia.
  repeat split.
Qed.

(** A write to an even address of the window only latches the byte. *)
Lemma spu_even_write (s : state) (u : SPU.state) (k v : Z) :
  spu s = Some u -> Z.of_nat (length (ram s)) <= SPU_BASE ->
  0 <= k < 0x200 ->
  writeMemory (SPU_BASE + 2 * k) v s
  = Ok (set_spuWord (u16 (Z.lor (Z.land (spuWord s) 0xFF00) v)) s).
Proof.
  intros Hspu Hlen Hk. destruct (window_address k Hk) as (He & _ & _ & _).
  unfold writeMemory. rewrite Hspu, He. unfold SPU_BASE in *.
  destruct (Z.ltb_spec (0x1F801C00 + 2 * k) (Z.of_nat (length (ram s))));
    [lia|].
  destruct (Z.leb_spec 0x80000000 (0x1F801C00 + 2 * k)); [lia|]. cbn [andb].
  destruct (Z.leb_spec 0x1F801C00 (0x1F801C00 + 2 * k)); [|lia].
  destruct (Z.ltb_spec (0x1F801C00 + 2 * k) 0x1F802000); [|lia].
  reflexivity.
Qed.

(** A write to the odd address after it stores the word at byte [k] of
    the sample RAM. *)
Lemma spu_odd_write (s : state) (u : SPU.state) (k lo hi : Z) :
  spu s = Some u -> Z.of_nat (length (ram s)) <= SPU_BASE ->
  ram_ready u -> 0 <= k < 0x200 ->
  k + 1 < Z.of_nat (length (SPU.spuRam u)) ->
  Z.land (spuWord s) 0xFF = lo -> is_u8 lo -> is_u8 hi ->
  writeMemory (SPU_BASE + 2 * k + 1) hi s
  = Ok (set_spu
          (Some (SPU.set_spuRam
                   (<[Z.to_nat (k + 1) := hi]>
                      (<[Z.to_nat k := lo]> (SPU.spuRam u))) u))
          (set_spuWord (u16 (Z.lor lo (Z.shiftl hi 8))) s)).
Proof.
  intros Hspu Hlen Hram Hk Hfit Hlatch Hlo Hhi.
  destruct (window_address k Hk) as (_ & Ho & _ & Hq).
  destruct (word_bytes lo hi Hlo Hhi) as (Hb0 & Hb1 & _ & _).
  unfold writeMemory. rewrite Hspu, Ho, Hq, Hlatch. unfold SPU_BASE in *.
  destruct (Z.ltb_spec (0x1F801C00 + 2 * k + 1) (Z.of_nat (length (ram s))));
    [lia|].
  destruct (Z.leb_spec 0x80000000 (0x1F801C00 + 2 * k + 1)); [lia|].
  cbn [andb].
  destruct (Z.leb_spec 0x1F801C00 (0x1F801C00 + 2 * k + 1)); [|lia].
  destruct (Z.ltb_spec (0x1F801C00 + 2 * k + 1) 0x1F802000); [|lia].
  cbn [andb truthy Z.eqb negb].
  rewrite SpuMore.write_run by (auto; lia). cbn [res_bind].
  rewrite Hb0, Hb1. reflexivity.
Qed.

(** A read of the two addresses of register [k]. *)
Lemma spu_window_read (s : state) (u : SPU.state) (k b0 b1 : Z) :
  spu s = Some u -> Z.of_nat (length (ram s)) <= SPU_BASE ->
  ram_ready u -> 0 <= k < 0x200 ->
  SPU.spuRam u !! Z.to_nat k = Some b0 ->
  SPU.spuRam u !! Z.to_nat (k + 1) = Some b1 ->
  is_u8 b0 -> is_u8 b1 ->
  readMemory (SPU_BASE + 2 * k) s = Ok (b0, s) /\
  readMemory (SPU_BASE + 2 * k + 1) s = Ok (b1, s).
Proof.
  intros Hspu Hlen Hram Hk H0 H1 Hb0 Hb1.
  destruct (window_address k Hk) as (He & Ho & Hq0 & Hq1).
  destruct (word_bytes b0 b1 Hb0 Hb1) as (_ & _ & Hr0 & Hr1).
  unfold readMemory. rewrite Hspu, He, Ho, Hq0, Hq1.
  rewrite (SpuMore.read_run u k b0 b1) by (auto; lia). cbn [res_bind].
  change (0 * 8) with 0. change (1 * 8) with 8. rewrite Hr0, Hr1.
  unfold SPU_BASE in *. split.
  - destruct (Z.ltb_spec (0x1F801C00 + 2 * k) (Z.of_nat (length (ram s))));
      [lia|].
    destruct (Z.leb_spec 0x1F000000 (0x1F801C00 + 2 * k)); [|lia].
    destruct (Z.ltb_spec (0x1F801C00 + 2 * k) 0x1F800000); [lia|].
    destruct (Z.leb_spec 0x80000000 (0x1F801C00 + 2 * k)); [lia|].
    cbn [andb].
    destruct (Z.leb_spec 0x1F801C00 (0x1F801C00 + 2 * k)); [|lia].
    destruct (Z.ltb_spec (0x1F801C00 + 2 * k) 0x1F802000); [|lia].
    reflexivity.
  - destruct (Z.ltb_spec (0x1F801C00 + 2 * k + 1)
                (Z.of_nat (length (ram s)))); [lia|].
    destruct (Z.leb_spec 0x1F000000 (0x1F801C00 + 2 * k + 1)); [|lia].
    destruct (Z.ltb_spec (0x1F801C00 + 2 * k + 1) 0x1F800000); [lia|].
    destruct (Z.leb_spec 0x80000000 (0x1F801C00 + 2 * k + 1)); [lia|].
    cbn [andb].
    destruct (Z.leb_spec 0x1F801C00 (0x1F801C00 + 2 * k + 1)); [|lia].
    destruct (Z.ltb_spec (0x1F801C00 + 2 * k + 1) 0x1F802000); [|lia].
    reflexivity.
Qed.

Lemma ps1_reset_spu :
  exists u, spu ps1_reset = Some u /\ ram_ready u /\
            0x202 <= Z.of_nat (length (SPU.spuRam u)).
Proof.
  eexists. split; [reflexivity|].
  assert (Hlen : Z.of_nat (length
            (SPU.spuRam (SPU.initialize (SPU.create false)))) = 2 ^ 19).
  { change (SPU.spuRam (SPU.initialize (SPU.create false)))
      with (replicate
              (length (replicate
                 (length (replicate (Z.to_nat SPU.SPU_RAM_SIZE) 0)) 0)) 0).
    rewrite !length_replicate, Z2Nat.id by (unfold SPU.SPU_RAM_SIZE; lia).
    reflexivity. }
  split; [exists 19; split; [lia|exact Hlen]|]. rewrite Hlen. lia.
Qed.

(** X30.  The SPU register window packs two bus bytes into a word, but
    places register [k] at byte [k] of the sample RAM, so neighbouring
    registers share a byte.  A write to the even address of register [k]
    only latches the byte; the write to the odd address stores the word,
    and both bytes are then read back.  Once register [k + 1] has been
    written the same way, its bytes are read back, and the high byte of
    register [k] reads back the low byte of register [k + 1]. *)
Theorem spu_registers_overlap (s : state) (u : SPU.state)
    (k lo hi lo' hi' : Z) :
  spu s = Some u -> ram_ready u ->
  0x202 <= Z.of_nat (length (SPU.spuRam u)) ->
  Z.of_nat (length (ram s)) <= SPU_BASE ->
  0 <= k < 0x1FF ->
  is_u8 lo -> is_u8 hi -> is_u8 lo' -> is_u8 hi' ->
  exists s1 s2 s3 s4,
    writeMemory (SPU_BASE + 2 * k) lo s = Ok s1 /\
    spu s1 = Some u /\
    writeMemory (SPU_BASE + 2 * k + 1) hi s1 = Ok s2 /\
    readMemory (SPU_BASE + 2 * k) s2 = Ok (lo, s2) /\
    readMemory (SPU_BASE + 2 * k + 1) s2 = Ok (hi, s2) /\
    writeMemory (SPU_BASE + 2 * (k + 1)) lo' s2 = Ok s3 /\
    writeMemory (SPU_BASE + 2 * (k + 1) + 1) hi' s3 = Ok s4 /\
    readMemory (SPU_BASE + 2 * (k + 1)) s4 = Ok (lo', s4) /\
    readMemory (SPU_BASE + 2 * (k + 1) + 1) s4 = Ok (hi', s4) /\
    readMemory (SPU_BASE + 2 * k) s4 = Ok (lo, s4) /\
    readMemory (SPU_BASE + 2 * k + 1) s4 = Ok (lo', s4).
Proof.
  intros Hspu Hram Hsize Hlen Hk Hlo Hhi Hlo' Hhi'.
  set (ram2 := <[Z.to_nat (k + 1) := hi]>
                 (<[Z.to_nat k := lo]> (SPU.spuRam u))).
  set (u2 := SPU.set_spuRam ram2 u).
  set (ram4 := <[Z.to_nat (k + 1 + 1) := hi']>
                 (<[Z.to_nat (k + 1) := lo']> ram2)).
  set (u4 := SPU.set_spuRam ram4 u2).
  assert (Hlen2 : length ram2 = length (SPU.spuRam u))
    by (unfold ram2; now rewrite !length_insert).
  assert (Hlen4 : length ram4 = length (SPU.spuRam u))
    by (unfold ram4; now rewrite !length_insert).
  assert (Hram2 : ram_ready u2).
  { destruct Hram as (e & He & Hl). exists e. split; [exact He|].
    unfold u2. cbn [SPU.spuRam SPU.set_spuRam]. now rewrite Hlen2. }
  assert (Hram4 : ram_ready u4).
  { destruct Hram as (e & He & Hl). exists e. split; [exact He|].
    unfold u4. cbn [SPU.spuRam SPU.set_spuRam]. now rewrite Hlen4. }
  pose (s1 := set_spuWord (u16 (Z.lor (Z.land (spuWord s) 0xFF00) lo)) s).
  pose (s2 := set_spu (Some u2)
                (set_spuWord (u16 (Z.lor lo (Z.shiftl hi 8))) s1)).
  pose (s3 := set_spuWord (u16 (Z.lor (Z.land (spuWord s2) 0xFF00) lo')) s2).
  pose (s4 := set_spu (Some u4)
                (set_spuWord (u16 (Z.lor lo' (Z.shiftl hi' 8))) s3)).
  exists s1, s2, s3, s4.
  assert (E1 : writeMemory (SPU_BASE + 2 * k) lo s = Ok s1)
    by (apply (spu_even_write s u); [assumption|assumption|lia]).
  assert (E2 : writeMemory (SPU_BASE + 2 * k + 1) hi s1 = Ok s2).
  { apply (spu_odd_write s1 u k lo hi Hspu Hlen Hram);
      [lia|lia|apply latch_low, Hlo|exact Hlo|exact Hhi]. }
  assert (E3 : writeMemory (SPU_BASE + 2 * (k + 1)) lo' s2 = Ok s3)
    by (apply (spu_even_write s2 u2); [reflexivity|assumption|lia]).
  assert (E4 : writeMemory (SPU_BASE + 2 * (k + 1) + 1) hi' s3 = Ok s4).
  { apply (spu_odd_write s3 u2 (k + 1) lo' hi' eq_refl Hlen Hram2);
      [lia| |apply latch_low, Hlo'|exact Hlo'|exact Hhi'].
    unfold u2. cbn [SPU.spuRam SPU.set_spuRam]. rewrite Hlen2. lia. }
  assert (Hk0 : ram2 !! Z.to_nat k = Some lo).
  { unfold ram2. rewrite list_lookup_insert_ne by lia.
    apply list_lookup_insert_eq. lia. }
  assert (Hk1 : ram2 !! Z.to_nat (k + 1) = Some hi)
    by (unfold ram2; apply list_lookup_insert_eq; rewrite length_insert; lia).
  assert (Hq0 : ram4 !! Z.to_nat k = Some lo).
  { unfold ram4. rewrite !list_lookup_insert_ne by lia. exact Hk0. }
  assert (Hq1 : ram4 !! Z.to_nat (k + 1) = Some lo').
  { unfold ram4. rewrite list_lookup_insert_ne by lia.
    apply list_lookup_insert_eq. lia. }
  assert (Hq2 : ram4 !! Z.to_nat (k + 1 + 1) = Some hi')
    by (unfold ram4; apply list_lookup_insert_eq; rewrite length_insert; lia).
  destruct (spu_window_read s2 u2 k lo hi eq_refl Hlen Hram2 ltac:(lia)
              Hk0 Hk1 Hlo Hhi) as [R1 R2].
  destruct (spu_window_read s4 u4 (k + 1) lo' hi' eq_refl Hlen Hram4
              ltac:(lia) Hq1 Hq2 Hlo' Hhi') as [R3 R4].
  destruct (spu_window_read s4 u4 k lo lo' eq_refl Hlen Hram4 ltac:(lia)
              Hq0 Hq1 Hlo Hlo') as [R5 R6].
  repeat (split; [first [assumption|reflexivity]|]). exact R6.
Qed.

Lemma spu_registers_overlap_witness :
  exists s1 s2 s3 s4,
    writeMemory (SPU_BASE + 2 * 0x10) 0x34 ps1_reset = Ok s1 /\
    spu s1 = spu ps1_reset /\
    writeMemory (SPU_BASE + 2 * 0x10 + 1) 0x12 s1 = Ok s2 /\
    readMemory (SPU_BASE + 2 * 0x10) s2 = Ok (0x34, s2) /\
    readMemory (SPU_BASE + 2 * 0x10 + 1) s2 = Ok (0x12, s2) /\
    writeMemory (SPU_BASE + 2 * (0x10 + 1)) 0xCD s2 = Ok s3 /\
    writeMemory (SPU_BASE + 2 * (0x10 + 1) + 1) 0xAB s3 = Ok s4 /\
    readMemory (SPU_BASE + 2 * (0x10 + 1)) s4 = Ok (0xCD, s4) /\
    readMemory (SPU_BASE + 2 * (0x10 + 1) + 1) s4 = Ok (0xAB, s4) /\
    readMemory (SPU_BASE + 2 * 0x10) s4 = Ok (0x34, s4) /\
    readMemory (SPU_BASE + 2 * 0x10 + 1) s4 = Ok (0xCD, s4).
Proof.
  destruct ps1_reset_spu as (u & Hu & Hram & Hsize).
  rewrite Hu.
  apply (spu_registers_overlap ps1_reset u 0x10 0x34 0x12 0xCD 0xAB Hu Hram
           Hsize); try (unfold is_u8; lia).
  rewrite ps1_reset_ram. unfold SPU_BASE. lia.
Defined.

End PlayStationFacts.
